(** * websrv: the filesystem request handler ([fs.c]), the response
      decorator ([websrv_queue_response]) and the client
      ([assets/apiClient.js])

    A shallow embedding of the C code.  The C functions become functions in
    a state-and-undefined-behaviour monad over an explicit [world]: the
    objects the code reaches through pointers (open [FILE]s, open [DIR]s,
    the automatic [dir_read_sm_t] of [on_dir_request], libmicrohttpd
    response objects) live in finite maps indexed by their addresses, so
    that aliasing, reference counts and object lifetimes are visible.

    libc and libmicrohttpd are not part of the repository; they are the
    small executable models of sections 3 and 5, written from what the C
    standard, POSIX and the libmicrohttpd manual say about the calls the
    code makes.

    The client is embedded in section 11: its functions become functions
    of the [browser] they run in (the origin of the page, [fetch], the
    collation, the serializer of [URLSearchParams]), a promise is the
    value it settles to. *)

From Stdlib Require Import ZArith String Ascii Lia.
From Stdlib Require OrderedTypeEx.
From stdpp Require Import base option list sorting gmap strings pretty.

Open Scope Z_scope.

(** ** 1. Machine integers and C strings *)

Module C.

(** Two's-complement reading of [z] on [bits] bits: what a conversion to
    a signed integer type of that width yields. *)
Definition to_signed (bits : Z) (z : Z) : Z :=
  (z + 2 ^ (bits - 1)) mod 2 ^ bits - 2 ^ (bits - 1).

Definition INT_MAX : Z := 2 ^ 31 - 1.
Definition SSIZE_MAX : Z := 2 ^ 63 - 1.
Definition UINT64_MAX : Z := 2 ^ 64 - 1.

Definition to_long : Z → Z := to_signed 64.
Definition to_ssize_t : Z → Z := to_signed 64.

(** A C string is modelled by the characters before its terminator. *)
Definition strlen (s : string) : Z := Z.of_nat (String.length s).

(** [s[i]]; reading position [strlen s] yields the terminator. *)
Definition char_at (s : string) (i : Z) : ascii :=
  match String.get (Z.to_nat i) s with
  | Some c => c
  | None => "000"%char
  end.

Definition NUL : ascii := "000"%char.

Definition bytes (s : string) : list ascii := list_ascii_of_string s.

(** [snprintf(buf, max, fmt, ...)] where [s] is the formatted text:
    at most [max - 1] characters and a terminator are stored, and the
    length the whole text would have needed is returned (a negative
    value when that length does not fit an [int]). *)
Definition snprintf (max : Z) (s : string) : Z * list ascii :=
  (if strlen s <=? INT_MAX then strlen s else -1,
   if 0 <? max then take (Z.to_nat (max - 1)) (bytes s) ++ [NUL] else []).

(** [sprintf(buf, fmt, ...)] into an array of [size] bytes; writing past
    the array is undefined, hence [None]. *)
Definition sprintf (size : Z) (s : string) : option string :=
  if strlen s + 1 <=? size then Some s else None.

End C.

(** ** 2. The world *)

(** Addresses.  [void *cls] carries any of them. *)
Inductive ptr :=
| NULL
| FilePtr (id : nat)      (* FILE * *)
| DirPtr (id : nat)       (* DIR * *)
| SmPtr (id : nat)        (* dir_read_sm_t *, an automatic object *)
| RespPtr (id : nat).     (* struct MHD_Response * *)

Global Instance ptr_eq_dec : EqDecision ptr.
Proof. solve_decision. Defined.

(** [struct stat], the two fields the code reads. *)
Record stat_t := { st_isreg : bool; st_size : Z }.

(** An open stdio stream on a file. *)
Record FILE := {
  f_data : list ascii;       (* the bytes of the file *)
  f_seekable : bool;         (* whether the stream can be repositioned *)
  f_fault : option nat;      (* bytes from this offset on cannot be read *)
  f_pos : nat;               (* file position indicator *)
  f_err : bool               (* error indicator *)
}.

Record dirent := { d_name : string }.

(** State machine for rendering directory listing. *)
Record dir_read_sm := {
  path : string;
  dir : ptr;
  state : Z
}.

(** Function pointers handed to [MHD_create_response_from_callback]. *)
Inductive crc_fn := Fn_on_file_read | Fn_on_dir_read.
Inductive crfc_fn := Fn_on_file_close | Fn_on_dir_close.

Inductive content :=
| FromBuffer (size : Z) (data : string)
| FromCallback (size : Z) (block_size : Z)
               (crc : crc_fn) (crc_cls : ptr) (crfc : crfc_fn).

Record MHD_Response := {
  r_content : content;
  r_headers : list (string * string);
  r_refs : nat
}.

(** What the code cannot see: the platform's constants, the file system
    and whether libmicrohttpd can allocate a response object. *)
Record env := {
  PATH_MAX : Z;
  PAGE_SIZE : Z;
  fs_stat : string → option stat_t;
  fs_fopen : string → option FILE;
  fs_opendir : string → option (list dirent);
  mhd_alloc : bool
}.

Inductive event :=
| Ev_fopen (id : nat)
| Ev_fclose (id : nat)
| Ev_opendir (id : nat)
| Ev_closedir (id : nat).

Global Instance event_eq_dec : EqDecision event.
Proof. solve_decision. Defined.

Record world := World {
  w_env : env;
  w_files : gmap nat FILE;               (* open streams *)
  w_dirs : gmap nat (list dirent);       (* open directories: entries left *)
  w_frames : gmap nat dir_read_sm;       (* live automatic objects *)
  w_resps : gmap nat MHD_Response;       (* live response objects *)
  w_queued : gmap nat (Z * nat);         (* connection -> status, response *)
  w_fresh : nat;                         (* next unused address *)
  w_log : list event                     (* libc open and close calls *)
}.

(** Updates of one component.  They take the record apart rather than
    project it, so that [w] occurs once. *)
Definition set_files (f : gmap nat FILE → gmap nat FILE) (w : world) : world :=
  let 'World e fl dr fr rs q nx lg := w in World e (f fl) dr fr rs q nx lg.
Definition set_dirs (f : gmap nat (list dirent) → gmap nat (list dirent))
    (w : world) : world :=
  let 'World e fl dr fr rs q nx lg := w in World e fl (f dr) fr rs q nx lg.
Definition set_frames (f : gmap nat dir_read_sm → gmap nat dir_read_sm)
    (w : world) : world :=
  let 'World e fl dr fr rs q nx lg := w in World e fl dr (f fr) rs q nx lg.
Definition set_resps (f : gmap nat MHD_Response → gmap nat MHD_Response)
    (w : world) : world :=
  let 'World e fl dr fr rs q nx lg := w in World e fl dr fr (f rs) q nx lg.
Definition set_queued (f : gmap nat (Z * nat) → gmap nat (Z * nat))
    (w : world) : world :=
  let 'World e fl dr fr rs q nx lg := w in World e fl dr fr rs (f q) nx lg.
Definition bump_fresh (w : world) : world :=
  let 'World e fl dr fr rs q nx lg := w in World e fl dr fr rs q (S nx) lg.
Definition log_event (ev : event) (w : world) : world :=
  let 'World e fl dr fr rs q nx lg := w in
  World e fl dr fr rs q nx (lg ++ [ev]).

(** A world in which nothing is open yet. *)
Definition initial (e : env) : world := World e ∅ ∅ ∅ ∅ ∅ 0%nat [].

(** Computations: a state transformer that may be undefined ([None]),
    as C is when it follows a dangling or mistyped pointer. *)
Definition M (A : Type) : Type := world → option (A * world).

Global Instance M_ret : MRet M := λ A x w, Some (x, w).
Global Instance M_bind : MBind M := λ A B f m w,
  match m w with
  | Some (x, w') => f x w'
  | None => None
  end.

Definition undefined {A} : M A := λ _, None.
Definition get_world : M world := λ w, Some (w, w).
Definition modify (f : world → world) : M unit := λ w, Some (tt, f w).
Definition fresh : M nat := λ w, Some (w_fresh w, bump_fresh w).
Definition ask {A} (f : env → A) : M A := λ w, Some (f (w_env w), w).

(** ** 3. libc, as far as [fs.c] calls it *)

Module Libc.

Definition stat (p : string) : M (option stat_t) :=
  ask (λ e, fs_stat e p).

(** Follow a [FILE *]: anything but the address of an open stream is
    undefined. *)
Definition with_file {A} (p : ptr) (k : nat → FILE → M A) : M A :=
  match p with
  | FilePtr id =>
      w ← get_world;
      match w_files w !! id with
      | Some f => k id f
      | None => undefined
      end
  | _ => undefined
  end.

Definition with_dir {A} (p : ptr) (k : nat → list dirent → M A) : M A :=
  match p with
  | DirPtr id =>
      w ← get_world;
      match w_dirs w !! id with
      | Some es => k id es
      | None => undefined
      end
  | _ => undefined
  end.

(** [fopen(p, "rb")]: a fresh stream positioned at offset 0 with a clear
    error indicator, or [NULL].  What [fs_fopen] says is what the call
    yields in the situation at hand; that it may also fail for want of a
    descriptor, depending on what else is open, is not modelled (nor is
    it for [opendir]). *)
Definition fopen (p : string) : M ptr :=
  o ← ask (λ e, fs_fopen e p);
  match o with
  | None => mret NULL
  | Some f =>
      id ← fresh;
      modify (set_files <[id :=
        {| f_data := f_data f; f_seekable := f_seekable f;
           f_fault := f_fault f; f_pos := 0; f_err := false |}]>);;
      modify (log_event (Ev_fopen id));;
      mret (FilePtr id)
  end.

Definition fclose (p : ptr) : M unit :=
  with_file p (λ id _,
    modify (set_files (delete id));;
    modify (log_event (Ev_fclose id))).

(** [fseek(f, offset, SEEK_SET)] on the stream itself: [None] is the
    failure (a stream that cannot seek, or a negative offset). *)
Definition seek_set (f : FILE) (offset : Z) : option FILE :=
  if f_seekable f && (0 <=? offset)
  then Some {| f_data := f_data f; f_seekable := f_seekable f;
               f_fault := f_fault f; f_pos := Z.to_nat offset;
               f_err := f_err f |}
  else None.

(** Offset at which reading stops: end of file, or the fault. *)
Definition readable (f : FILE) : nat :=
  match f_fault f with
  | Some k => k `min` length (f_data f)
  | None => length (f_data f)
  end.

(** [fread(buf, 1, max, f)] on the stream itself: the count, the bytes
    stored in [buf], and the stream afterwards.  The error indicator is
    raised when the read stops short of [max] before the end of file. *)
Definition read (f : FILE) (max : Z) : Z * list ascii * FILE :=
  let n := (Z.to_nat max `min` (readable f - f_pos f))%nat in
  let short := (n <? Z.to_nat max)%nat
               && (f_pos f + n <? length (f_data f))%nat in
  (Z.of_nat n, take n (drop (f_pos f) (f_data f)),
   {| f_data := f_data f; f_seekable := f_seekable f;
      f_fault := f_fault f; f_pos := f_pos f + n;
      f_err := f_err f || short |}).

Definition fseek (p : ptr) (offset : Z) : M Z :=
  with_file p (λ id f,
    match seek_set f offset with
    | Some f' => modify (set_files <[id := f']>);; mret 0
    | None => mret (-1)
    end).

Definition fread (max : Z) (p : ptr) : M (Z * list ascii) :=
  with_file p (λ id f,
    let '(n, data, f') := read f max in
    modify (set_files <[id := f']>);;
    mret (n, data)).

Definition ferror (p : ptr) : M bool :=
  with_file p (λ _ f, mret (f_err f)).

Definition opendir (p : string) : M ptr :=
  o ← ask (λ e, fs_opendir e p);
  match o with
  | None => mret NULL
  | Some es =>
      id ← fresh;
      modify (set_dirs <[id := es]>);;
      modify (log_event (Ev_opendir id));;
      mret (DirPtr id)
  end.

(** [readdir]: the next entry, or [None] for the null pointer it returns
    at the end of the directory. *)
Definition readdir (p : ptr) : M (option dirent) :=
  with_dir p (λ id es,
    match es with
    | [] => mret None
    | e :: es' => modify (set_dirs <[id := es']>);; mret (Some e)
    end).

Definition closedir (p : ptr) : M unit :=
  with_dir p (λ id _,
    modify (set_dirs (delete id));;
    modify (log_event (Ev_closedir id))).

End Libc.

(** ** 4. [fs.c]: the stream callbacks *)

Definition MHD_CONTENT_READER_END_OF_STREAM : Z := -1.
Definition MHD_CONTENT_READER_END_WITH_ERROR : Z := -2.

(** File not found (404) *)
Definition PAGE_404 : string :=
  "<html><head><title>File not found</title></head><body>File not found</body></html>".

Definition dquote : string := String "034"%char EmptyString.

(** The text of the first [snprintf] of [on_dir_read]: the adjacent
    literals of the format, blanks included, with [p] for both [%s]. *)
Definition listing_header (p : string) : string :=
  "<!DOCTYPE html>" +:+ "<html>" +:+ "  <head>" +:+
  "    <title>Index of " +:+ p +:+ "</title>" +:+ "  </head>" +:+
  "  <body>" +:+ "    <h1>Index of " +:+ p +:+ "</h1>" +:+ "    <ul>".

(** The text of the second one, with [n] for both [%s]. *)
Definition listing_item (n : string) : string :=
  "<li><a href=" +:+ dquote +:+ n +:+ dquote +:+ ">" +:+ n +:+ "</a></li>".

Definition listing_footer : string := "</ul></body></html>".

(** [*p] for a [dir_read_sm_t *p]: the object must still be alive. *)
Definition load_sm (p : ptr) : M dir_read_sm :=
  match p with
  | SmPtr a =>
      w ← get_world;
      match w_frames w !! a with
      | Some s => mret s
      | None => undefined
      end
  | _ => undefined
  end.

Definition store_sm (p : ptr) (s : dir_read_sm) : M unit :=
  match p with
  | SmPtr a =>
      w ← get_world;
      match w_frames w !! a with
      | Some _ => modify (set_frames <[a := s]>)
      | None => undefined
      end
  | _ => undefined
  end.

(** [sm->state++] *)
Definition incr_state (p : ptr) : M unit :=
  s ← load_sm p;
  store_sm p {| path := path s; dir := dir s; state := state s + 1 |}.

(** A reader returns the [ssize_t] and the bytes it stored in [buf]. *)
Definition chunk : Type := Z * list ascii.

(** Read parts of a file on disk. *)
Definition on_file_read (cls : ptr) (pos : Z) (max : Z) : M chunk :=
  let file := cls in
  r ← Libc.fseek file (C.to_long pos);
  if negb (r =? 0) then mret (MHD_CONTENT_READER_END_WITH_ERROR, [])
  else
    '(len, data) ← Libc.fread max file;
    if len =? 0 then
      e ← Libc.ferror file;
      if (e : bool) then mret (MHD_CONTENT_READER_END_WITH_ERROR, data)
      else mret (MHD_CONTENT_READER_END_OF_STREAM, data)
    else mret (C.to_ssize_t len, data).

(** Close a file on disk. *)
Definition on_file_close (cls : ptr) : M unit :=
  let file := cls in
  if decide (file = NULL) then mret tt else Libc.fclose file.

(** Read the contents of a directory, and render it as html. *)
Definition on_dir_read (cls : ptr) (pos : Z) (max : Z) : M chunk :=
  let sm := cls in
  if max <? 512 then mret (0, [])
  else
    s ← load_sm sm;
    if state s =? 0 then
      let res := C.snprintf max (listing_header (path s)) in
      incr_state sm;;
      mret res
    else if state s =? 1 then
      e ← Libc.readdir (dir s);
      match e with
      | None => incr_state sm;; mret (0, [])
      | Some e =>
          if Ascii.eqb (C.char_at (d_name e) 0) "."
          then mret (0, [])
          else mret (C.snprintf max (listing_item (d_name e)))
      end
    else if state s =? 2 then
      let res := C.snprintf max listing_footer in
      incr_state sm;;
      mret res
    else mret (MHD_CONTENT_READER_END_OF_STREAM, []).

(** Close a directory. *)
Definition on_dir_close (cls : ptr) : M unit :=
  let sm := cls in
  if decide (sm = NULL) then mret tt
  else
    s ← load_sm sm;
    if decide (dir s = NULL) then mret tt else Libc.closedir (dir s).

(** ** 5. libmicrohttpd, as far as the code calls it *)

Definition call_crc (f : crc_fn) : ptr → Z → Z → M chunk :=
  match f with
  | Fn_on_file_read => on_file_read
  | Fn_on_dir_read => on_dir_read
  end.

Definition call_crfc (f : crfc_fn) : ptr → M unit :=
  match f with
  | Fn_on_file_close => on_file_close
  | Fn_on_dir_close => on_dir_close
  end.

Definition MHD_NO : Z := 0.
Definition MHD_YES : Z := 1.
Definition MHD_HTTP_OK : Z := 200.
Definition MHD_HTTP_MOVED_PERMANENTLY : Z := 301.
Definition MHD_HTTP_NOT_FOUND : Z := 404.
Definition MHD_SIZE_UNKNOWN : Z := C.UINT64_MAX.
Definition MHD_HTTP_HEADER_LOCATION : string := "Location".
Definition MHD_HTTP_HEADER_ACCESS_CONTROL_ALLOW_ORIGIN : string :=
  "Access-Control-Allow-Origin".

(** Follow a [struct MHD_Response *]. *)
Definition with_resp {A} (p : ptr) (k : nat → MHD_Response → M A) : M A :=
  match p with
  | RespPtr id =>
      w ← get_world;
      match w_resps w !! id with
      | Some r => k id r
      | None => undefined
      end
  | _ => undefined
  end.

(** A new response object holds one reference, the caller's. *)
Definition create_response (c : content) : M ptr :=
  ok ← ask mhd_alloc;
  if (ok : bool) then
    id ← fresh;
    modify (set_resps <[id :=
      {| r_content := c; r_headers := []; r_refs := 1 |}]>);;
    mret (RespPtr id)
  else mret NULL.

Definition MHD_create_response_from_buffer (size : Z) (buffer : string)
    : M ptr :=
  create_response (FromBuffer size buffer).

Definition MHD_create_response_from_callback (size block_size : Z)
    (crc : crc_fn) (crc_cls : ptr) (crfc : crfc_fn) : M ptr :=
  create_response (FromCallback size block_size crc crc_cls crfc).

Definition HT : ascii := "009"%char.
Definition LF : ascii := "010"%char.
Definition CR : ascii := "013"%char.

(** [strchr(s, c1) || strchr(s, c2) || ...]: one of [cs] occurs in [s]. *)
Definition has_any (cs : list ascii) (s : string) : bool :=
  existsb (λ c, existsb (Ascii.eqb c) cs) (C.bytes s).

(** A header line that libmicrohttpd takes: neither the name nor the
    value is empty, the name holds no tab, blank, CR or LF, and the
    value no CR or LF. *)
Definition header_ok (header value : string) : bool :=
  negb (String.eqb header EmptyString)
  && negb (String.eqb value EmptyString)
  && negb (has_any [HT; " "%char; CR; LF] header)
  && negb (has_any [CR; LF] value).

(** A line that is not well formed is refused: [MHD_NO], and nothing is
    stored. *)
Definition MHD_add_response_header (response : ptr) (header value : string)
    : M Z :=
  if decide (response = NULL) then mret MHD_NO
  else if negb (header_ok header value) then mret MHD_NO
  else with_resp response (λ id r,
    modify (set_resps <[id :=
      {| r_content := r_content r;
         r_headers := r_headers r ++ [(header, value)];
         r_refs := r_refs r |}]>);;
    mret MHD_YES).

(** Queuing succeeds on a connection that has no reply yet, and makes the
    connection hold a reference of its own. *)
Definition MHD_queue_response (conn : nat) (status : Z) (response : ptr)
    : M Z :=
  if decide (response = NULL) then mret MHD_NO
  else with_resp response (λ id r,
    w ← get_world;
    match w_queued w !! conn with
    | Some _ => mret MHD_NO
    | None =>
        modify (set_queued <[conn := (status, id)]>);;
        modify (set_resps <[id :=
          {| r_content := r_content r; r_headers := r_headers r;
             r_refs := S (r_refs r) |}]>);;
        mret MHD_YES
    end).

(** Dropping the last reference frees the object and runs its
    free callback on the closure. *)
Definition MHD_destroy_response (response : ptr) : M unit :=
  if decide (response = NULL) then mret tt
  else with_resp response (λ id r,
    match r_refs r with
    | S (S n) =>
        modify (set_resps <[id :=
          {| r_content := r_content r; r_headers := r_headers r;
             r_refs := S n |}]>)
    | _ =>
        modify (set_resps (delete id));;
        match r_content r with
        | FromCallback _ _ _ cls crfc => call_crfc crfc cls
        | FromBuffer _ _ => mret tt
        end
    end).

(** ** 6. The response decorator *)

Definition websrv_queue_response (conn : nat) (status : Z) (resp : ptr)
    : M Z :=
  MHD_add_response_header resp
    MHD_HTTP_HEADER_ACCESS_CONTROL_ALLOW_ORIGIN "*";;
  MHD_queue_response conn status resp.

(** ** 7. [fs.c]: the request handlers *)

(** The block that ends [fs_on_request] and also stands in
    [on_file_request] and [on_dir_request]: build the 404 page and queue
    it; [ret] stays [MHD_NO] when no response object could be built. *)
Definition queue_page_404 (conn : nat) : M Z :=
  resp ← MHD_create_response_from_buffer (C.strlen PAGE_404) PAGE_404;
  if decide (resp = NULL) then mret MHD_NO
  else
    ret ← MHD_queue_response conn MHD_HTTP_NOT_FOUND resp;
    MHD_destroy_response resp;;
    mret ret.

(** Respond to a file request. *)
Definition on_file_request (conn : nat) (path : string) : M Z :=
  st ← Libc.stat path;
  file ← match st with
         | Some _ => Libc.fopen path
         | None => mret NULL
         end;
  if decide (file = NULL) then queue_page_404 conn
  else
    page ← ask PAGE_SIZE;
    resp ← MHD_create_response_from_callback
             (from_option st_size 0 st `mod` 2 ^ 64) (32 * page)
             Fn_on_file_read file Fn_on_file_close;
    if decide (resp = NULL) then
      Libc.fclose file;;
      mret MHD_NO
    else
      ret ← MHD_queue_response conn MHD_HTTP_OK resp;
      MHD_destroy_response resp;;
      mret ret.

(** The automatic [dir_read_sm_t sm] of [on_dir_request]: storage that
    exists from the call to the return. *)
Definition enter_frame : M ptr :=
  a ← fresh;
  modify (set_frames <[a :=
    {| path := EmptyString; dir := NULL; state := 0 |}]>);;
  mret (SmPtr a).

Definition leave_frame (p : ptr) : M unit :=
  match p with
  | SmPtr a => modify (set_frames (delete a))
  | _ => undefined
  end.

Definition last_is_slash (path : string) : bool :=
  Ascii.eqb (C.char_at path (C.strlen path - 1)) "/".

(** The statements of [on_dir_request], [sm] being the address of its
    local. *)
Definition on_dir_request_body (conn : nat) (path : string) (sm : ptr)
    : M Z :=
  let len := C.strlen path in
  if (len =? 0) || negb (last_is_slash path) then
    size ← ask PATH_MAX;
    match C.sprintf size ("/fs" +:+ path +:+ "/") with
    | None => undefined
    | Some url =>
        resp ← MHD_create_response_from_buffer 0 EmptyString;
        if decide (resp = NULL) then mret MHD_NO
        else
          MHD_add_response_header resp MHD_HTTP_HEADER_LOCATION url;;
          ret ← MHD_queue_response conn MHD_HTTP_MOVED_PERMANENTLY resp;
          MHD_destroy_response resp;;
          mret ret
    end
  else
    dir ← Libc.opendir path;
    if decide (dir = NULL) then queue_page_404 conn
    else
      store_sm sm {| path := path; dir := dir; state := 0 |};;
      page ← ask PAGE_SIZE;
      resp ← MHD_create_response_from_callback
               MHD_SIZE_UNKNOWN (32 * page)
               Fn_on_dir_read sm Fn_on_dir_close;
      if decide (resp = NULL) then
        Libc.closedir dir;;
        mret MHD_NO
      else
        ret ← MHD_queue_response conn MHD_HTTP_OK resp;
        MHD_destroy_response resp;;
        mret ret.

(** Respond to a directory request. *)
Definition on_dir_request (conn : nat) (path : string) : M Z :=
  sm ← enter_frame;
  ret ← on_dir_request_body conn path sm;
  leave_frame sm;;
  mret ret.

(** [url + n]: the string that starts [n] characters further. *)
Fixpoint advance (n : nat) (s : string) : string :=
  match n, s with
  | S n', String _ s' => advance n' s'
  | _, _ => s
  end.

(** [fs_on_request].  Reading [url + 3] is defined only when [url] has
    at least three characters. *)
Definition fs_on_request (conn : nat) (url : string) : M Z :=
  if C.strlen url <? 3 then undefined
  else
    let path := advance 3 url in
    if C.strlen path =? 0 then on_dir_request conn "/"
    else
      st ← Libc.stat path;
      match st with
      | Some st =>
          if st_isreg st then on_file_request conn path
          else on_dir_request conn path
      | None => queue_page_404 conn
      end.

(** ** 8. The HTTP layer after the handler has returned *)

(** How the transmission of a body ended. *)
Inductive outcome :=
| Completed          (* the whole body was sent *)
| Failed             (* the stream broke; the connection is closed *)
| Interrupted.       (* the client went away before the end *)

(** libmicrohttpd pulls the body: each call offers the reader the room it
    has, [cap], cut to what is left of a body of known [size].  A
    negative result ends the stream (before the declared length, that is
    a failure), one larger than the room offered closes the connection,
    [0] means nothing yet and the reader is called again.  [caps] lists
    the room of the successive calls; when it runs out the client has
    gone. *)
Fixpoint pull (crc : crc_fn) (cls : ptr) (size : Z) (caps : list Z)
    (pos : Z) (sent : list ascii) : M (outcome * list ascii) :=
  let known := negb (size =? MHD_SIZE_UNKNOWN) in
  if known && (pos =? size) then mret (Completed, sent)
  else
    match caps with
    | [] => mret (Interrupted, sent)
    | cap :: caps' =>
        let max := if known then cap `min` (size - pos) else cap in
        '(n, buf) ← call_crc crc cls pos max;
        if n =? MHD_CONTENT_READER_END_OF_STREAM then
          mret (if known then Failed else Completed, sent)
        else if (n <? 0) || (max <? n) then mret (Failed, sent)
        else pull crc cls size caps' (pos + n) (sent ++ take (Z.to_nat n) buf)
    end.

Record reply := {
  rp_status : Z;
  rp_headers : list (string * string);
  rp_length : Z;                 (* declared length, or MHD_SIZE_UNKNOWN *)
  rp_outcome : outcome;
  rp_body : list ascii
}.

(** Send what the handler queued on [conn], then drop the connection's
    reference to the response.  [None]: nothing was queued. *)
Definition http_send (conn : nat) (caps : list Z) : M (option reply) :=
  w ← get_world;
  match w_queued w !! conn with
  | None => mret None
  | Some (status, id) =>
      with_resp (RespPtr id) (λ _ r,
        '(len, (o, body)) ←
          match r_content r with
          | FromBuffer size data =>
              mret (size, (Completed, take (Z.to_nat size) (C.bytes data)))
          | FromCallback size _ crc cls _ =>
              ob ← pull crc cls size caps 0 [];
              mret (size, ob)
          end;
        modify (set_queued (delete conn));;
        MHD_destroy_response (RespPtr id);;
        mret (Some {| rp_status := status; rp_headers := r_headers r;
                      rp_length := len; rp_outcome := o;
                      rp_body := body |}))
  end.

(** A handler, then the transmission of what it queued. *)
Definition then_send (handler : M Z) (conn : nat) (caps : list Z)
    : M (Z * option reply) :=
  ret ← handler;
  rep ← http_send conn caps;
  mret (ret, rep).

(** One request from the call of the handler to the end of the reply. *)
Definition serve (conn : nat) (url : string) (caps : list Z)
    : M (Z * option reply) :=
  then_send (fs_on_request conn url) conn caps.

(** ** 9. Vocabulary of the statements *)

(** The four phases of the listing, and the value of [sm->state] that
    stands for each. *)
Inductive phase := Header | Entries | Footer | Done.

Definition phase_of (st : Z) : option phase :=
  if st =? 0 then Some Header
  else if st =? 1 then Some Entries
  else if st =? 2 then Some Footer
  else if st =? 3 then Some Done
  else None.

(** Successive calls of the directory reader on one closure, each with
    its [pos] and [max]; the result lists, call by call, the value of
    [sm->state] after the call and what the call returned. *)
Fixpoint dir_read_calls (cls : ptr) (calls : list (Z * Z))
    : M (list (Z * Z)) :=
  match calls with
  | [] => mret []
  | (pos, max) :: calls' =>
      '(n, _) ← on_dir_read cls pos max;
      s ← load_sm cls;
      rest ← dir_read_calls cls calls';
      mret ((state s, n) :: rest)
  end.

(** What a run of calls that starts with [sm->state = before] must look
    like: the state stays one of the four phases, moves forward by at
    most one phase per call, and in the last phase a call with room for
    an emission unit reports the end of the stream. *)
Fixpoint well_phased (before : Z) (calls tr : list (Z * Z)) : Prop :=
  match calls, tr with
  | [], [] => True
  | (_, max) :: calls', (after, n) :: tr' =>
      is_Some (phase_of after)
      ∧ before <= after <= before + 1
      ∧ (phase_of before = Some Done → after = before)
      ∧ (phase_of before = Some Done → 512 <= max →
         n = MHD_CONTENT_READER_END_OF_STREAM)
      ∧ well_phased after calls' tr'
  | _, _ => False
  end.

(** Entries the listing leaves out: the name begins with a dot. *)
Definition hidden (e : dirent) : bool :=
  match d_name e with
  | String "." _ => true
  | _ => false
  end.

(** The text fits the room offered (terminator included) and its length
    fits an [int]. *)
Definition fits (cap : Z) (s : string) : Prop :=
  C.strlen s < cap ∧ C.strlen s <= C.INT_MAX.

(** The items of the entries that are not hidden, in directory order. *)
Definition items (es : list dirent) : string :=
  String.concat EmptyString
    (map (λ e, listing_item (d_name e)) (filter (λ e, hidden e = false) es)).

(** The listing as the code streams it. *)
Definition listing (p : string) (es : list dirent) : string :=
  listing_header p +:+ items es +:+ listing_footer.

(** The listing as the specification words it: no blanks in the header,
    and only the entries named [.] and [..] left out. *)
Definition spec_header (p : string) : string :=
  "<!DOCTYPE html><html><head><title>Index of " +:+ p
  +:+ "</title></head><body><h1>Index of " +:+ p +:+ "</h1><ul>".

Definition spec_items (es : list dirent) : string :=
  String.concat EmptyString
    (map (λ e, listing_item (d_name e))
         (filter (λ e, d_name e ≠ "." ∧ d_name e ≠ "..") es)).

Definition spec_listing (p : string) (es : list dirent) : string :=
  spec_header p +:+ spec_items es +:+ "</ul></body></html>".

(** The closure of a directory stream as [on_dir_request] fills it in
    before it builds the response: [sm.dir = dir; sm.path = path;
    sm.state = 0]. *)
Definition fresh_stream (w : world) (a d : nat) (p : string)
    (es : list dirent) : Prop :=
  w_frames w !! a = Some {| path := p; dir := DirPtr d; state := 0 |}
  ∧ w_dirs w !! d = Some es.

(** The closure after [sm->state++]. *)
Definition next_state (s : dir_read_sm) : dir_read_sm :=
  {| path := path s; dir := dir s; state := state s + 1 |}.

(** The closure at [a] is alive, in one of the four phases, over an open
    directory. *)
Definition stream_ok (w : world) (a : nat) (s : dir_read_sm) : Prop :=
  w_frames w !! a = Some s
  ∧ 0 <= state s <= 3
  ∧ ∃ d es, dir s = DirPtr d ∧ w_dirs w !! d = Some es.

(** The response the 404 block leaves queued. *)
Definition page_404_response : MHD_Response :=
  {| r_content := FromBuffer (C.strlen PAGE_404) PAGE_404;
     r_headers := []; r_refs := 1 |}.

(** The response the redirect branch leaves queued when libmicrohttpd
    takes the Location header. *)
Definition redirect_response (path : string) : MHD_Response :=
  {| r_content := FromBuffer 0 EmptyString;
     r_headers := [(MHD_HTTP_HEADER_LOCATION, "/fs" +:+ path +:+ "/")];
     r_refs := 1 |}.

(** A path with no CR and no LF in it. *)
Definition one_line (path : string) : bool := negb (has_any [CR; LF] path).

(** The response the redirect branch leaves queued, whatever the path:
    the result of [MHD_add_response_header] is not looked at, so the
    response goes out without Location when the header was refused. *)
Definition redirect_reply (path : string) : MHD_Response :=
  {| r_content := FromBuffer 0 EmptyString;
     r_headers :=
       if one_line path
       then [(MHD_HTTP_HEADER_LOCATION, "/fs" +:+ path +:+ "/")]
       else [];
     r_refs := 1 |}.

(** The stream [fopen] hands out for the file [f] of the file system. *)
Definition opened (f : FILE) : FILE :=
  {| f_data := f_data f; f_seekable := f_seekable f; f_fault := f_fault f;
     f_pos := 0; f_err := false |}.

(** The response [on_file_request] builds around the stream [id]. *)
Definition file_response (e : env) (st : stat_t) (id : nat) : MHD_Response :=
  {| r_content :=
       FromCallback (st_size st `mod` 2 ^ 64) (32 * PAGE_SIZE e)
         Fn_on_file_read (FilePtr id) Fn_on_file_close;
     r_headers := []; r_refs := 1 |}.

(** The response [on_dir_request] builds around the closure at [a]. *)
Definition dir_response (e : env) (a : nat) : MHD_Response :=
  {| r_content :=
       FromCallback MHD_SIZE_UNKNOWN (32 * PAGE_SIZE e)
         Fn_on_dir_read (SmPtr a) Fn_on_dir_close;
     r_headers := []; r_refs := 1 |}.

(** A sound stream over a file whose bytes are [data]: it can seek, no
    byte of it fails to read, and its error indicator is clear. *)
Definition sound_file (f : FILE) (data : list ascii) : Prop :=
  f_data f = data ∧ f_seekable f = true ∧ f_fault f = None
  ∧ f_err f = false.

(** What is queued on a connection: the status and the response object. *)
Definition queued (conn : nat) (w : world) : option (Z * MHD_Response) :=
  match w_queued w !! conn with
  | Some (status, id) =>
      match w_resps w !! id with
      | Some r => Some (status, r)
      | None => None
      end
  | None => None
  end.

(** How many headers of a response bear the name [h]. *)
Definition count_header (h : string) (r : MHD_Response) : nat :=
  length (filter (λ kv, kv.1 = h) (r_headers r)).

(** What [fs_on_request] leaves queued on connection 0 when it is called
    in the initial world of [e]. *)
Definition handler_reply (e : env) (url : string)
    : option (Z * MHD_Response) :=
  match fs_on_request 0 url (initial e) with
  | Some (_, w) => queued 0 w
  | None => None
  end.

(** [m] keeps the property [P] of worlds. *)
Definition preserves {A} (P : world → Prop) (m : M A) : Prop :=
  ∀ w x w', P w → m w = Some (x, w') → P w'.

(** No live response object bears the cross-origin header. *)
Definition cors_free (w : world) : Prop :=
  map_Forall
    (λ _ r, count_header MHD_HTTP_HEADER_ACCESS_CONTROL_ALLOW_ORIGIN r = 0%nat)
    (w_resps w).

(** ** 10. A small file system for the examples *)

Definition demo_entries : list dirent :=
  [ {| d_name := "." |}; {| d_name := ".." |}; {| d_name := "a.txt" |};
    {| d_name := ".profile" |}; {| d_name := "b.txt" |};
    {| d_name := "sub" |} ].

Definition demo_file : FILE :=
  {| f_data := C.bytes "hello, world"; f_seekable := true;
     f_fault := None; f_pos := 0; f_err := false |}.

(** [/tmp/x/] holds [a.txt] (12 bytes), [b.txt], [sub] and [.profile]. *)
Definition demo_env : env := {|
  PATH_MAX := 1024;
  PAGE_SIZE := 16384;
  fs_stat := λ p,
    if String.eqb p "/tmp/x/a.txt"
    then Some {| st_isreg := true; st_size := 12 |}
    else if String.eqb p "/tmp/x" || String.eqb p "/tmp/x/" || String.eqb p "/"
    then Some {| st_isreg := false; st_size := 512 |}
    else None;
  fs_fopen := λ p,
    if String.eqb p "/tmp/x/a.txt" then Some demo_file else None;
  fs_opendir := λ p,
    if String.eqb p "/tmp/x" || String.eqb p "/tmp/x/"
    then Some demo_entries else None;
  mhd_alloc := true
|}.

(** The same machine when libmicrohttpd is out of memory. *)
Definition demo_env_no_memory : env := {|
  PATH_MAX := PATH_MAX demo_env;
  PAGE_SIZE := PAGE_SIZE demo_env;
  fs_stat := fs_stat demo_env;
  fs_fopen := fs_fopen demo_env;
  fs_opendir := fs_opendir demo_env;
  mhd_alloc := false
|}.

(** A world in which a directory stream is under way: the closure at
    address 0, in state [st], over the open directory 1. *)
Definition demo_stream (st : Z) (p : string) (es : list dirent) : world :=
  World demo_env ∅ {[ 1%nat := es ]}
        {[ 0%nat := {| path := p; dir := DirPtr 1; state := st |} ]}
        ∅ ∅ 2%nat [].

(** A path of 205 characters that ends in a separator. *)
Definition long_path : string :=
  "/" +:+ string_of_list_ascii (replicate 203 "a"%char) +:+ "/".

(** A name of 255 characters, the longest a directory entry can bear. *)
Definition long_name : string :=
  string_of_list_ascii (replicate 255 "n"%char).

(** A path of 1020 characters with no separator at its end: with [/fs],
    the separator and the terminator, its redirect target takes 1025
    bytes. *)
Definition overlong_path : string :=
  "/" +:+ string_of_list_ascii (replicate 1019 "a"%char).

(** A directory whose name holds a line feed. *)
Definition two_line_path : string := "/tmp/x" +:+ String LF "y".

(** A world in which [a.txt] is open as stream 0. *)
Definition demo_open_file : world :=
  World demo_env {[ 0%nat := demo_file ]} ∅ ∅ ∅ ∅ 1%nat [].

(** A world that holds one response object, the 404 page, not yet
    queued. *)
Definition demo_unqueued : world :=
  World demo_env ∅ ∅ ∅ {[ 5%nat := page_404_response ]} ∅ 6%nat [].

(** ** 11. The client ([assets/apiClient.js]) *)

(** The built-ins of the language that the client calls, on strings of
    bytes. *)
Module Js.

(** [s.startsWith(t)] *)
Definition startsWith (s t : string) : bool := String.prefix t s.

(** [s.endsWith(t)] *)
Definition endsWith (s t : string) : bool :=
  (String.length t <=? String.length s)%nat
  && String.eqb
       (String.substring (String.length s - String.length t)
          (String.length t) s) t.

(** [l.includes(x)], on an array of strings *)
Definition includes (l : list string) (x : string) : bool :=
  existsb (String.eqb x) l.

(** [s.replaceAll(c, t)] when the pattern is the one character [c] *)
Fixpoint replaceAll (c : ascii) (t : string) (s : string) : string :=
  match s with
  | EmptyString => EmptyString
  | String a s' =>
      if Ascii.eqb a c then t +:+ replaceAll c t s'
      else String a (replaceAll c t s')
  end.

(** [l.join(sep)], on an array of strings *)
Definition join (sep : string) (l : list string) : string :=
  String.concat sep l.

(** [l.sort(cmp)]: the sort is stable; an element stays before a later
    one unless [cmp] is positive on them. *)
Fixpoint insert_sorted {A} (cmp : A → A → Z) (x : A) (l : list A) : list A :=
  match l with
  | [] => [x]
  | y :: l' => if cmp x y <=? 0 then x :: l else y :: insert_sorted cmp x l'
  end.

Definition sort {A} (cmp : A → A → Z) (l : list A) : list A :=
  foldr (insert_sorted cmp) [] l.

(** A promise that has settled. *)
Inductive promise (A : Type) :=
| Fulfilled (value : A)
| Rejected (reason : string).
Arguments Fulfilled {A} value.
Arguments Rejected {A} reason.

(** [await]: go on with the value, or reject with the same reason. *)
Global Instance promise_ret : MRet promise := λ A x, Fulfilled x.
Global Instance promise_bind : MBind promise := λ A B f m,
  match m with
  | Fulfilled x => f x
  | Rejected e => Rejected e
  end.

End Js.

Module ApiClient.

(** An element of the array the listing request is answered with. *)
Record entry := { entry_name : string; entry_mode : string }.

(** The [Response] of [fetch], as far as the client looks at it. *)
Record Response := {
  ok : bool;
  status : Z;
  json : Js.promise (list entry);
  text : Js.promise string;
  body : option (list ascii)
}.

(** What the client runs in: the origin of the page, the network, the
    collation of the locale and the serializer of [URLSearchParams]. *)
Record browser := {
  origin : string;
  fetch : string → Js.promise Response;
  localeCompare : string → string → Z;
  toString : list (string * string) → string
}.

Record DirectoryListing := { name : string; mode : string }.

Definition ignoredFileNames : list string := ["."; ".."].

Definition isDir (this : DirectoryListing) : bool :=
  String.eqb (mode this) "d"
  && negb (Js.includes ignoredFileNames (name this)).

Definition isFile (this : DirectoryListing) : bool :=
  String.eqb (mode this) "-"
  && negb (Js.includes ignoredFileNames (name this)).

Definition baseURL (b : browser) : string :=
  if String.eqb (origin b) "null" then "http://127.0.0.1:8080" else origin b.

Definition backslash : string := String "092"%char EmptyString.

(** [arg => arg.replaceAll(" ", "\\ ")]: a backslash before each blank *)
Definition escape (arg : string) : string :=
  Js.replaceAll " " (backslash +:+ " ") arg.

(** The optional second argument of [launchApp]. *)
Inductive launch_args :=
| args_null
| args_string (args : string)
| args_array (args : list string).

(** The [URLSearchParams] of [launchApp]. *)
Definition launch_params (path : string) (args : launch_args)
    : list (string * string) :=
  let params := [("path", path)] in
  match args with
  | args_string args => params ++ [("args", escape args)]
  | args_array args => params ++ [("args", Js.join " " (map escape args))]
  | args_null => params
  end.

Definition launchApp (b : browser) (path : string) (args : launch_args)
    : Js.promise bool :=
  let params := launch_params path args in
  let uri := baseURL b +:+ "/hbldr?" +:+ toString b params in
  response ← fetch b uri;
  if negb (status response =? 200) then
    Js.Rejected ("Failed to launch app, status code: "
                 +:+ pretty (status response))
  else mret true.

(** [if (!path.endsWith('/')) path += '/'] *)
Definition with_separator (path : string) : string :=
  if negb (Js.endsWith path "/") then path +:+ "/" else path.

(** The comparison [fsListDir] sorts by. *)
Definition by_mode_then_name (b : browser) (x y : entry) : Z :=
  if String.eqb (entry_mode x) (entry_mode y)
  then localeCompare b (entry_name x) (entry_name y)
  else localeCompare b (entry_mode x) (entry_mode y).

Definition fsListDir (b : browser) (path : string)
    : Js.promise (option (list DirectoryListing)) :=
  let path := with_separator path in
  response ← fetch b (baseURL b +:+ "/fs" +:+ path +:+ "?fmt=json");
  if negb (ok response) then mret None
  else
    data ← json response;
    let data := Js.sort (by_mode_then_name b) data in
    mret (Some
      (map (λ entry, {| name := entry_name entry; mode := entry_mode entry |})
         (List.filter
            (λ entry, negb (Js.includes ignoredFileNames (entry_name entry)))
            data))).

Definition fsGetFileStream (b : browser) (path : string)
    : Js.promise (option (list ascii)) :=
  if Js.endsWith path "/" || negb (Js.startsWith path "/") then mret None
  else
    response ← fetch b (baseURL b +:+ "/fs" +:+ path);
    if negb (ok response) then mret None
    else mret (body response).

Definition fsGetFileText (b : browser) (path : string)
    : Js.promise (option string) :=
  if Js.endsWith path "/" || negb (Js.startsWith path "/") then mret None
  else
    response ← fetch b (baseURL b +:+ "/fs" +:+ path);
    if negb (ok response) then mret None
    else t ← text response; mret (Some t).

End ApiClient.

(** ** 12. Vocabulary of the further statements *)

(** How far a stream can be read: up to the end of the file or to the
    offset at which reading fails; not at all if it cannot seek. *)
Definition deliverable (f : FILE) : nat :=
  if f_seekable f then Libc.readable f else 0%nat.

(** The same file behind two states of a stream. *)
Definition same_file (f g : FILE) : Prop :=
  f_data f = f_data g ∧ f_fault f = f_fault g ∧ f_seekable f = f_seekable g.

(** Nothing is left of a call: the replies queued are as before, and no
    response object, stream, directory or automatic object has been
    added. *)
Definition nothing_left (w w' : world) : Prop :=
  w_queued w' = w_queued w
  ∧ w_resps w' ⊆ w_resps w
  ∧ w_files w' ⊆ w_files w
  ∧ w_dirs w' ⊆ w_dirs w
  ∧ w_frames w' ⊆ w_frames w.

(** What a call added to the log of libc calls is nothing, or the
    opening of one handle and then its closing. *)
Definition opened_and_closed (w w' : world) : Prop :=
  w_log w' = w_log w
  ∨ ∃ id, w_log w' = w_log w ++ [Ev_fopen id; Ev_fclose id]
          ∨ w_log w' = w_log w ++ [Ev_opendir id; Ev_closedir id].

(** The handler cannot queue a reply: no response object is to be had,
    or the connection has a reply already. *)
Definition cannot_reply (conn : nat) (w : world) : Prop :=
  mhd_alloc (w_env w) = false ∨ is_Some (w_queued w !! conn).

(** One reply is queued on the connection, with one of the given
    statuses, and the connection alone refers to it. *)
Definition replied (conn : nat) (statuses : list Z) (w' : world) : Prop :=
  ∃ st r, queued conn w' = Some (st, r) ∧ r_refs r = 1%nat ∧ st ∈ statuses.



(** A comparison of strings that orders them: zero on equal strings
    only, of opposite signs when its arguments are exchanged, and
    transitive. *)
Record strict_order (lc : string → string → Z) : Prop := {
  ord_eq : ∀ a b, lc a b = 0 → a = b;
  ord_opp : ∀ a b, lc a b < 0 ↔ 0 < lc b a;
  ord_trans : ∀ a b c, lc a b < 0 → lc b c < 0 → lc a c < 0
}.

(** [a] is not after [b] in a list sorted by mode, then by name. *)
Definition mode_then_name (lc : string → string → Z)
    (a b : ApiClient.DirectoryListing) : Prop :=
  lc (ApiClient.mode a) (ApiClient.mode b) < 0
  ∨ (ApiClient.mode a = ApiClient.mode b
     ∧ lc (ApiClient.name a) (ApiClient.name b) <= 0).

(** [new DirectoryListing(entry.name, entry.mode)] *)
Definition of_entry (e : ApiClient.entry) : ApiClient.DirectoryListing :=
  {| ApiClient.name := ApiClient.entry_name e;
     ApiClient.mode := ApiClient.entry_mode e |}.

(** The entries a listing shows: all but [.] and [..]. *)
Definition listed (e : ApiClient.entry) : Prop :=
  ApiClient.entry_name e ≠ "." ∧ ApiClient.entry_name e ≠ "..".

Global Instance listed_dec e : Decision (listed e).
Proof. unfold listed. apply _. Defined.

(** The order of the bytes, as a comparison. *)
Definition byte_order (a b : string) : Z :=
  match String.compare a b with
  | Eq => 0
  | Lt => -1
  | Gt => 1
  end.

(** What a computation that serves a request yields in [w]: [v] is
    [None] when it is undefined; otherwise it returns [v], leaves the
    environment as it was and the connection without a reply. *)
Definition serves (conn : nat) (m : M (Z * option reply)) (w : world)
    (v : option (Z * option reply)) : Prop :=
  match v with
  | None => m w = None
  | Some out => ∃ w', m w = Some (out, w') ∧ w_env w' = w_env w
                      ∧ w_queued w' !! conn = None
  end.

(** The machine of section 10 after [a.txt] was cut to five bytes, when
    [stat] still reports the twelve of before. *)
Definition demo_env_cut : env := {|
  PATH_MAX := PATH_MAX demo_env;
  PAGE_SIZE := PAGE_SIZE demo_env;
  fs_stat := fs_stat demo_env;
  fs_fopen := λ p,
    if String.eqb p "/tmp/x/a.txt"
    then Some {| f_data := C.bytes "hello"; f_seekable := true;
                 f_fault := None; f_pos := 0; f_err := false |}
    else None;
  fs_opendir := fs_opendir demo_env;
  mhd_alloc := true
|}.

(** What a server that answers the listing request with JSON could send
    for [/tmp/x/]. *)
Definition demo_listing : list ApiClient.entry :=
  [ {| ApiClient.entry_name := "b.txt"; ApiClient.entry_mode := "-" |};
    {| ApiClient.entry_name := "."; ApiClient.entry_mode := "d" |};
    {| ApiClient.entry_name := "sub"; ApiClient.entry_mode := "d" |};
    {| ApiClient.entry_name := ".."; ApiClient.entry_mode := "d" |};
    {| ApiClient.entry_name := "a.txt"; ApiClient.entry_mode := "-" |} ].

Definition demo_response : ApiClient.Response :=
  {| ApiClient.ok := true; ApiClient.status := 200;
     ApiClient.json := Js.Fulfilled demo_listing;
     ApiClient.text := Js.Rejected "not read";
     ApiClient.body := None |}.

(** A page served from [http://ps5:8080] whose only reachable resource
    is that listing; strings are compared byte by byte. *)
Definition demo_browser : ApiClient.browser :=
  {| ApiClient.origin := "http://ps5:8080";
     ApiClient.fetch := λ url,
       if String.eqb url "http://ps5:8080/fs/tmp/x/?fmt=json"
       then Js.Fulfilled demo_response
       else Js.Rejected "NetworkError";
     ApiClient.localeCompare := byte_order;
     ApiClient.toString := λ _, EmptyString |}.

(** A world in which connection 0 already has a reply, the 404 page. *)
Definition demo_busy : world :=
  World demo_env ∅ ∅ ∅
        {[ 5%nat := page_404_response; 6%nat := redirect_response "/tmp/x" ]}
        {[ 0%nat := (MHD_HTTP_NOT_FOUND, 5%nat) ]} 7%nat [].

(** ** 13. Proofs *)

(** Worlds are reduced by computing the updates and the projections. *)
Ltac red_world :=
  cbn [w_env w_files w_dirs w_frames w_resps w_queued w_fresh w_log
       set_files set_dirs set_frames set_resps set_queued bump_fresh
       log_event r_content r_headers r_refs fst snd negb andb orb].

Tactic Notation "red_world" "in" hyp(H) :=
  cbn [w_env w_files w_dirs w_frames w_resps w_queued w_fresh w_log
       set_files set_dirs set_frames set_resps set_queued bump_fresh
       log_event r_content r_headers r_refs fst snd negb andb orb] in H.

Ltac unfold_M :=
  unfold mbind, M_bind, mret, M_ret, get_world, modify, fresh, ask,
    undefined; red_world.

(** Projections of an updated world. *)
Lemma frames_set_frames g w : w_frames (set_frames g w) = g (w_frames w).
Proof. by destruct w. Qed.

Lemma dirs_set_dirs g w : w_dirs (set_dirs g w) = g (w_dirs w).
Proof. by destruct w. Qed.

Lemma files_set_files g w : w_files (set_files g w) = g (w_files w).
Proof. by destruct w. Qed.

Lemma frames_set_dirs g w : w_frames (set_dirs g w) = w_frames w.
Proof. by destruct w. Qed.

Lemma dirs_set_frames g w : w_dirs (set_frames g w) = w_dirs w.
Proof. by destruct w. Qed.

Lemma bytes_app (a b : string) : C.bytes (a +:+ b) = C.bytes a ++ C.bytes b.
Proof. induction a as [|c a IH]; simpl; [done|]. unfold C.bytes in *. simpl. by rewrite IH. Qed.

Lemma length_bytes (s : string) : length (C.bytes s) = String.length s.
Proof. induction s as [|c s IH]; simpl; [done|]. unfold C.bytes in *; simpl. by rewrite IH. Qed.

Lemma strlen_app (a b : string) :
  C.strlen (a +:+ b) = C.strlen a + C.strlen b.
Proof.
  unfold C.strlen. rewrite <- !length_bytes, bytes_app, length_app. lia.
Qed.

(** Paths that end in a separator. *)
Lemma last_is_slash_cons (c c' : ascii) (p : string) :
  last_is_slash (String c (String c' p)) = last_is_slash (String c' p).
Proof.
  unfold last_is_slash, C.char_at, C.strlen. cbn [String.length].
  replace (Z.to_nat (Z.of_nat (S (S (String.length p))) - 1))
    with (S (String.length p)) by lia.
  replace (Z.to_nat (Z.of_nat (S (String.length p)) - 1))
    with (String.length p) by lia.
  done.
Qed.

Lemma last_is_slash_inv (p : string) :
  last_is_slash p = true → ∃ q, p = q +:+ "/".
Proof.
  induction p as [|c p IH]; [done|]. destruct p as [|c' p].
  - change (last_is_slash (String c EmptyString)) with (Ascii.eqb c "/").
    intros ->%Ascii.eqb_eq. by exists EmptyString.
  - rewrite last_is_slash_cons. intros [q Hq]%IH. exists (String c q).
    by rewrite Hq.
Qed.

Lemma last_is_slash_app (q : string) : last_is_slash (q +:+ "/") = true.
Proof.
  induction q as [|c q IH]; [done|]. destruct q as [|c' q]; [done|].
  change (String c (String c' q) +:+ "/")
    with (String c (String c' q +:+ "/")).
  change (String c' q +:+ "/") with (String c' (q +:+ "/")) in *.
  by rewrite last_is_slash_cons.
Qed.

Lemma no_slash_suffix (p : string) :
  last_is_slash p = false → ∀ q, p ≠ q +:+ "/".
Proof. intros Hp q ->. by rewrite last_is_slash_app in Hp. Qed.

Lemma no_trailing_slash (p : string) :
  (∀ q, p ≠ q +:+ "/") →
  (C.strlen p =? 0) || negb (last_is_slash p) = true.
Proof.
  intros Hne. destruct (last_is_slash p) eqn:E.
  - destruct (last_is_slash_inv p E) as [q ->]. by destruct (Hne q).
  - apply orb_true_r.
Qed.

Lemma to_signed_small (z : Z) : 0 <= z <= C.SSIZE_MAX → C.to_signed 64 z = z.
Proof.
  unfold C.to_signed, C.SSIZE_MAX. intros H.
  rewrite Z.mod_small; lia.
Qed.

Lemma on_dir_read_no_room (cls : ptr) (pos max : Z) (w : world) :
  max < 512 → on_dir_read cls pos max w = Some ((0, []), w).
Proof.
  intros H. unfold on_dir_read.
  destruct (max <? 512) eqn:E; [done|]. apply Z.ltb_ge in E. lia.
Qed.

(** C6: a call of the directory read callback that offers less than 512
    bytes returns 0, stores nothing and leaves the whole world as it was:
    the closure (phase, directory handle, path) and the position in the
    directory are untouched, whatever the phase, Done included, and
    whatever the closure points to. *)
Theorem on_dir_read_small_buffer (cls : ptr) (pos max : Z) (w : world) :
  max < 512 → on_dir_read cls pos max w = Some ((0, []), w).
Proof. apply on_dir_read_no_room. Qed.

Lemma on_dir_read_small_buffer_witness :
  on_dir_read (SmPtr 0) 0 511 (demo_stream 3 "/tmp/x/" demo_entries)
  = Some ((0, []), demo_stream 3 "/tmp/x/" demo_entries).
Proof.
  apply (on_dir_read_small_buffer (SmPtr 0) 0 511
           (demo_stream 3 "/tmp/x/" demo_entries)).
  lia.
Defined.

Lemma read_bounds (f : FILE) (max : Z) :
  0 <= max →
  let '(n, data, f') := Libc.read f max in
  0 <= n <= max ∧ Z.of_nat (length data) <= n.
Proof.
  intros H. unfold Libc.read. simpl. split; [lia|].
  rewrite length_take. lia.
Qed.

Lemma read_length (f : FILE) (max : Z) :
  Z.of_nat (length (Libc.read f max).1.2) = (Libc.read f max).1.1.
Proof.
  unfold Libc.read; cbn [fst snd]. rewrite length_take, length_drop.
  unfold Libc.readable. destruct (f_fault f); lia.
Qed.

Lemma on_file_read_spec (w : world) (id : nat) (f : FILE) (pos max : Z) :
  w_files w !! id = Some f →
  on_file_read (FilePtr id) pos max w =
    match Libc.seek_set f (C.to_long pos) with
    | None => Some ((MHD_CONTENT_READER_END_WITH_ERROR, []), w)
    | Some f1 =>
        let r := Libc.read f1 max in
        Some ((if r.1.1 =? 0
               then if f_err r.2 then MHD_CONTENT_READER_END_WITH_ERROR
                    else MHD_CONTENT_READER_END_OF_STREAM
               else C.to_ssize_t r.1.1, r.1.2),
              set_files <[id := r.2]> w)
    end.
Proof.
  intros Hf. destruct w as [e fl dr fr rs q nx lg]. red_world in Hf.
  unfold on_file_read, Libc.fseek, Libc.fread, Libc.ferror, Libc.with_file.
  unfold_M. rewrite Hf.
  destruct (Libc.seek_set f (C.to_long pos)) as [f1|] eqn:Hseek; red_world;
    [|done].
  rewrite Z.eqb_refl; red_world. rewrite lookup_insert_eq.
  destruct (Libc.read f1 max) as [[n data] f2] eqn:Hrd. red_world.
  destruct (n =? 0) eqn:Hn; red_world; rewrite insert_insert_eq; [|done].
  rewrite lookup_insert_eq. by destruct (f_err f2).
Qed.

(** C7: the file read callback.  A seek that fails yields the error
    value.  Otherwise, when [fread] hands over no byte, the result is the
    error value if the error indicator of the stream is set and the
    end-of-stream value if it is not; when it hands over [n > 0] bytes,
    the result is [n], those [n] bytes are in the buffer, and [n] is at
    most the room [max] that was offered. *)
Theorem on_file_read_cases (w : world) (id : nat) (f : FILE) (pos max : Z) :
  w_files w !! id = Some f →
  0 <= max <= C.SSIZE_MAX →
  match Libc.seek_set f (C.to_long pos) with
  | None =>
      on_file_read (FilePtr id) pos max w
      = Some ((MHD_CONTENT_READER_END_WITH_ERROR, []), w)
  | Some f1 =>
      let '(n, data, f2) := Libc.read f1 max in
      let w' := set_files <[id := f2]> w in
      if n =? 0 then
        on_file_read (FilePtr id) pos max w
        = Some ((if f_err f2 then MHD_CONTENT_READER_END_WITH_ERROR
                 else MHD_CONTENT_READER_END_OF_STREAM, []), w')
      else
        on_file_read (FilePtr id) pos max w = Some ((n, data), w')
        ∧ 0 < n <= max ∧ Z.of_nat (length data) = n
  end.
Proof.
  intros Hf Hmax. rewrite (on_file_read_spec w id f pos max Hf).
  destruct (Libc.seek_set f (C.to_long pos)) as [f1|]; [|done].
  pose proof (read_bounds f1 max (proj1 Hmax)) as Hb.
  pose proof (read_length f1 max) as Hlen.
  destruct (Libc.read f1 max) as [[n data] f2]. cbn [fst snd] in *. cbv zeta.
  destruct (Z.eqb_spec n 0) as [->|Hn].
  - by assert (data = []) as -> by (destruct data; simpl in *; [done|lia]).
  - unfold C.to_ssize_t. rewrite to_signed_small by lia.
    split; [done|]. split; [lia|done].
Qed.

(** *** The directory reader, one call *)

Lemma hidden_char_at (e : dirent) :
  Ascii.eqb (C.char_at (d_name e) 0) "." = hidden e.
Proof.
  unfold hidden, C.char_at. destruct (d_name e) as [|c n]; [done|].
  cbn [Z.to_nat String.get].
  destruct (Ascii.eqb_spec c "."%char) as [->|Hc]; [done|].
  destruct c as [[] [] [] [] [] [] [] []]; try done.
Qed.

Lemma on_dir_read_spec (w : world) (a : nat) (s : dir_read_sm) (pos max : Z) :
  w_frames w !! a = Some s →
  512 <= max →
  on_dir_read (SmPtr a) pos max w =
    if state s =? 0 then
      Some (C.snprintf max (listing_header (path s)),
            set_frames <[a := next_state s]> w)
    else if state s =? 1 then
      match dir s with
      | DirPtr d =>
          match w_dirs w !! d with
          | Some [] => Some ((0, []), set_frames <[a := next_state s]> w)
          | Some (e :: es) =>
              Some (if hidden e then (0, [])
                    else C.snprintf max (listing_item (d_name e)),
                    set_dirs <[d := es]> w)
          | None => None
          end
      | _ => None
      end
    else if state s =? 2 then
      Some (C.snprintf max listing_footer,
            set_frames <[a := next_state s]> w)
    else Some ((MHD_CONTENT_READER_END_OF_STREAM, []), w).
Proof.
  intros Hs Hmax. destruct w as [e fl dr fr rs q nx lg]. red_world in Hs.
  unfold on_dir_read, incr_state, load_sm, store_sm, Libc.readdir,
    Libc.with_dir.
  destruct (max <? 512) eqn:E; [apply Z.ltb_lt in E; lia|].
  unfold_M. rewrite Hs.
  destruct (state s =? 0); [by repeat (red_world; rewrite ?Hs)|].
  destruct (state s =? 1).
  { destruct (dir s) as [| | d | |]; try done.
    red_world. destruct (dr !! d) as [[|e1 es]|]; try done;
      repeat (red_world; rewrite ?Hs); [done|].
    rewrite hidden_char_at. by destruct (hidden e1). }
  destruct (state s =? 2); [by repeat (red_world; rewrite ?Hs)|].
  done.
Qed.

(** *** The phases across calls *)

Lemma phase_of_range (st : Z) : is_Some (phase_of st) ↔ 0 <= st <= 3.
Proof.
  unfold phase_of. split.
  - intros [p Hp]. repeat case_match; lia || done.
  - intros H.
    assert (st = 0 ∨ st = 1 ∨ st = 2 ∨ st = 3) as [-> | [-> | [-> | ->]]] by lia;
      by eexists.
Qed.

Lemma phase_of_done (st : Z) : phase_of st = Some Done ↔ st = 3.
Proof.
  unfold phase_of. split.
  - intros H. repeat case_match; lia || done.
  - by intros ->.
Qed.

(** One call keeps the stream in order and moves it by at most a phase. *)
Lemma on_dir_read_step (w : world) (a : nat) (s : dir_read_sm) (pos max : Z) :
  stream_ok w a s →
  ∃ n buf w' s',
    on_dir_read (SmPtr a) pos max w = Some ((n, buf), w')
    ∧ stream_ok w' a s'
    ∧ path s' = path s ∧ dir s' = dir s
    ∧ state s <= state s' <= state s + 1
    ∧ (state s = 3 → state s' = 3)
    ∧ (state s = 3 → 512 <= max → n = MHD_CONTENT_READER_END_OF_STREAM)
    ∧ (max < 512 → n = 0 ∧ w' = w).
Proof.
  intros (Hs & Hst & d & es & Hd & Hes).
  destruct (Z.lt_ge_cases max 512) as [Hsmall|Hbig].
  { exists 0, [], w, s. rewrite on_dir_read_no_room by done.
    repeat split; try done; try lia. by exists d, es. }
  rewrite (on_dir_read_spec w a s pos max Hs Hbig).
  assert (Hnext : stream_ok (set_frames <[a:=next_state s]> w) a
                    (next_state s) ∨ 3 <= state s).
  { destruct (Z.le_gt_cases 3 (state s)); [by right|left].
    split; [rewrite frames_set_frames; apply lookup_insert_eq|].
    split; [cbn [state next_state]; lia|].
    exists d, es. by rewrite dirs_set_frames. }
  destruct (state s =? 0) eqn:E0.
  { apply Z.eqb_eq in E0. destruct Hnext as [Hnext|]; [|lia].
    destruct (C.snprintf max (listing_header (path s))) as [n buf].
    exists n, buf, (set_frames <[a:=next_state s]> w), (next_state s).
    repeat split; try done; cbn [state next_state]; try lia;
      by destruct Hnext as (? & ? & ?). }
  destruct (state s =? 1) eqn:E1.
  { apply Z.eqb_eq in E1. rewrite Hd, Hes. destruct es as [|e1 es].
    - destruct Hnext as [Hnext|]; [|lia].
      exists 0, [], (set_frames <[a:=next_state s]> w), (next_state s).
      repeat split; try done; cbn [state next_state]; try lia;
        by destruct Hnext as (? & ? & ?).
    - destruct (if hidden e1 then (0, [])
                else C.snprintf max (listing_item (d_name e1))) as [n buf].
      exists n, buf, (set_dirs <[d:=es]> w), s.
      repeat split; try done; try lia.
      + by rewrite frames_set_dirs.
      + exists d, es. split; [done|].
        rewrite dirs_set_dirs. apply lookup_insert_eq. }
  destruct (state s =? 2) eqn:E2.
  { apply Z.eqb_eq in E2. destruct Hnext as [Hnext|]; [|lia].
    destruct (C.snprintf max listing_footer) as [n buf].
    exists n, buf, (set_frames <[a:=next_state s]> w), (next_state s).
    repeat split; try done; cbn [state next_state]; try lia;
      by destruct Hnext as (? & ? & ?). }
  apply Z.eqb_neq in E0, E1, E2.
  exists MHD_CONTENT_READER_END_OF_STREAM, [], w, s.
  repeat split; try done; try lia. by exists d, es.
Qed.

Lemma dir_read_calls_phased (calls : list (Z * Z)) (w : world) (a : nat)
    (s : dir_read_sm) :
  stream_ok w a s →
  ∃ tr w', dir_read_calls (SmPtr a) calls w = Some (tr, w')
           ∧ well_phased (state s) calls tr.
Proof.
  revert w s. induction calls as [|[pos max] calls IH]; intros w s Hok.
  { by exists [], w. }
  destruct (on_dir_read_step w a s pos max Hok)
    as (n & buf & w1 & s1 & Hrun & Hok1 & _ & _ & Hmono & Hstay & Heos & _).
  destruct (IH w1 s1 Hok1) as (tr & w2 & Hrest & Htr).
  exists ((state s1, n) :: tr), w2. split.
  - cbn [dir_read_calls]. unfold mbind, M_bind at 1. rewrite Hrun.
    unfold mbind, M_bind at 1. unfold load_sm at 1.
    unfold mbind, M_bind at 1. unfold get_world at 1.
    destruct Hok1 as (Hs1 & _). rewrite Hs1.
    unfold mret at 1, M_ret at 1.
    unfold mbind, M_bind at 1. rewrite Hrest. done.
  - cbn [well_phased]. destruct Hok1 as (_ & Hr & _).
    split; [by apply phase_of_range|]. split; [done|].
    split; [intros Hd%phase_of_done; rewrite Hstay; lia|].
    split; [intros Hd%phase_of_done; auto|]. done.
Qed.

(** C5, amended: the phase field only ever holds Header, Entries, Footer
    or Done; from one call of the read callback to the next it never goes
    back and moves forward by at most one phase; once it is Done it stays
    Done, and every later call that offers at least 512 bytes signals the
    end of the stream (a call that offers less returns 0 like in any
    other phase).  Every run of calls returns. *)
Theorem dir_phase_progress (w : world) (a d : nat) (p : string)
    (es : list dirent) (calls : list (Z * Z)) :
  fresh_stream w a d p es →
  ∃ tr w', dir_read_calls (SmPtr a) calls w = Some (tr, w')
           ∧ well_phased 0 calls tr.
Proof.
  intros [Hs Hd].
  apply (dir_read_calls_phased calls w a
           {| path := p; dir := DirPtr d; state := 0 |}).
  split; [done|]. split; [cbn; lia|]. by exists d, es.
Qed.

(** *** The listing as a whole *)

Lemma snprintf_fits (max : Z) (s : string) :
  fits max s →
  C.snprintf max s = (C.strlen s, C.bytes s ++ [C.NUL]).
Proof.
  intros [Hlt Hint]. unfold C.snprintf, C.strlen in *.
  destruct (Z.leb_spec (Z.of_nat (String.length s)) C.INT_MAX); [|lia].
  destruct (Z.ltb_spec 0 max); [|lia].
  rewrite take_ge; [done|]. rewrite length_bytes. lia.
Qed.

Lemma take_strlen_bytes (s : string) (k : list ascii) :
  take (Z.to_nat (C.strlen s)) (C.bytes s ++ k) = C.bytes s.
Proof.
  unfold C.strlen. rewrite Nat2Z.id, <- length_bytes. apply take_app_length.
Qed.

Lemma concat_empty_cons (x : string) (l : list string) :
  String.concat EmptyString (x :: l) = x +:+ String.concat EmptyString l.
Proof.
  destruct l as [|y l]; cbn [String.concat]; [|done].
  induction x as [|c x IH]; [done|].
  change (String c x +:+ EmptyString) with (String c (x +:+ EmptyString)).
  congruence.
Qed.

Lemma items_cons (e : dirent) (es : list dirent) :
  items (e :: es) =
    if hidden e then items es else listing_item (d_name e) +:+ items es.
Proof.
  unfold items. rewrite filter_cons. destruct (hidden e) eqn:E.
  - by rewrite decide_False.
  - rewrite decide_True by done. cbn [map]. apply concat_empty_cons.
Qed.

Lemma pull_unknown_step (crc : crc_fn) (cls : ptr) (cap : Z) (caps : list Z)
    (pos : Z) (sent : list ascii) (w : world) :
  pull crc cls MHD_SIZE_UNKNOWN (cap :: caps) pos sent w =
    match call_crc crc cls pos cap w with
    | Some ((n, buf), w1) =>
        if n =? MHD_CONTENT_READER_END_OF_STREAM then
          Some ((Completed, sent), w1)
        else if (n <? 0) || (cap <? n) then Some ((Failed, sent), w1)
        else pull crc cls MHD_SIZE_UNKNOWN caps (pos + n)
               (sent ++ take (Z.to_nat n) buf) w1
    | None => None
    end.
Proof.
  cbn [pull]. change (MHD_SIZE_UNKNOWN =? MHD_SIZE_UNKNOWN) with true.
  cbn [negb andb]. unfold mbind, M_bind at 1.
  destruct (call_crc crc cls pos cap w) as [[[n buf] w1]|]; [|done].
  by repeat case_match.
Qed.

Lemma pull_accepts (crc : crc_fn) (cls : ptr) (cap : Z) (caps : list Z)
    (pos : Z) (sent : list ascii) (w w1 : world) (n : Z) (buf : list ascii) :
  call_crc crc cls pos cap w = Some ((n, buf), w1) →
  0 <= n <= cap →
  pull crc cls MHD_SIZE_UNKNOWN (cap :: caps) pos sent w =
    pull crc cls MHD_SIZE_UNKNOWN caps (pos + n)
      (sent ++ take (Z.to_nat n) buf) w1.
Proof.
  intros Hcall Hn. rewrite pull_unknown_step, Hcall.
  destruct (Z.eqb_spec n MHD_CONTENT_READER_END_OF_STREAM) as [E|_];
    [unfold MHD_CONTENT_READER_END_OF_STREAM in E; lia|].
  destruct (Z.ltb_spec n 0); [lia|]. destruct (Z.ltb_spec cap n); [lia|].
  done.
Qed.

Lemma pull_ends (crc : crc_fn) (cls : ptr) (cap : Z) (caps : list Z)
    (pos : Z) (sent : list ascii) (w w1 : world) (buf : list ascii) :
  call_crc crc cls pos cap w
    = Some ((MHD_CONTENT_READER_END_OF_STREAM, buf), w1) →
  pull crc cls MHD_SIZE_UNKNOWN (cap :: caps) pos sent w
    = Some ((Completed, sent), w1).
Proof. intros Hcall. by rewrite pull_unknown_step, Hcall. Qed.

Section dir_read_cases.
Context (w : world) (a : nat) (s : dir_read_sm) (pos max : Z).
Hypothesis Hs : w_frames w !! a = Some s.
Hypothesis Hmax : 512 <= max.

Lemma on_dir_read_header :
  state s = 0 →
  on_dir_read (SmPtr a) pos max w
  = Some (C.snprintf max (listing_header (path s)),
          set_frames <[a := next_state s]> w).
Proof. intros E. by rewrite (on_dir_read_spec w a s pos max Hs Hmax), E. Qed.

Lemma on_dir_read_no_more (d : nat) :
  state s = 1 → dir s = DirPtr d → w_dirs w !! d = Some [] →
  on_dir_read (SmPtr a) pos max w
  = Some ((0, []), set_frames <[a := next_state s]> w).
Proof.
  intros E Hd Hes.
  by rewrite (on_dir_read_spec w a s pos max Hs Hmax), E, Hd, Hes.
Qed.

Lemma on_dir_read_entry (d : nat) (e : dirent) (es : list dirent) :
  state s = 1 → dir s = DirPtr d → w_dirs w !! d = Some (e :: es) →
  on_dir_read (SmPtr a) pos max w
  = Some (if hidden e then (0, [])
          else C.snprintf max (listing_item (d_name e)),
          set_dirs <[d := es]> w).
Proof.
  intros E Hd Hes.
  by rewrite (on_dir_read_spec w a s pos max Hs Hmax), E, Hd, Hes.
Qed.

Lemma on_dir_read_footer :
  state s = 2 →
  on_dir_read (SmPtr a) pos max w
  = Some (C.snprintf max listing_footer,
          set_frames <[a := next_state s]> w).
Proof. intros E. by rewrite (on_dir_read_spec w a s pos max Hs Hmax), E. Qed.

Lemma on_dir_read_done :
  state s = 3 →
  on_dir_read (SmPtr a) pos max w
  = Some ((MHD_CONTENT_READER_END_OF_STREAM, []), w).
Proof. intros E. by rewrite (on_dir_read_spec w a s pos max Hs Hmax), E. Qed.
End dir_read_cases.

Lemma footer_fits (cap : Z) : 512 <= cap → fits cap listing_footer.
Proof. intros H. unfold fits. vm_compute C.strlen. unfold C.INT_MAX. lia. Qed.

Lemma strlen_range (cap : Z) (s : string) :
  fits cap s → 0 <= C.strlen s <= cap.
Proof. intros [H _]. unfold C.strlen in *. lia. Qed.

Lemma pull_entries (a d : nat) (es : list dirent) :
  ∀ (caps : list Z) (w : world) (s : dir_read_sm) (pos : Z)
    (sent : list ascii),
    w_frames w !! a = Some s → state s = 1 → dir s = DirPtr d →
    w_dirs w !! d = Some es →
    (∀ cap, cap ∈ caps → 512 <= cap) →
    (∀ cap e, cap ∈ caps → e ∈ es → hidden e = false →
              fits cap (listing_item (d_name e))) →
    (length es + 3 <= length caps)%nat →
    ∃ w', pull Fn_on_dir_read (SmPtr a) MHD_SIZE_UNKNOWN caps pos sent w
          = Some ((Completed,
                   sent ++ C.bytes (items es) ++ C.bytes listing_footer), w').
Proof.
  induction es as [|e es IH]; intros caps w s pos sent Hs Hst Hd Hes Hcap Hfit Hlen.
  - destruct caps as [|c1 [|c2 [|c3 caps]]]; cbn [length] in Hlen; try lia.
    assert (H1 : 512 <= c1) by (apply Hcap; set_solver).
    assert (H2 : 512 <= c2) by (apply Hcap; set_solver).
    assert (H3 : 512 <= c3) by (apply Hcap; set_solver).
    (* end of the directory *)
    rewrite (pull_accepts Fn_on_dir_read _ _ _ _ _ _ _ _ _
               (on_dir_read_no_more w a s pos c1 Hs H1 d Hst Hd Hes)) by lia.
    cbn [Z.to_nat take]. rewrite app_nil_r.
    (* the footer *)
    set (w1 := set_frames <[a:=next_state s]> w).
    assert (Hs1 : w_frames w1 !! a = Some (next_state s))
      by (unfold w1; rewrite frames_set_frames; apply lookup_insert_eq).
    assert (Hst1 : state (next_state s) = 2) by (cbn [state next_state]; lia).
    pose proof (on_dir_read_footer w1 a _ (pos + 0) c2 Hs1 H2 Hst1) as Hcall.
    rewrite (snprintf_fits c2 _ (footer_fits c2 H2)) in Hcall.
    rewrite (pull_accepts Fn_on_dir_read _ _ _ _ _ _ _ _ _ Hcall)
      by (apply strlen_range, footer_fits, H2).
    rewrite take_strlen_bytes.
    (* the end of the stream *)
    set (w2 := set_frames <[a:=next_state (next_state s)]> w1).
    assert (Hs2 : w_frames w2 !! a = Some (next_state (next_state s)))
      by (unfold w2; rewrite frames_set_frames; apply lookup_insert_eq).
    assert (Hst2 : state (next_state (next_state s)) = 3)
      by (cbn [state next_state]; lia).
    rewrite (pull_ends Fn_on_dir_read _ _ _ _ _ _ _ _
               (on_dir_read_done w2 a _ _ c3 Hs2 H3 Hst2)).
    by exists w2.
  - destruct caps as [|c1 caps]; cbn [length] in Hlen; [lia|].
    assert (H1 : 512 <= c1) by (apply Hcap; set_solver).
    set (w1 := set_dirs <[d:=es]> w).
    assert (Hs1 : w_frames w1 !! a = Some s)
      by (unfold w1; by rewrite frames_set_dirs).
    assert (Hes1 : w_dirs w1 !! d = Some es)
      by (unfold w1; rewrite dirs_set_dirs; apply lookup_insert_eq).
    assert (Hcap' : ∀ cap, cap ∈ caps → 512 <= cap)
      by (intros; apply Hcap; set_solver).
    assert (Hfit' : ∀ cap e0, cap ∈ caps → e0 ∈ es → hidden e0 = false →
                              fits cap (listing_item (d_name e0)))
      by (intros; apply Hfit; set_solver).
    pose proof (on_dir_read_entry w a s pos c1 Hs H1 d e es Hst Hd Hes) as Hcall.
    rewrite items_cons. destruct (hidden e) eqn:Hh.
    + rewrite (pull_accepts Fn_on_dir_read _ _ _ _ _ _ _ _ _ Hcall) by lia.
      cbn [Z.to_nat take]. rewrite app_nil_r.
      apply (IH caps w1 s _ sent Hs1 Hst Hd Hes1 Hcap' Hfit'). lia.
    + assert (Hf : fits c1 (listing_item (d_name e)))
        by (apply Hfit; [set_solver|set_solver|done]).
      rewrite (snprintf_fits c1 _ Hf) in Hcall.
      rewrite (pull_accepts Fn_on_dir_read _ _ _ _ _ _ _ _ _ Hcall)
        by (apply strlen_range, Hf).
      rewrite take_strlen_bytes.
      destruct (IH caps w1 s (pos + C.strlen (listing_item (d_name e)))
                  (sent ++ C.bytes (listing_item (d_name e)))
                  Hs1 Hst Hd Hes1 Hcap' Hfit') as [w' Hw']; [lia|].
      exists w'. unfold w1 in Hw'. rewrite Hw'.
      by rewrite bytes_app, <- !app_assoc.
Qed.

(** C2, amended: when the read callback is driven from the state
    [on_dir_request] sets up (phase Header, the open directory, the
    path), with at least 512 bytes of room on every call and room for
    each piece of text, the stream completes and its body is exactly the
    header as the format string spells it (with the blanks before
    [<head>], [<title>], [</head>], [<body>], [<h1>] and [<ul>]), then one
    [<li><a href=...>...</a></li>] per entry whose name does not begin
    with a dot, in directory order and with the raw name as href and
    text, then [</ul></body></html>]. *)
Theorem dir_listing_streamed (w : world) (a d : nat) (p : string)
    (es : list dirent) (caps : list Z) :
  fresh_stream w a d p es →
  (∀ cap, cap ∈ caps → 512 <= cap) →
  (∀ cap, cap ∈ caps → fits cap (listing_header p)) →
  (∀ cap e, cap ∈ caps → e ∈ es → hidden e = false →
            fits cap (listing_item (d_name e))) →
  (length es + 4 <= length caps)%nat →
  ∃ w', pull Fn_on_dir_read (SmPtr a) MHD_SIZE_UNKNOWN caps 0 [] w
        = Some ((Completed, C.bytes (listing p es)), w').
Proof.
  intros [Hs Hes] Hcap Hhdr Hfit Hlen.
  destruct caps as [|c0 caps]; cbn [length] in Hlen; [lia|].
  assert (H0 : 512 <= c0) by (apply Hcap; set_solver).
  assert (Hf0 : fits c0 (listing_header p)) by (apply Hhdr; set_solver).
  pose proof (on_dir_read_header w a _ 0 c0 Hs H0 eq_refl) as Hcall.
  cbn [path] in Hcall. rewrite (snprintf_fits c0 _ Hf0) in Hcall.
  rewrite (pull_accepts Fn_on_dir_read _ _ _ _ _ _ _ _ _ Hcall)
    by (apply strlen_range, Hf0).
  rewrite take_strlen_bytes. cbn [app].
  set (s1 := next_state {| path := p; dir := DirPtr d; state := 0 |}).
  set (w1 := set_frames <[a:=s1]> w).
  destruct (pull_entries a d es caps w1 s1 (0 + C.strlen (listing_header p))
              (C.bytes (listing_header p))) as [w' Hw']; try done.
  - unfold w1. rewrite frames_set_frames. apply lookup_insert_eq.
  - unfold w1. by rewrite dirs_set_frames.
  - intros; apply Hcap; set_solver.
  - intros; apply Hfit; set_solver.
  - lia.
  - exists w'. rewrite Hw'. unfold listing.
    by rewrite !bytes_app.
Qed.

(** C2, as stated, fails: for [/tmp/x/] the stream completes with the
    listing the code renders, which is not the specified one: its header
    has blanks the specified header has not, and its items leave out
    [.profile], which the specified items keep.  And when a piece does
    not fit the room offered, here the header of a 205-character path in
    512 bytes, the stream fails before any byte. *)
Lemma listing_not_as_specified :
  fst <$> pull Fn_on_dir_read (SmPtr 0) MHD_SIZE_UNKNOWN
            (replicate 10 1024) 0 [] (demo_stream 0 "/tmp/x/" demo_entries)
  = Some (Completed, C.bytes (listing "/tmp/x/" demo_entries))
  ∧ C.bytes (listing "/tmp/x/" demo_entries)
    ≠ C.bytes (spec_listing "/tmp/x/" demo_entries)
  ∧ listing_header "/tmp/x/" ≠ spec_header "/tmp/x/"
  ∧ items demo_entries ≠ spec_items demo_entries
  ∧ fst <$> pull Fn_on_dir_read (SmPtr 0) MHD_SIZE_UNKNOWN
              (replicate 10 512) 0 [] (demo_stream 0 long_path demo_entries)
    = Some (Failed, []).
Proof.
  split; [vm_compute; reflexivity|].
  split; [vm_compute; discriminate|].
  split; [vm_compute; discriminate|].
  split; [vm_compute; discriminate|].
  vm_compute; reflexivity.
Qed.

(** C5, as stated, fails: in phase Done a call that offers 100 bytes
    returns 0, not the end-of-stream value. *)
Lemma done_small_buffer_not_eos :
  phase_of 3 = Some Done
  ∧ on_dir_read (SmPtr 0) 0 100 (demo_stream 3 "/tmp/x/" [])
    = Some ((0, []), demo_stream 3 "/tmp/x/" [])
  ∧ 0 ≠ MHD_CONTENT_READER_END_OF_STREAM.
Proof. repeat split; done. Qed.

(** Replace the length of every literal by its value. *)
Ltac literal_lengths v :=
  repeat match goal with
  | |- context [C.strlen ?s] =>
      lazymatch s with
      | v => fail
      | _ => let n := eval vm_compute in (C.strlen s) in
             change (C.strlen s) with n
      end
  end.

Lemma strlen_listing_header (p : string) :
  C.strlen (listing_header p) = 104 + 2 * C.strlen p.
Proof.
  unfold listing_header. rewrite !strlen_app. literal_lengths p. lia.
Qed.

Lemma strlen_listing_item (n : string) :
  C.strlen (listing_item n) = 24 + 2 * C.strlen n.
Proof.
  unfold listing_item, dquote. rewrite !strlen_app. literal_lengths n. lia.
Qed.

Lemma snprintf_unclamped (max : Z) (s : string) :
  0 < max → C.strlen s <= C.INT_MAX →
  (C.snprintf max s).1 = C.strlen s
  ∧ Z.of_nat (length (C.snprintf max s).2) <= max.
Proof.
  intros Hmax Hint. unfold C.snprintf. cbn [fst snd].
  destruct (Z.leb_spec (C.strlen s) C.INT_MAX); [|lia].
  destruct (Z.ltb_spec 0 max); [|lia]. split; [done|].
  rewrite length_app, length_take. cbn [length]. lia.
Qed.

(** C10, where the code departs from it: with room for an emission unit
    ([max] at least 512), the callback returns the length of the whole
    text, whatever [max] is: 104 plus twice the length of the path in
    phase Header, 24 plus twice the length of the name for an entry that
    is not hidden (as long as that length fits an [int]), while at most
    [max] bytes are stored.  The result exceeds [max] as soon as the
    path or the name is long enough. *)
Theorem on_dir_read_returns_full_length (w : world) (a : nat)
    (s : dir_read_sm) (pos max : Z) :
  w_frames w !! a = Some s →
  512 <= max →
  (state s = 0 → C.strlen (listing_header (path s)) <= C.INT_MAX →
   ∃ buf w',
     on_dir_read (SmPtr a) pos max w
     = Some ((104 + 2 * C.strlen (path s), buf), w')
     ∧ Z.of_nat (length buf) <= max)
  ∧ (∀ d e es,
       state s = 1 → dir s = DirPtr d → w_dirs w !! d = Some (e :: es) →
       hidden e = false →
       C.strlen (listing_item (d_name e)) <= C.INT_MAX →
       ∃ buf w',
         on_dir_read (SmPtr a) pos max w
         = Some ((24 + 2 * C.strlen (d_name e), buf), w')
         ∧ Z.of_nat (length buf) <= max).
Proof.
  intros Hs Hmax. split.
  - intros Hst Hlen. rewrite (on_dir_read_header w a s pos max Hs Hmax Hst).
    destruct (snprintf_unclamped max (listing_header (path s)))
      as [Hres Hbuf]; [lia|done|].
    destruct (C.snprintf max (listing_header (path s))) as [n buf].
    cbn [fst snd] in *. subst n. rewrite strlen_listing_header.
    by eexists _, _.
  - intros d e es Hst Hd Hes Hvis Hlen.
    rewrite (on_dir_read_entry w a s pos max Hs Hmax d e es Hst Hd Hes), Hvis.
    destruct (snprintf_unclamped max (listing_item (d_name e)))
      as [Hres Hbuf]; [lia|done|].
    destruct (C.snprintf max (listing_item (d_name e))) as [n buf].
    cbn [fst snd] in *. subst n. rewrite strlen_listing_item.
    by eexists _, _.
Qed.

Lemma on_dir_read_returns_full_length_witness :
  ∃ buf w',
    on_dir_read (SmPtr 0) 0 512 (demo_stream 0 long_path demo_entries)
    = Some ((514, buf), w')
    ∧ Z.of_nat (length buf) <= 512.
Proof.
  apply (on_dir_read_returns_full_length
           (demo_stream 0 long_path demo_entries) 0
           {| path := long_path; dir := DirPtr 1; state := 0 |} 0 512).
  - reflexivity.
  - lia.
  - reflexivity.
  - vm_compute. discriminate.
Defined.

(** With 512 bytes of room, the header of a 205-character path makes the
    callback return 514, and the item of a 255-character name makes it
    return 534, while 512 bytes (terminator included) were stored. *)
Lemma on_dir_read_returns_more_than_max :
  (λ r, (r.1.1, length r.1.2)) <$>
    on_dir_read (SmPtr 0) 0 512 (demo_stream 0 long_path demo_entries)
  = Some (514, 512%nat)
  ∧ (λ r, (r.1.1, length r.1.2)) <$>
      on_dir_read (SmPtr 0) 0 512
        (demo_stream 1 "/tmp/x/" [ {| d_name := long_name |} ])
    = Some (534, 512%nat)
  ∧ C.strlen long_path = 205 ∧ C.strlen long_name = 255.
Proof. repeat split; vm_compute; reflexivity. Qed.

(** The four kinds of response on [/tmp/x/]: the 404, the 301, the file
    and the listing are queued with their status and without any
    Access-Control-Allow-Origin header. *)
Lemma fs_replies_lack_cors_header :
  let cors := λ url,
    (λ sr, (sr.1, count_header MHD_HTTP_HEADER_ACCESS_CONTROL_ALLOW_ORIGIN sr.2))
      <$> handler_reply demo_env url in
  cors "/fs/does/not/exist" = Some (404, 0%nat)
  ∧ cors "/fs/tmp/x" = Some (301, 0%nat)
  ∧ cors "/fs/tmp/x/a.txt" = Some (200, 0%nat)
  ∧ cors "/fs/tmp/x/" = Some (200, 0%nat).
Proof. repeat split; vm_compute; reflexivity. Qed.

(** X1: the decorator itself does its part: it adds one
    Access-Control-Allow-Origin header, after those the response has,
    and queues the response. *)
Lemma websrv_queue_response_decorates (w : world) (conn id : nat)
    (status : Z) (r : MHD_Response) :
  w_resps w !! id = Some r →
  w_queued w !! conn = None →
  ∃ w', websrv_queue_response conn status (RespPtr id) w = Some (MHD_YES, w')
        ∧ queued conn w'
          = Some (status,
                  {| r_content := r_content r;
                     r_headers := r_headers r ++
                       [(MHD_HTTP_HEADER_ACCESS_CONTROL_ALLOW_ORIGIN, "*")];
                     r_refs := S (r_refs r) |}).
Proof.
  intros Hr Hq. destruct w as [e fl dr fr rs q nx lg]. red_world in Hr.
  red_world in Hq.
  unfold websrv_queue_response, MHD_add_response_header, MHD_queue_response,
    with_resp.
  change (header_ok MHD_HTTP_HEADER_ACCESS_CONTROL_ALLOW_ORIGIN "*")
    with true. cbn [negb].
  rewrite !decide_False by done. unfold_M. rewrite Hr. red_world.
  rewrite lookup_insert_eq. red_world. rewrite Hq. red_world.
  eexists. split; [done|]. unfold queued. red_world.
  by rewrite !lookup_insert_eq.
Qed.

Lemma websrv_queue_response_decorates_witness :
  ∃ w', websrv_queue_response 0 MHD_HTTP_NOT_FOUND (RespPtr 5) demo_unqueued
        = Some (MHD_YES, w')
        ∧ queued 0 w'
          = Some (MHD_HTTP_NOT_FOUND,
                  {| r_content := r_content page_404_response;
                     r_headers := r_headers page_404_response ++
                       [(MHD_HTTP_HEADER_ACCESS_CONTROL_ALLOW_ORIGIN, "*")];
                     r_refs := S (r_refs page_404_response) |}).
Proof.
  apply (websrv_queue_response_decorates demo_unqueued 0 5
           MHD_HTTP_NOT_FOUND page_404_response).
  - vm_compute. reflexivity.
  - vm_compute. reflexivity.
Defined.

(** *** No response of [fs.c] bears the cross-origin header *)

Section preserves.
Context (P : world → Prop).

Lemma preserves_ret {A} (x : A) : preserves P (mret x).
Proof. by intros w y w' HP [= _ <-]. Qed.

Lemma preserves_undefined {A} : preserves P (@undefined A).
Proof. by intros w y w' HP. Qed.

Lemma preserves_bind {A B} (m : M A) (f : A → M B) :
  preserves P m → (∀ x, preserves P (f x)) → preserves P (m ≫= f).
Proof.
  intros Hm Hf w y w' HP. unfold mbind, M_bind.
  destruct (m w) as [[x w1]|] eqn:E; [|done].
  intros Hrun. by eapply Hf, Hrun; eapply Hm.
Qed.

Lemma preserves_get_world : preserves P get_world.
Proof. by intros w y w' HP [= _ <-]. Qed.

Lemma preserves_ask {A} (f : env → A) : preserves P (ask f).
Proof. by intros w y w' HP [= _ <-]. Qed.

Lemma preserves_modify (g : world → world) :
  (∀ w, P w → P (g w)) → preserves P (modify g).
Proof.
  intros Hg w y w' HP Hrun. unfold modify in Hrun. simplify_eq.
  by apply Hg.
Qed.

Lemma preserves_fresh : (∀ w, P w → P (bump_fresh w)) → preserves P fresh.
Proof.
  intros Hg w y w' HP Hrun. unfold fresh in Hrun. simplify_eq.
  by apply Hg.
Qed.
End preserves.

Lemma cors_free_files g w : cors_free w → cors_free (set_files g w).
Proof. by destruct w. Qed.
Lemma cors_free_dirs g w : cors_free w → cors_free (set_dirs g w).
Proof. by destruct w. Qed.
Lemma cors_free_frames g w : cors_free w → cors_free (set_frames g w).
Proof. by destruct w. Qed.
Lemma cors_free_queued g w : cors_free w → cors_free (set_queued g w).
Proof. by destruct w. Qed.
Lemma cors_free_bump w : cors_free w → cors_free (bump_fresh w).
Proof. by destruct w. Qed.
Lemma cors_free_log e w : cors_free w → cors_free (log_event e w).
Proof. by destruct w. Qed.

Lemma cors_free_insert id r w :
  count_header MHD_HTTP_HEADER_ACCESS_CONTROL_ALLOW_ORIGIN r = 0%nat →
  cors_free w → cors_free (set_resps <[id := r]> w).
Proof. destruct w. intros Hr Hw. by apply map_Forall_insert_2. Qed.

Lemma cors_free_delete id w :
  cors_free w → cors_free (set_resps (delete id) w).
Proof. destruct w. intros Hw. by apply map_Forall_delete. Qed.

Lemma cors_free_lookup id r w :
  cors_free w → w_resps w !! id = Some r →
  count_header MHD_HTTP_HEADER_ACCESS_CONTROL_ALLOW_ORIGIN r = 0%nat.
Proof. intros Hw Hr. by apply (map_Forall_lookup_1 _ _ _ _ Hw Hr). Qed.

Create HintDb pres.
#[local] Hint Resolve preserves_ret preserves_undefined preserves_get_world
  preserves_ask cors_free_files cors_free_dirs cors_free_frames
  cors_free_queued cors_free_bump cors_free_log cors_free_delete : pres.

(** Break a computation into its steps; what is left are the steps that
    write response objects. *)
Ltac pres_step :=
  match goal with
  | |- preserves _ (mbind _ _) => apply preserves_bind; [|intros]
  | |- preserves _ (mret _) => apply preserves_ret
  | |- preserves _ undefined => apply preserves_undefined
  | |- preserves _ get_world => apply preserves_get_world
  | |- preserves _ (ask _) => apply preserves_ask
  | |- preserves _ fresh => apply preserves_fresh; auto with pres
  | |- preserves _ (modify _) => apply preserves_modify; auto with pres
  | |- preserves _ (match ?x with _ => _ end) => destruct x
  | |- preserves _ (let '(_, _) := ?x in _) => destruct x
  end.

Lemma with_file_preserves {A} P p (k : nat → FILE → M A) :
  (∀ id f, preserves P (k id f)) → preserves P (Libc.with_file p k).
Proof. intros Hk. unfold Libc.with_file. repeat pres_step; auto. Qed.

Lemma with_dir_preserves {A} P p (k : nat → list dirent → M A) :
  (∀ id es, preserves P (k id es)) → preserves P (Libc.with_dir p k).
Proof. intros Hk. unfold Libc.with_dir. repeat pres_step; auto. Qed.

Lemma libc_preserves_cors_free :
  (∀ p, preserves cors_free (Libc.stat p))
  ∧ (∀ p, preserves cors_free (Libc.fopen p))
  ∧ (∀ p, preserves cors_free (Libc.fclose p))
  ∧ (∀ p, preserves cors_free (Libc.opendir p))
  ∧ (∀ p, preserves cors_free (Libc.closedir p)).
Proof.
  repeat split; intros p;
    unfold Libc.stat, Libc.fopen, Libc.fclose, Libc.opendir, Libc.closedir;
    try apply with_file_preserves; try apply with_dir_preserves; intros;
    repeat pres_step.
Qed.

Lemma load_sm_preserves P p : preserves P (load_sm p).
Proof. unfold load_sm. repeat pres_step. Qed.

Lemma store_sm_preserves p s : preserves cors_free (store_sm p s).
Proof. unfold store_sm. repeat pres_step. Qed.

Lemma call_crfc_preserves f cls : preserves cors_free (call_crfc f cls).
Proof.
  destruct libc_preserves_cors_free as (_ & _ & Hfclose & _ & Hclosedir).
  destruct f; cbn [call_crfc]; unfold on_file_close, on_dir_close;
    repeat first [pres_step | apply load_sm_preserves
                 | apply Hfclose | apply Hclosedir].
Qed.

(** Following a response pointer hands over an object the invariant
    speaks of. *)
Lemma with_resp_preserves {A} p (k : nat → MHD_Response → M A) :
  (∀ id r,
     count_header MHD_HTTP_HEADER_ACCESS_CONTROL_ALLOW_ORIGIN r = 0%nat →
     preserves cors_free (k id r)) →
  preserves cors_free (with_resp p k).
Proof.
  intros Hk w x w' HP. unfold with_resp.
  destruct p as [| | | |id]; try done.
  unfold mbind, M_bind, get_world.
  destruct (w_resps w !! id) as [r|] eqn:Hr; [|done].
  apply (Hk id r (cors_free_lookup id r w HP Hr) w x w' HP).
Qed.

Lemma create_response_preserves c : preserves cors_free (create_response c).
Proof.
  unfold create_response. repeat pres_step.
  intros w Hw. by apply cors_free_insert.
Qed.

Lemma count_header_snoc h k v r :
  k ≠ h →
  count_header h {| r_content := r_content r;
                    r_headers := r_headers r ++ [(k, v)];
                    r_refs := r_refs r |}
  = count_header h r.
Proof.
  intros Hk. unfold count_header. cbn [r_headers].
  rewrite filter_app, length_app, filter_cons, decide_False by done.
  cbn. lia.
Qed.

Lemma MHD_add_response_header_preserves resp h v :
  h ≠ MHD_HTTP_HEADER_ACCESS_CONTROL_ALLOW_ORIGIN →
  preserves cors_free (MHD_add_response_header resp h v).
Proof.
  intros Hh. unfold MHD_add_response_header. pres_step; [pres_step|].
  pres_step; [pres_step|].
  apply with_resp_preserves. intros id r Hr. repeat pres_step.
  intros w Hw. apply cors_free_insert; [|done].
  by rewrite count_header_snoc.
Qed.

Lemma MHD_queue_response_preserves conn status resp :
  preserves cors_free (MHD_queue_response conn status resp).
Proof.
  unfold MHD_queue_response. pres_step; [pres_step|].
  apply with_resp_preserves. intros id r Hr. repeat pres_step.
  intros w Hw. by apply cors_free_insert.
Qed.

Lemma MHD_destroy_response_preserves resp :
  preserves cors_free (MHD_destroy_response resp).
Proof.
  unfold MHD_destroy_response. pres_step; [pres_step|].
  apply with_resp_preserves. intros id r Hr.
  repeat first [apply call_crfc_preserves | pres_step].
  intros w Hw. by apply cors_free_insert.
Qed.

Lemma queue_page_404_preserves conn :
  preserves cors_free (queue_page_404 conn).
Proof.
  unfold queue_page_404, MHD_create_response_from_buffer.
  repeat first [apply create_response_preserves
               | apply MHD_queue_response_preserves
               | apply MHD_destroy_response_preserves | pres_step].
Qed.

Lemma on_file_request_preserves conn path :
  preserves cors_free (on_file_request conn path).
Proof.
  destruct libc_preserves_cors_free as (Hstat & Hfopen & Hfclose & _ & _).
  unfold on_file_request, MHD_create_response_from_callback.
  repeat first [apply create_response_preserves
               | apply MHD_queue_response_preserves
               | apply MHD_destroy_response_preserves
               | apply queue_page_404_preserves
               | apply Hstat | apply Hfopen | apply Hfclose | pres_step].
Qed.

Lemma on_dir_request_preserves conn path :
  preserves cors_free (on_dir_request conn path).
Proof.
  destruct libc_preserves_cors_free as (_ & _ & _ & Hopendir & Hclosedir).
  unfold on_dir_request, on_dir_request_body, enter_frame, leave_frame,
    MHD_create_response_from_buffer, MHD_create_response_from_callback.
  repeat first [apply create_response_preserves
               | apply MHD_queue_response_preserves
               | apply MHD_destroy_response_preserves
               | apply queue_page_404_preserves
               | apply store_sm_preserves
               | apply MHD_add_response_header_preserves; discriminate
               | apply Hopendir | apply Hclosedir | pres_step].
Qed.

Lemma fs_on_request_preserves conn url :
  preserves cors_free (fs_on_request conn url).
Proof.
  destruct libc_preserves_cors_free as (Hstat & _).
  unfold fs_on_request.
  repeat first [apply on_file_request_preserves
               | apply on_dir_request_preserves
               | apply queue_page_404_preserves | apply Hstat | pres_step].
Qed.

(** C1, where the code departs from it: whatever the file system holds
    and whatever the URL, a response that [fs_on_request] leaves queued
    bears no Access-Control-Allow-Origin header at all: no path of
    [fs.c] goes through [websrv_queue_response]. *)
Theorem fs_on_request_never_decorates (e : env) (url : string) (status : Z)
    (r : MHD_Response) :
  handler_reply e url = Some (status, r) →
  count_header MHD_HTTP_HEADER_ACCESS_CONTROL_ALLOW_ORIGIN r = 0%nat.
Proof.
  unfold handler_reply.
  destruct (fs_on_request 0 url (initial e)) as [[ret w']|] eqn:Hrun; [|done].
  assert (Hw' : cors_free w').
  { eapply (fs_on_request_preserves 0 url); [|exact Hrun].
    apply map_Forall_empty. }
  unfold queued. destruct (w_queued w' !! 0%nat) as [[st id]|]; [|done].
  destruct (w_resps w' !! id) as [r'|] eqn:Hr; [|done].
  intros [= _ <-]. by apply (cors_free_lookup id r' w').
Qed.

Lemma fs_on_request_never_decorates_witness :
  handler_reply demo_env "/fs/does/not/exist"
  = Some (MHD_HTTP_NOT_FOUND, page_404_response)
  ∧ count_header MHD_HTTP_HEADER_ACCESS_CONTROL_ALLOW_ORIGIN
      page_404_response = 0%nat.
Proof.
  split; [vm_compute; reflexivity|].
  apply (fs_on_request_never_decorates demo_env "/fs/does/not/exist"
           MHD_HTTP_NOT_FOUND page_404_response).
  vm_compute. reflexivity.
Defined.

(** *** A closure that has gone out of scope *)

Lemma on_dir_read_dangling (w : world) (a : nat) (pos max : Z) :
  w_frames w !! a = None →
  on_dir_read (SmPtr a) pos max w
  = if max <? 512 then Some ((0, []), w) else None.
Proof.
  intros Ha. unfold on_dir_read, load_sm. destruct (max <? 512); [done|].
  unfold_M. by rewrite Ha.
Qed.

Lemma pull_dangling (a : nat) (caps : list Z) :
  ∀ (pos : Z) (sent : list ascii) (w : world),
    w_frames w !! a = None →
    match pull Fn_on_dir_read (SmPtr a) MHD_SIZE_UNKNOWN caps pos sent w with
    | Some (_, w') => w' = w
    | None => True
    end.
Proof.
  induction caps as [|cap caps IH]; intros pos sent w Ha; [done|].
  rewrite pull_unknown_step. cbn [call_crc].
  rewrite (on_dir_read_dangling w a pos cap Ha).
  destruct (cap <? 512); [|done].
  change (0 =? MHD_CONTENT_READER_END_OF_STREAM) with false. cbn iota.
  destruct ((0 <? 0) || (cap <? 0)); [done|]. by apply IH.
Qed.

Lemma http_send_dangling (w : world) (conn id a : nat) (status bs : Z)
    (r : MHD_Response) (caps : list Z) :
  w_queued w !! conn = Some (status, id) →
  w_resps w !! id = Some r →
  r_content r = FromCallback MHD_SIZE_UNKNOWN bs Fn_on_dir_read (SmPtr a)
                  Fn_on_dir_close →
  r_refs r = 1%nat →
  w_frames w !! a = None →
  http_send conn caps w = None.
Proof.
  intros Hq Hr Hc Hrefs Ha.
  pose proof (pull_dangling a caps 0 [] w Ha) as Hpull.
  unfold http_send, with_resp, MHD_destroy_response.
  unfold mbind, M_bind at 1. unfold get_world at 1. rewrite Hq.
  unfold mbind, M_bind at 1. unfold get_world at 1. rewrite Hr, Hc.
  unfold mbind, M_bind at 1. unfold mbind, M_bind at 1.
  destruct (pull Fn_on_dir_read (SmPtr a) MHD_SIZE_UNKNOWN caps 0 [] w)
    as [[[o body] w']|]; [|done].
  subst w'. destruct w as [e fl dr fr rs q nx lg]. red_world in Hr.
  red_world in Ha. rewrite decide_False by done.
  unfold with_resp. unfold_M. rewrite Hr, Hrefs. red_world. rewrite Hc.
  unfold call_crfc, on_dir_close, load_sm. rewrite decide_False by done.
  unfold_M. by rewrite Ha.
Qed.

(** The response [on_dir_request] builds: its closure is the address of
    the handler's local. *)
Lemma on_dir_request_listing_spec (conn : nat) (path : string) (w : world)
    (es : list dirent) :
  (C.strlen path =? 0) || negb (last_is_slash path) = false →
  fs_opendir (w_env w) path = Some es →
  mhd_alloc (w_env w) = true →
  w_queued w !! conn = None →
  on_dir_request conn path w =
    Some (MHD_YES,
          set_frames (delete (w_fresh w))
            (set_queued <[conn := (MHD_HTTP_OK, S (S (w_fresh w)))]>
               (set_resps
                  <[S (S (w_fresh w)) :=
                      dir_response (w_env w) (w_fresh w)]>
                  (set_frames
                     <[w_fresh w := {| path := path;
                                       dir := DirPtr (S (w_fresh w));
                                       state := 0 |}]>
                     (log_event (Ev_opendir (S (w_fresh w)))
                        (set_dirs <[S (w_fresh w) := es]>
                           (bump_fresh (bump_fresh (bump_fresh w))))))))).
Proof.
  intros Hs Hd Ha Hq. destruct w as [e fl dr fr rs q nx lg].
  red_world in Hd. red_world in Ha. red_world in Hq.
  unfold on_dir_request, enter_frame, leave_frame, on_dir_request_body.
  rewrite Hs.
  unfold Libc.opendir, store_sm, MHD_create_response_from_callback,
    create_response, MHD_queue_response, MHD_destroy_response, with_resp.
  unfold_M. rewrite Hd. red_world.
  rewrite !decide_False by done. red_world.
  rewrite lookup_insert_eq. red_world. rewrite Ha. red_world.
  rewrite !decide_False by done. red_world.
  rewrite lookup_insert_eq. red_world. rewrite Hq. red_world.
  rewrite lookup_insert_eq. red_world.
  by rewrite !insert_insert_eq.
Qed.

(** C9, where the code departs from it: a directory request whose path
    ends in a separator, on a directory that opens, goes well as far as the
    handler is concerned: status 200 is queued and [MHD_YES] returned.
    But the closure of the response is the address [a] of the handler's
    own local, whose storage ends with the call, while the directory
    [d] is still open and only the close callback on that closure would
    close it.  Following the pointer is undefined: the close callback is,
    and so is every way the HTTP layer can go on, whatever room it offers
    and whenever the client leaves. *)
Theorem dir_listing_closure_dangles (conn : nat) (dirname : string) (w : world)
    (es : list dirent) (caps : list Z) :
  let path := dirname +:+ "/" in
  fs_opendir (w_env w) path = Some es →
  mhd_alloc (w_env w) = true →
  w_queued w !! conn = None →
  ∃ w1 r a d,
    on_dir_request conn path w = Some (MHD_YES, w1)
    ∧ queued conn w1 = Some (MHD_HTTP_OK, r)
    ∧ r_content r = FromCallback MHD_SIZE_UNKNOWN (32 * PAGE_SIZE (w_env w))
                      Fn_on_dir_read (SmPtr a) Fn_on_dir_close
    ∧ w_frames w1 !! a = None
    ∧ w_dirs w1 !! d = Some es
    ∧ w_log w1 = w_log w ++ [Ev_opendir d]
    ∧ on_dir_close (SmPtr a) w1 = None
    ∧ http_send conn caps w1 = None.
Proof.
  intros path Hd Ha Hq.
  assert (Hne : path ≠ EmptyString) by (unfold path; by destruct dirname).
  assert (Hslash : last_is_slash path = true) by apply last_is_slash_app.
  assert (Hs : (C.strlen path =? 0) || negb (last_is_slash path) = false).
  { rewrite Hslash. cbn [negb]. rewrite orb_false_r. apply Z.eqb_neq.
    unfold C.strlen. destruct path; [done|]. cbn [String.length]. lia. }
  clearbody path.
  rewrite (on_dir_request_listing_spec conn path w es Hs Hd Ha Hq).
  destruct w as [e fl dr fr rs q nx lg]. red_world.
  set (w1 := World _ _ _ _ _ _ _ _).
  assert (Hfr : w_frames w1 !! nx = None).
  { unfold w1. red_world. apply lookup_delete_eq. }
  assert (Hqd : w_queued w1 !! conn = Some (MHD_HTTP_OK, S (S nx))).
  { unfold w1. red_world. apply lookup_insert_eq. }
  assert (Hr : w_resps w1 !! S (S nx)
               = Some (dir_response e nx)).
  { unfold w1. red_world. apply lookup_insert_eq. }
  exists w1, (dir_response e nx), nx,
    (S nx).
  split; [done|]. split; [unfold queued; by rewrite Hqd, Hr|].
  split; [done|]. split; [done|].
  split; [unfold w1; red_world; apply lookup_insert_eq|].
  split; [done|]. split.
  - unfold on_dir_close, load_sm. rewrite decide_False by done.
    unfold_M. by rewrite Hfr.
  - by apply (http_send_dangling w1 conn (S (S nx)) nx
                MHD_HTTP_OK (32 * PAGE_SIZE e)
                (dir_response e nx) caps).
Qed.

Lemma dir_listing_closure_dangles_witness :
  ∃ w1 r a d,
    on_dir_request 0 "/tmp/x/" (initial demo_env) = Some (MHD_YES, w1)
    ∧ queued 0 w1 = Some (MHD_HTTP_OK, r)
    ∧ r_content r = FromCallback MHD_SIZE_UNKNOWN
                      (32 * PAGE_SIZE (w_env (initial demo_env)))
                      Fn_on_dir_read (SmPtr a) Fn_on_dir_close
    ∧ w_frames w1 !! a = None
    ∧ w_dirs w1 !! d = Some demo_entries
    ∧ w_log w1 = w_log (initial demo_env) ++ [Ev_opendir d]
    ∧ on_dir_close (SmPtr a) w1 = None
    ∧ http_send 0 (replicate 10 1024) w1 = None.
Proof.
  apply (dir_listing_closure_dangles 0 "/tmp/x" (initial demo_env)
           demo_entries (replicate 10 1024)).
  - reflexivity.
  - reflexivity.
  - reflexivity.
Defined.

(** *** The request handlers *)

Lemma queue_page_404_spec (conn : nat) (w : world) :
  w_queued w !! conn = None →
  queue_page_404 conn w =
    if mhd_alloc (w_env w) then
      Some (MHD_YES,
            set_queued <[conn := (MHD_HTTP_NOT_FOUND, w_fresh w)]>
              (set_resps <[w_fresh w := page_404_response]> (bump_fresh w)))
    else Some (MHD_NO, w).
Proof.
  intros Hq. destruct w as [e fl dr fr rs q nx lg]. red_world in Hq.
  unfold queue_page_404, MHD_create_response_from_buffer, create_response,
    MHD_queue_response, MHD_destroy_response, with_resp.
  unfold_M. destruct (mhd_alloc e); red_world; [|done].
  rewrite !decide_False by done. red_world.
  rewrite lookup_insert_eq. red_world. rewrite Hq. red_world.
  rewrite lookup_insert_eq. red_world.
  by rewrite !insert_insert_eq.
Qed.

Lemma queue_page_404_queues (conn : nat) (w : world) :
  mhd_alloc (w_env w) = true →
  w_queued w !! conn = None →
  ∃ w', queue_page_404 conn w = Some (MHD_YES, w')
        ∧ queued conn w' = Some (MHD_HTTP_NOT_FOUND, page_404_response)
        ∧ w_files w' = w_files w ∧ w_dirs w' = w_dirs w
        ∧ w_frames w' = w_frames w ∧ w_log w' = w_log w.
Proof.
  intros Ha Hq. rewrite (queue_page_404_spec conn w Hq), Ha.
  destruct w as [e fl dr fr rs q nx lg].
  eexists. split; [done|]. unfold queued. red_world.
  by rewrite !lookup_insert_eq.
Qed.

Lemma fs_on_request_unfold (conn : nat) (c1 c2 c3 : ascii) (rest : string)
    (w : world) :
  fs_on_request conn (String c1 (String c2 (String c3 rest))) w =
    match rest with
    | EmptyString => on_dir_request conn "/" w
    | _ =>
        match fs_stat (w_env w) rest with
        | Some st =>
            if st_isreg st then on_file_request conn rest w
            else on_dir_request conn rest w
        | None => queue_page_404 conn w
        end
    end.
Proof.
  assert (Hlen : (C.strlen (String c1 (String c2 (String c3 rest))) <? 3)
                 = false).
  { apply Z.ltb_ge. unfold C.strlen. cbn [String.length]. lia. }
  unfold fs_on_request. rewrite Hlen. cbn [advance].
  destruct rest as [|c rest]; [done|].
  assert (Hlen0 : (C.strlen (String c rest) =? 0) = false).
  { apply Z.eqb_neq. unfold C.strlen. cbn [String.length]. lia. }
  rewrite Hlen0. unfold Libc.stat, ask. unfold mbind, M_bind at 1.
  destruct (fs_stat (w_env w) (String c rest)) as [st|]; [|done].
  by destruct (st_isreg st).
Qed.

(** C3: the router drops the first three characters of the URL.  If
    nothing is left it answers as for the directory [/].  Otherwise it
    asks [stat] about what is left: when [stat] fails (whatever the
    reason) it runs the 404 block, which, when libmicrohttpd yields a
    response object and the connection has no reply yet, queues status
    404 with exactly the not-found page as body and opens nothing; when
    [stat] reports a regular file it is [on_file_request] on what is left;
    in every other case it is [on_dir_request] on what is left. *)
Theorem fs_on_request_routes (conn : nat) (c1 c2 c3 : ascii) (rest : string)
    (w : world) :
  let url := String c1 (String c2 (String c3 rest)) in
  advance 3 url = rest
  ∧ (rest = EmptyString →
     fs_on_request conn url w = on_dir_request conn "/" w)
  ∧ (rest ≠ EmptyString →
     match fs_stat (w_env w) rest with
     | Some st =>
         fs_on_request conn url w =
           if st_isreg st then on_file_request conn rest w
           else on_dir_request conn rest w
     | None =>
         fs_on_request conn url w = queue_page_404 conn w
         ∧ (mhd_alloc (w_env w) = true → w_queued w !! conn = None →
            ∃ w', fs_on_request conn url w = Some (MHD_YES, w')
                  ∧ queued conn w'
                    = Some (MHD_HTTP_NOT_FOUND,
                            {| r_content :=
                                 FromBuffer (C.strlen PAGE_404) PAGE_404;
                               r_headers := []; r_refs := 1 |})
                  ∧ w_files w' = w_files w ∧ w_dirs w' = w_dirs w
                  ∧ w_log w' = w_log w)
     end).
Proof.
  cbv zeta. split; [done|]. rewrite fs_on_request_unfold. split.
  - by intros ->.
  - intros Hne. destruct rest as [|c rest]; [done|].
    destruct (fs_stat (w_env w) (String c rest)) as [st|]; [done|].
    split; [done|]. intros Ha Hq.
    destruct (queue_page_404_queues conn w Ha Hq)
      as (w' & Hrun & Hqd & Hf & Hd & _ & Hl).
    by exists w'.
Qed.

Lemma fs_on_request_routes_witness :
  ∃ w', fs_on_request 0 "/fs/does/not/exist" (initial demo_env)
        = Some (MHD_YES, w')
        ∧ queued 0 w'
          = Some (MHD_HTTP_NOT_FOUND,
                  {| r_content := FromBuffer (C.strlen PAGE_404) PAGE_404;
                     r_headers := []; r_refs := 1 |})
        ∧ w_files w' = w_files (initial demo_env)
        ∧ w_dirs w' = w_dirs (initial demo_env)
        ∧ w_log w' = w_log (initial demo_env).
Proof.
  pose proof (fs_on_request_routes 0 "/" "f" "s" "/does/not/exist"
                (initial demo_env)) as (_ & _ & H).
  specialize (H ltac:(discriminate)).
  exact (proj2 H eq_refl eq_refl).
Defined.

(** *** The redirect *)

Lemma has_any_app (cs : list ascii) (a b : string) :
  has_any cs (a +:+ b) = has_any cs a || has_any cs b.
Proof. unfold has_any. by rewrite bytes_app, existsb_app. Qed.

(** libmicrohttpd takes the Location of the redirect when the path holds
    no line break, and only then. *)
Lemma header_ok_location (path : string) :
  header_ok MHD_HTTP_HEADER_LOCATION ("/fs" +:+ path +:+ "/")
  = one_line path.
Proof.
  unfold header_ok, one_line. rewrite !has_any_app.
  change (has_any [CR; LF] "/fs") with false.
  change (has_any [CR; LF] "/") with false.
  change (has_any [HT; " "%char; CR; LF] MHD_HTTP_HEADER_LOCATION)
    with false.
  by rewrite orb_false_r.
Qed.

Lemma strlen_redirect_target (path : string) :
  C.strlen ("/fs" +:+ path +:+ "/") = C.strlen path + 4.
Proof.
  rewrite !strlen_app. unfold C.strlen at 1 3. cbn [String.length]. lia.
Qed.

Lemma on_dir_request_redirect_spec (conn : nat) (path : string) (w : world) :
  (C.strlen path =? 0) || negb (last_is_slash path) = true →
  C.strlen path + 5 <= PATH_MAX (w_env w) →
  mhd_alloc (w_env w) = true →
  w_queued w !! conn = None →
  on_dir_request conn path w =
    Some (MHD_YES,
          set_frames (delete (w_fresh w))
            (set_queued
               <[conn := (MHD_HTTP_MOVED_PERMANENTLY, S (w_fresh w))]>
               (set_resps <[S (w_fresh w) := redirect_reply path]>
                  (set_frames <[w_fresh w :=
                     {| path := EmptyString; dir := NULL; state := 0 |}]>
                     (bump_fresh (bump_fresh w)))))).
Proof.
  intros Hns Hfit Ha Hq. destruct w as [e fl dr fr rs q nx lg].
  red_world in Hq. red_world in Hfit. red_world in Ha.
  unfold on_dir_request, enter_frame, leave_frame, on_dir_request_body.
  rewrite Hns.
  unfold MHD_create_response_from_buffer, create_response,
    MHD_add_response_header, MHD_queue_response, MHD_destroy_response,
    with_resp.
  unfold_M. unfold C.sprintf. rewrite strlen_redirect_target.
  destruct (Z.leb_spec (C.strlen path + 4 + 1) (PATH_MAX e)); [|lia].
  red_world. rewrite Ha. red_world.
  rewrite !decide_False by done. rewrite header_ok_location.
  unfold redirect_reply. destruct (one_line path); red_world.
  - rewrite lookup_insert_eq. red_world.
    rewrite lookup_insert_eq. red_world. rewrite Hq. red_world.
    rewrite lookup_insert_eq. red_world.
    by rewrite !insert_insert_eq.
  - rewrite lookup_insert_eq. red_world. rewrite Hq. red_world.
    rewrite lookup_insert_eq. red_world.
    by rewrite !insert_insert_eq.
Qed.

Lemma on_dir_request_redirect_overrun (conn : nat) (path : string)
    (w : world) :
  (C.strlen path =? 0) || negb (last_is_slash path) = true →
  PATH_MAX (w_env w) < C.strlen path + 5 →
  on_dir_request conn path w = None.
Proof.
  intros Hns Hfit. destruct w as [e fl dr fr rs q nx lg]. red_world in Hfit.
  unfold on_dir_request, enter_frame, leave_frame, on_dir_request_body.
  rewrite Hns. unfold_M. unfold C.sprintf. rewrite strlen_redirect_target.
  by destruct (Z.leb_spec (C.strlen path + 4 + 1) (PATH_MAX e)); [lia|].
Qed.

(** C4, where the code departs from it: for a path that does not end in
    a separator the redirect is as the claim says only when the target
    fits and holds no line break.  [sprintf] writes [/fs], the path, a
    separator and the terminator into the [PATH_MAX] bytes of the local
    [url] without a look at the length: when that is more than
    [PATH_MAX] bytes the call is undefined.  When it fits (and
    libmicrohttpd yields a response object and the connection has no
    reply yet) status 301 is queued with an empty body and no directory
    is opened; but the result of [MHD_add_response_header] is dropped,
    so the reply bears the single header Location, set to [/fs], the
    path and one [/], only if the path holds no CR or LF, and no header
    at all if it does. *)
Theorem on_dir_request_redirect_unchecked (conn : nat) (path : string)
    (w : world) :
  (∀ q, path ≠ q +:+ "/") →
  (PATH_MAX (w_env w) < C.strlen path + 5 →
   on_dir_request conn path w = None)
  ∧ (C.strlen path + 5 <= PATH_MAX (w_env w) →
     mhd_alloc (w_env w) = true →
     w_queued w !! conn = None →
     ∃ w', on_dir_request conn path w = Some (MHD_YES, w')
           ∧ queued conn w'
             = Some (MHD_HTTP_MOVED_PERMANENTLY,
                     {| r_content := FromBuffer 0 EmptyString;
                        r_headers :=
                          if one_line path
                          then [(MHD_HTTP_HEADER_LOCATION,
                                 "/fs" +:+ path +:+ "/")]
                          else [];
                        r_refs := 1 |})
           ∧ w_dirs w' = w_dirs w ∧ w_files w' = w_files w
           ∧ w_log w' = w_log w).
Proof.
  intros Hns. split.
  - by apply on_dir_request_redirect_overrun, no_trailing_slash.
  - intros Hfit Ha Hq.
    rewrite (on_dir_request_redirect_spec conn path w
               (no_trailing_slash path Hns) Hfit Ha Hq).
    destruct w as [e fl dr fr rs q nx lg].
    eexists. split; [done|]. unfold queued. red_world.
    by rewrite !lookup_insert_eq.
Qed.

(** A directory whose path has 1020 characters: the call is undefined. *)
Lemma on_dir_request_redirect_unchecked_witness :
  on_dir_request 0 overlong_path (initial demo_env) = None.
Proof.
  apply (on_dir_request_redirect_unchecked 0 overlong_path
           (initial demo_env)).
  - apply no_slash_suffix. vm_compute. reflexivity.
  - vm_compute. reflexivity.
Defined.

(** The departures at work: the overlong path, and a directory whose
    name holds a line feed, which is redirected to nowhere. *)
Lemma redirect_departures :
  C.strlen overlong_path = 1020
  ∧ on_dir_request 0 overlong_path (initial demo_env) = None
  ∧ handler_reply
      (Build_env 1024 16384
         (λ _, Some {| st_isreg := false; st_size := 512 |})
         (λ _, None) (λ _, None) true)
      ("/fs" +:+ two_line_path)
    = Some (MHD_HTTP_MOVED_PERMANENTLY,
            {| r_content := FromBuffer 0 EmptyString; r_headers := [];
               r_refs := 1 |}).
Proof. repeat split; vm_compute; reflexivity. Qed.

(** *** Files *)

Lemma read_full (f : FILE) (max : Z) :
  f_fault f = None → 0 <= max →
  Z.of_nat (f_pos f) + max <= Z.of_nat (length (f_data f)) →
  Libc.read f max =
    (max, take (Z.to_nat max) (drop (f_pos f) (f_data f)),
     {| f_data := f_data f; f_seekable := f_seekable f;
        f_fault := f_fault f; f_pos := f_pos f + Z.to_nat max;
        f_err := f_err f |}).
Proof.
  intros Hfault Hmax Hroom. unfold Libc.read, Libc.readable. rewrite Hfault.
  rewrite Nat.min_l by lia. rewrite Z2Nat.id by lia.
  rewrite Nat.ltb_irrefl. cbn [andb]. by rewrite orb_false_r.
Qed.

Lemma pull_known_step (crc : crc_fn) (cls : ptr) (size cap : Z)
    (caps : list Z) (pos : Z) (sent : list ascii) (w : world) :
  size ≠ MHD_SIZE_UNKNOWN → pos ≠ size →
  pull crc cls size (cap :: caps) pos sent w =
    match call_crc crc cls pos (cap `min` (size - pos)) w with
    | Some ((n, buf), w1) =>
        if n =? MHD_CONTENT_READER_END_OF_STREAM then
          Some ((Failed, sent), w1)
        else if (n <? 0) || (cap `min` (size - pos) <? n)
        then Some ((Failed, sent), w1)
        else pull crc cls size caps (pos + n)
               (sent ++ take (Z.to_nat n) buf) w1
    | None => None
    end.
Proof.
  intros Hk Hp. cbn [pull].
  destruct (Z.eqb_spec size MHD_SIZE_UNKNOWN) as [|_]; [done|].
  destruct (Z.eqb_spec pos size) as [|_]; [done|]. cbn [negb andb].
  unfold mbind, M_bind at 1.
  destruct (call_crc crc cls pos (cap `min` (size - pos)) w)
    as [[[n buf] w1]|]; [|done].
  by repeat case_match.
Qed.

Lemma pull_known_done (crc : crc_fn) (cls : ptr) (size : Z)
    (caps : list Z) (sent : list ascii) (w : world) :
  size ≠ MHD_SIZE_UNKNOWN →
  pull crc cls size caps size sent w = Some ((Completed, sent), w).
Proof.
  intros Hk. destruct caps; cbn [pull];
    destruct (Z.eqb_spec size MHD_SIZE_UNKNOWN); try done;
    by rewrite Z.eqb_refl.
Qed.

Lemma set_files_insert_id (w : world) (id : nat) (f : FILE) :
  w_files w !! id = Some f → set_files <[id := f]> w = w.
Proof.
  intros H. destruct w. cbn in *. by rewrite insert_id.
Qed.

Lemma set_files_insert_insert (w : world) (id : nat) (f f' : FILE) :
  set_files <[id := f']> (set_files <[id := f]> w)
  = set_files <[id := f']> w.
Proof. destruct w. cbn. by rewrite insert_insert_eq. Qed.

Lemma pull_file (id : nat) (data : list ascii) (N : Z) :
  N = Z.of_nat (length data) → N <= C.SSIZE_MAX →
  ∀ (caps : list Z) (w : world) (f : FILE) (pos : Z),
    w_files w !! id = Some f → sound_file f data →
    0 <= pos <= N →
    Forall (λ cap, 1 <= cap) caps →
    N - pos <= Z.of_nat (length caps) →
    ∃ f', pull Fn_on_file_read (FilePtr id) N caps pos
            (take (Z.to_nat pos) data) w
          = Some ((Completed, data), set_files <[id := f']> w).
Proof.
  intros HN Hmaxn.
  assert (Hk : N ≠ MHD_SIZE_UNKNOWN).
  { unfold MHD_SIZE_UNKNOWN, C.UINT64_MAX, C.SSIZE_MAX in *. lia. }
  induction caps as [|cap caps IH]; intros w f pos Hf Hsound Hpos Hcaps Hlen.
  - cbn [length] in Hlen. assert (pos = N) as -> by lia.
    exists f. rewrite pull_known_done by done.
    rewrite set_files_insert_id by done.
    rewrite take_ge by lia. done.
  - destruct (Z.eq_dec pos N) as [->|Hne].
    { exists f. rewrite pull_known_done by done.
      rewrite set_files_insert_id by done.
      rewrite take_ge by lia. done. }
    apply Forall_cons in Hcaps as [Hcap Hcaps].
    destruct Hsound as (Hdata & Hseek & Hfault & Herr).
    set (max := cap `min` (N - pos)).
    assert (Hmax : 1 <= max <= N - pos) by (unfold max; lia).
    rewrite pull_known_step by done. cbn [call_crc]. fold max.
    rewrite (on_file_read_spec w id f pos max Hf).
    unfold C.to_long. rewrite to_signed_small
      by (unfold C.SSIZE_MAX in *; lia).
    unfold Libc.seek_set. rewrite Hseek.
    destruct (Z.leb_spec 0 pos); [|lia]. cbn [andb].
    rewrite read_full; cbn [f_pos f_data f_fault];
      [|done|lia|rewrite Hdata; lia].
    cbv zeta. cbn [fst snd f_err].
    destruct (Z.eqb_spec max 0); [lia|].
    unfold C.to_ssize_t. rewrite to_signed_small
      by (unfold C.SSIZE_MAX in *; lia).
    destruct (Z.eqb_spec max MHD_CONTENT_READER_END_OF_STREAM) as [E|_];
      [unfold MHD_CONTENT_READER_END_OF_STREAM in E; lia|].
    destruct (Z.ltb_spec max 0); [lia|]. rewrite Z.ltb_irrefl. cbn [orb].
    rewrite take_take, Nat.min_id, Hdata, take_take_drop.
    replace (Z.to_nat pos + Z.to_nat max)%nat with (Z.to_nat (pos + max))
      by lia.
    match goal with
    | |- context [set_files <[id := ?f2]> w] => set (f1 := f2)
    end.
    destruct (IH (set_files <[id := f1]> w) f1 (pos + max)) as [f' Hf'].
    + rewrite files_set_files. apply lookup_insert_eq.
    + by repeat split.
    + lia.
    + done.
    + cbn [length] in Hlen. lia.
    + exists f'. rewrite Hf'. by rewrite set_files_insert_insert.
Qed.

Lemma on_file_request_not_found (conn : nat) (path : string) (w : world) :
  fs_stat (w_env w) path = None ∨ fs_fopen (w_env w) path = None →
  on_file_request conn path w = queue_page_404 conn w.
Proof.
  intros H. destruct w as [e fl dr fr rs q nx lg]. red_world in H.
  unfold on_file_request, Libc.stat, Libc.fopen. unfold_M.
  destruct (fs_stat e path) as [st|]; red_world.
  - destruct H as [H|H]; [done|]. rewrite H. red_world. done.
  - done.
Qed.

Lemma on_file_request_found (conn : nat) (path : string) (w : world)
    (st : stat_t) (f : FILE) :
  fs_stat (w_env w) path = Some st →
  fs_fopen (w_env w) path = Some f →
  mhd_alloc (w_env w) = true →
  w_queued w !! conn = None →
  on_file_request conn path w =
    Some (MHD_YES,
          set_queued <[conn := (MHD_HTTP_OK, S (w_fresh w))]>
            (set_resps
               <[S (w_fresh w) := file_response (w_env w) st (w_fresh w)]>
               (log_event (Ev_fopen (w_fresh w))
                  (set_files <[w_fresh w := opened f]>
                     (bump_fresh (bump_fresh w)))))).
Proof.
  intros Hst Hf Ha Hq. destruct w as [e fl dr fr rs q nx lg].
  red_world in Hst. red_world in Hf. red_world in Ha. red_world in Hq.
  unfold on_file_request, Libc.stat, Libc.fopen,
    MHD_create_response_from_callback, create_response,
    MHD_queue_response, MHD_destroy_response, with_resp.
  unfold_M. rewrite Hst. red_world. rewrite Hf. red_world.
  rewrite !decide_False by done. red_world. rewrite Ha. red_world.
  rewrite !decide_False by done. red_world.
  rewrite lookup_insert_eq. red_world. rewrite Hq. red_world.
  rewrite lookup_insert_eq. red_world.
  by rewrite !insert_insert_eq.
Qed.

Lemma http_send_file (w : world) (conn rid id : nat) (status N bs : Z)
    (r : MHD_Response) (f : FILE) (caps : list Z) :
  w_queued w !! conn = Some (status, rid) →
  w_resps w !! rid = Some r →
  r_content r = FromCallback N bs Fn_on_file_read (FilePtr id)
                  Fn_on_file_close →
  r_refs r = 1%nat →
  w_files w !! id = Some f → sound_file f (f_data f) →
  N = Z.of_nat (length (f_data f)) → N <= C.SSIZE_MAX →
  Forall (λ cap, 1 <= cap) caps → N <= Z.of_nat (length caps) →
  ∃ w', http_send conn caps w
        = Some (Some {| rp_status := status; rp_headers := r_headers r;
                        rp_length := N; rp_outcome := Completed;
                        rp_body := f_data f |}, w')
        ∧ w_files w' = delete id (w_files w)
        ∧ w_dirs w' = w_dirs w
        ∧ w_log w' = w_log w ++ [Ev_fclose id].
Proof.
  intros Hq Hr Hc Hrefs Hf Hsound HN Hmax Hcaps Hlen.
  destruct (pull_file id (f_data f) N HN Hmax caps w f 0 Hf Hsound)
    as [f' Hpull]; [lia|done|lia|].
  change (take (Z.to_nat 0) (f_data f)) with (@nil ascii) in Hpull.
  unfold http_send, with_resp, MHD_destroy_response.
  unfold mbind, M_bind at 1. unfold get_world at 1. rewrite Hq.
  unfold mbind, M_bind at 1. unfold get_world at 1. rewrite Hr, Hc.
  unfold mbind, M_bind at 1. unfold mbind, M_bind at 1. rewrite Hpull.
  destruct w as [e fl dr fr rs q nx lg]. red_world in Hr.
  rewrite decide_False by done.
  unfold with_resp. unfold_M. rewrite Hr, Hrefs. red_world. rewrite Hc.
  unfold call_crfc, on_file_close, Libc.fclose, Libc.with_file.
  rewrite decide_False by done.
  unfold_M. rewrite lookup_insert_eq. red_world.
  eexists. split; [done|]. red_world.
  by rewrite delete_insert_eq.
Qed.

(** C8: when [stat] and [fopen] succeed on a file of [N] bytes (a sound
    seekable stream; [N] the size [stat] reports), libmicrohttpd yields a
    response object and the connection has no reply yet, the file
    responder queues status 200 with declared length [N]; sent with room
    for at least one byte per call, the body completes after exactly the
    [N] bytes of the file, and the stream that was opened is closed, once,
    by the close callback.  When [stat] or [fopen] fails, the responder
    queues status 404 with the not-found page and no stream is opened. *)
Theorem on_file_request_replies (conn : nat) (path : string) (w : world)
    (caps : list Z) :
  mhd_alloc (w_env w) = true →
  w_queued w !! conn = None →
  (∀ st f,
     fs_stat (w_env w) path = Some st →
     fs_fopen (w_env w) path = Some f →
     f_seekable f = true → f_fault f = None →
     st_size st = Z.of_nat (length (f_data f)) →
     st_size st <= C.SSIZE_MAX →
     Forall (λ cap, 1 <= cap) caps →
     st_size st <= Z.of_nat (length caps) →
     ∃ w', then_send (on_file_request conn path) conn caps w
           = Some ((MHD_YES,
                    Some {| rp_status := MHD_HTTP_OK; rp_headers := [];
                            rp_length := st_size st;
                            rp_outcome := Completed;
                            rp_body := f_data f |}), w')
           ∧ Z.of_nat (length (f_data f)) = st_size st
           ∧ w_log w' = w_log w ++ [Ev_fopen (w_fresh w);
                                    Ev_fclose (w_fresh w)]
           ∧ w_files w' = delete (w_fresh w) (w_files w))
  ∧ (fs_stat (w_env w) path = None ∨ fs_fopen (w_env w) path = None →
     ∃ w', on_file_request conn path w = Some (MHD_YES, w')
           ∧ queued conn w'
             = Some (MHD_HTTP_NOT_FOUND,
                     {| r_content := FromBuffer (C.strlen PAGE_404) PAGE_404;
                        r_headers := []; r_refs := 1 |})
           ∧ w_files w' = w_files w ∧ w_log w' = w_log w).
Proof.
  intros Ha Hq. split.
  - intros st f Hst Hf Hseek Hfault Hsize Hmax Hcaps Hlen.
    unfold then_send. unfold mbind, M_bind at 1.
    rewrite (on_file_request_found conn path w st f Hst Hf Ha Hq).
    destruct w as [e fl dr fr rs q nx lg]. red_world.
    set (w1 := World _ _ _ _ _ _ _ _).
    assert (Hmod : st_size st `mod` 2 ^ 64 = st_size st).
    { apply Z.mod_small. unfold C.SSIZE_MAX in Hmax. lia. }
    destruct (http_send_file w1 conn (S nx) nx MHD_HTTP_OK
                (st_size st) (32 * PAGE_SIZE e)
                (file_response e st nx) (opened f) caps)
      as (w' & Hsend & Hfiles & _ & Hlog); try done.
    + unfold w1. red_world. apply lookup_insert_eq.
    + unfold w1. red_world. apply lookup_insert_eq.
    + unfold file_response. cbn [r_content]. by rewrite Hmod.
    + unfold w1. red_world. apply lookup_insert_eq.
    + exists w'. unfold mbind, M_bind at 1. rewrite Hsend.
      cbn [rp_headers file_response r_headers f_data opened].
      split; [done|]. split; [done|]. split.
      * rewrite Hlog. unfold w1. red_world. by rewrite <- app_assoc.
      * rewrite Hfiles. unfold w1. red_world. by rewrite delete_insert_eq.
  - intros Hfail. rewrite (on_file_request_not_found conn path w Hfail).
    destruct (queue_page_404_queues conn w Ha Hq)
      as (w' & Hrun & Hqd & Hf & _ & _ & Hl).
    by exists w'.
Qed.

(** *** A file stream is closed however the reply ends *)

(** Whatever the file and the room offered, pulling a file never leaves
    the defined behaviour and touches the stream only. *)
Lemma pull_file_any (id : nat) (N : Z) (caps : list Z) :
  ∀ (w : world) (f : FILE) (pos : Z) (sent : list ascii),
    w_files w !! id = Some f →
    ∃ o body f',
      pull Fn_on_file_read (FilePtr id) N caps pos sent w
      = Some ((o, body), set_files <[id := f']> w).
Proof.
  induction caps as [|cap caps IH]; intros w f pos sent Hf.
  - exists (if negb (N =? MHD_SIZE_UNKNOWN) && (pos =? N)
            then Completed else Interrupted), sent, f.
    rewrite set_files_insert_id by done. cbn [pull].
    by destruct (negb (N =? MHD_SIZE_UNKNOWN) && (pos =? N)).
  - cbn [pull].
    destruct (negb (N =? MHD_SIZE_UNKNOWN) && (pos =? N)).
    { exists Completed, sent, f. by rewrite set_files_insert_id. }
    set (max := if negb (N =? MHD_SIZE_UNKNOWN) then cap `min` (N - pos)
                else cap).
    unfold mbind, M_bind at 1. cbn [call_crc].
    rewrite (on_file_read_spec w id f pos max Hf).
    destruct (Libc.seek_set f (C.to_long pos)) as [f1|].
    + set (r := Libc.read f1 max). cbv zeta.
      set (n := if r.1.1 =? 0 then _ else _).
      assert (Hf2 : w_files (set_files <[id := r.2]> w) !! id = Some r.2)
        by (rewrite files_set_files; apply lookup_insert_eq).
      clearbody n r max. cbv beta iota.
      destruct (n =? MHD_CONTENT_READER_END_OF_STREAM).
      { eexists _, _, _. reflexivity. }
      destruct ((n <? 0) || (max <? n)).
      { eexists _, _, _. reflexivity. }
      destruct (IH _ r.2 (pos + n) (sent ++ take (Z.to_nat n) r.1.2) Hf2)
        as (o & body & f' & Hrec).
      exists o, body, f'. rewrite Hrec.
      by rewrite set_files_insert_insert.
    + exists Failed, sent, f. rewrite set_files_insert_id by done.
      reflexivity.
Qed.

Lemma on_file_request_no_memory (conn : nat) (path : string) (w : world)
    (st : stat_t) (f : FILE) :
  fs_stat (w_env w) path = Some st →
  fs_fopen (w_env w) path = Some f →
  mhd_alloc (w_env w) = false →
  on_file_request conn path w =
    Some (MHD_NO,
          log_event (Ev_fclose (w_fresh w))
            (set_files (delete (w_fresh w))
               (log_event (Ev_fopen (w_fresh w))
                  (set_files <[w_fresh w := opened f]> (bump_fresh w))))).
Proof.
  intros Hst Hf Ha. destruct w as [e fl dr fr rs q nx lg].
  red_world in Hst. red_world in Hf. red_world in Ha.
  unfold on_file_request, Libc.stat, Libc.fopen, Libc.fclose,
    Libc.with_file, MHD_create_response_from_callback, create_response.
  unfold_M. rewrite Hst. red_world. rewrite Hf. red_world.
  rewrite !decide_False by done. red_world. rewrite Ha. red_world.
  rewrite decide_True by done. red_world.
  by rewrite lookup_insert_eq.
Qed.

Lemma http_send_nothing (conn : nat) (caps : list Z) (w : world) :
  w_queued w !! conn = None → http_send conn caps w = Some (None, w).
Proof.
  intros Hq. unfold http_send. unfold mbind, M_bind, get_world.
  by rewrite Hq.
Qed.

Lemma http_send_file_any (w : world) (conn rid id : nat) (status N bs : Z)
    (r : MHD_Response) (f : FILE) (caps : list Z) :
  w_queued w !! conn = Some (status, rid) →
  w_resps w !! rid = Some r →
  r_content r = FromCallback N bs Fn_on_file_read (FilePtr id)
                  Fn_on_file_close →
  r_refs r = 1%nat →
  w_files w !! id = Some f →
  ∃ rep w', http_send conn caps w = Some (Some rep, w')
            ∧ w_files w' = delete id (w_files w)
            ∧ w_log w' = w_log w ++ [Ev_fclose id].
Proof.
  intros Hq Hr Hc Hrefs Hf.
  destruct (pull_file_any id N caps w f 0 [] Hf) as (o & body & f' & Hpull).
  unfold http_send, with_resp, MHD_destroy_response.
  unfold mbind, M_bind at 1. unfold get_world at 1. rewrite Hq.
  unfold mbind, M_bind at 1. unfold get_world at 1. rewrite Hr, Hc.
  unfold mbind, M_bind at 1. unfold mbind, M_bind at 1. rewrite Hpull.
  destruct w as [e fl dr fr rs q nx lg]. red_world in Hr.
  rewrite decide_False by done.
  unfold with_resp. unfold_M. rewrite Hr, Hrefs. red_world. rewrite Hc.
  unfold call_crfc, on_file_close, Libc.fclose, Libc.with_file.
  rewrite decide_False by done.
  unfold_M. rewrite lookup_insert_eq. red_world.
  eexists _, _. split; [done|]. red_world.
  by rewrite delete_insert_eq.
Qed.

(** X3: every way a file request can end closes its stream once: whether
    or not a response object can be built, whatever the file (it may
    refuse to seek or fail to read), whatever room the HTTP layer offers
    and whenever the client leaves, the request runs to its end, and what
    it adds to the log of libc calls is one [fopen] and one [fclose] of
    the same stream, which is no longer open afterwards. *)
Theorem file_stream_closed_once (conn : nat) (path : string) (w : world)
    (caps : list Z) (st : stat_t) (f : FILE) :
  fs_stat (w_env w) path = Some st →
  fs_fopen (w_env w) path = Some f →
  w_queued w !! conn = None →
  ∃ ret rep w',
    then_send (on_file_request conn path) conn caps w
    = Some ((ret, rep), w')
    ∧ w_log w' = w_log w ++ [Ev_fopen (w_fresh w); Ev_fclose (w_fresh w)]
    ∧ w_files w' = delete (w_fresh w) (w_files w).
Proof.
  intros Hst Hf Hq. unfold then_send. unfold mbind, M_bind at 1.
  destruct (mhd_alloc (w_env w)) eqn:Ha.
  - rewrite (on_file_request_found conn path w st f Hst Hf Ha Hq).
    destruct w as [e fl dr fr rs q nx lg]. red_world.
    set (w1 := World _ _ _ _ _ _ _ _).
    destruct (http_send_file_any w1 conn (S nx) nx MHD_HTTP_OK
                (st_size st `mod` 2 ^ 64) (32 * PAGE_SIZE e)
                (file_response e st nx) (opened f) caps)
      as (rep & w' & Hsend & Hfiles & Hlog); try done.
    + unfold w1. red_world. apply lookup_insert_eq.
    + unfold w1. red_world. apply lookup_insert_eq.
    + unfold w1. red_world. apply lookup_insert_eq.
    + exists MHD_YES, (Some rep), w'. unfold mbind, M_bind at 1.
      rewrite Hsend. split; [done|]. split.
      * rewrite Hlog. unfold w1. red_world. by rewrite <- app_assoc.
      * rewrite Hfiles. unfold w1. red_world. by rewrite delete_insert_eq.
  - rewrite (on_file_request_no_memory conn path w st f Hst Hf Ha).
    destruct w as [e fl dr fr rs q nx lg]. red_world. red_world in Hq.
    unfold mbind, M_bind at 1. rewrite http_send_nothing by done.
    exists MHD_NO, None. eexists. split; [done|]. red_world. split.
    + by rewrite <- app_assoc.
    + by rewrite delete_insert_eq.
Qed.

Lemma file_stream_closed_once_witness :
  ∃ ret rep w',
    then_send (on_file_request 0 "/tmp/x/a.txt") 0 [4; 4]
      (initial demo_env)
    = Some ((ret, rep), w')
    ∧ w_log w' = w_log (initial demo_env)
                 ++ [Ev_fopen (w_fresh (initial demo_env));
                     Ev_fclose (w_fresh (initial demo_env))]
    ∧ w_files w' = delete (w_fresh (initial demo_env))
                     (w_files (initial demo_env)).
Proof.
  apply (file_stream_closed_once 0 "/tmp/x/a.txt" (initial demo_env) [4; 4]
           {| st_isreg := true; st_size := 12 |} demo_file).
  - reflexivity.
  - reflexivity.
  - reflexivity.
Defined.

(** *** The theorems at work on [/tmp/x/] *)

Lemma dir_listing_streamed_witness :
  ∃ w', pull Fn_on_dir_read (SmPtr 0) MHD_SIZE_UNKNOWN (replicate 10 1024)
          0 [] (demo_stream 0 "/tmp/x/" demo_entries)
        = Some ((Completed, C.bytes (listing "/tmp/x/" demo_entries)), w').
Proof.
  apply (dir_listing_streamed (demo_stream 0 "/tmp/x/" demo_entries) 0 1
           "/tmp/x/" demo_entries (replicate 10 1024)).
  - split; reflexivity.
  - intros cap [-> _]%elem_of_replicate. lia.
  - intros cap [-> _]%elem_of_replicate.
    split; vm_compute; first [reflexivity | discriminate].
  - intros cap e [-> _]%elem_of_replicate He _.
    unfold demo_entries in He.
    repeat (apply elem_of_cons in He as [->|He]);
      [split; vm_compute; first [reflexivity | discriminate] ..|].
    by apply elem_of_nil in He.
  - vm_compute. lia.
Defined.

Lemma dir_phase_progress_witness :
  ∃ tr w',
    dir_read_calls (SmPtr 0)
      [(0, 1024); (0, 100); (0, 1024); (0, 1024); (0, 1024); (0, 1024);
       (0, 1024); (0, 1024); (0, 1024); (0, 100); (0, 1024); (0, 1024)]
      (demo_stream 0 "/tmp/x/" demo_entries) = Some (tr, w')
    ∧ well_phased 0
        [(0, 1024); (0, 100); (0, 1024); (0, 1024); (0, 1024); (0, 1024);
         (0, 1024); (0, 1024); (0, 1024); (0, 100); (0, 1024); (0, 1024)] tr.
Proof.
  apply (dir_phase_progress (demo_stream 0 "/tmp/x/" demo_entries) 0 1
           "/tmp/x/" demo_entries).
  split; reflexivity.
Defined.

Lemma on_file_read_cases_witness :
  on_file_read (FilePtr 0) 7 100 demo_open_file
  = Some ((5, C.bytes "world"),
          set_files <[0%nat :=
            {| f_data := C.bytes "hello, world"; f_seekable := true;
               f_fault := None; f_pos := 12; f_err := false |}]>
            demo_open_file)
  ∧ 0 < 5 <= 100 ∧ Z.of_nat (length (C.bytes "world")) = 5.
Proof.
  apply (on_file_read_cases demo_open_file 0 demo_file 7 100).
  - reflexivity.
  - vm_compute. split; discriminate.
Defined.

Lemma on_file_request_replies_witness :
  ∃ w', then_send (on_file_request 0 "/tmp/x/a.txt") 0 (replicate 12 1)
          (initial demo_env)
        = Some ((MHD_YES,
                 Some {| rp_status := MHD_HTTP_OK; rp_headers := [];
                         rp_length := 12; rp_outcome := Completed;
                         rp_body := C.bytes "hello, world" |}), w')
        ∧ Z.of_nat (length (C.bytes "hello, world")) = 12
        ∧ w_log w' = [Ev_fopen 0; Ev_fclose 0]
        ∧ w_files w' = delete 0%nat ∅.
Proof.
  apply (proj1 (on_file_request_replies 0 "/tmp/x/a.txt" (initial demo_env)
                  (replicate 12 1) eq_refl eq_refl)
           {| st_isreg := true; st_size := 12 |} demo_file).
  - reflexivity.
  - reflexivity.
  - reflexivity.
  - reflexivity.
  - reflexivity.
  - vm_compute. discriminate.
  - apply Forall_replicate. lia.
  - vm_compute. discriminate.
Defined.

(** *** The exits that do release the handle *)

Lemma on_file_close_null (w : world) : on_file_close NULL w = Some (tt, w).
Proof. done. Qed.

Lemma on_dir_close_null (w : world) : on_dir_close NULL w = Some (tt, w).
Proof. done. Qed.

Lemma on_dir_close_unopened (w : world) (a : nat) (s : dir_read_sm) :
  w_frames w !! a = Some s → dir s = NULL →
  on_dir_close (SmPtr a) w = Some (tt, w).
Proof.
  intros Hs Hd. unfold on_dir_close, load_sm.
  rewrite decide_False by done. unfold_M. rewrite Hs. red_world.
  by rewrite decide_True.
Qed.

(** X2: the close callbacks do nothing on a null closure, and
    [on_dir_close] does nothing on a closure whose directory was never
    opened. *)
Lemma close_callbacks_guarded (w : world) (a : nat) (s : dir_read_sm) :
  on_file_close NULL w = Some (tt, w)
  ∧ on_dir_close NULL w = Some (tt, w)
  ∧ (w_frames w !! a = Some s → dir s = NULL →
     on_dir_close (SmPtr a) w = Some (tt, w)).
Proof.
  split; [apply on_file_close_null|]. split; [apply on_dir_close_null|].
  apply on_dir_close_unopened.
Qed.

(** Where the handle is released: a file that is streamed to the end, a
    file whose client leaves at once, and both responders when no
    response object can be built, each close what they opened, once. *)
Lemma handles_released_elsewhere :
  (w_log ∘ snd) <$> serve 0 "/fs/tmp/x/a.txt" (replicate 12 1)
                      (initial demo_env)
  = Some [Ev_fopen 0; Ev_fclose 0]
  ∧ (w_log ∘ snd) <$> serve 0 "/fs/tmp/x/a.txt" [] (initial demo_env)
    = Some [Ev_fopen 0; Ev_fclose 0]
  ∧ (w_log ∘ snd) <$> serve 0 "/fs/tmp/x/a.txt" [] (initial demo_env_no_memory)
    = Some [Ev_fopen 0; Ev_fclose 0]
  ∧ (w_log ∘ snd) <$> serve 0 "/fs/tmp/x/" [] (initial demo_env_no_memory)
    = Some [Ev_opendir 1; Ev_closedir 1].
Proof. repeat split; vm_compute; reflexivity. Qed.

(** *** The exits on which no reply is queued *)

(** Run a handler on a world whose components are known. *)
Ltac run_step :=
  first [ progress red_world
        | rewrite decide_False by done
        | rewrite decide_True by done
        | rewrite lookup_insert_eq
        | rewrite insert_insert_eq
        | rewrite Z.eqb_refl
        | match goal with H : _ = _ |- _ => rewrite H end ].

Ltac run := unfold_M; repeat run_step.

Lemma delete_insert_sub `{Countable K} {A} (m : gmap K A) i x :
  delete i (<[i := x]> m) ⊆ m.
Proof. rewrite delete_insert_eq. apply delete_subseteq. Qed.

Ltac leftover :=
  repeat split; red_world;
  first [ done | apply delete_insert_sub
        | rewrite <- ?app_assoc; done ].

Ltac among :=
  intros; rewrite ?elem_of_cons, ?elem_of_nil in *; intuition auto.

Lemma slash_path (q : string) :
  (C.strlen (q +:+ "/") =? 0) || negb (last_is_slash (q +:+ "/")) = false.
Proof.
  rewrite last_is_slash_app. cbn [negb]. rewrite orb_false_r.
  apply Z.eqb_neq. rewrite strlen_app. unfold C.strlen. cbn [String.length].
  lia.
Qed.

Lemma queue_page_404_fails (conn : nat) (w : world) :
  cannot_reply conn w →
  ∃ w', queue_page_404 conn w = Some (MHD_NO, w')
        ∧ nothing_left w w' ∧ w_log w' = w_log w.
Proof.
  intros Hc. destruct w as [e fl dr fr rs q nx lg]. unfold cannot_reply in Hc.
  red_world in Hc.
  unfold queue_page_404, MHD_create_response_from_buffer, create_response,
    MHD_queue_response, MHD_destroy_response, with_resp.
  destruct (mhd_alloc e) eqn:Ha.
  - destruct Hc as [|[q0 Hq]]; [done|]. run.
    eexists. split; [done|]. leftover.
  - run. eexists. split; [done|]. leftover.
Qed.

Lemma on_file_request_fails (conn : nat) (path : string) (w : world) :
  cannot_reply conn w →
  ∃ w', on_file_request conn path w = Some (MHD_NO, w')
        ∧ nothing_left w w' ∧ opened_and_closed w w'.
Proof.
  intros Hc.
  destruct (fs_stat (w_env w) path) as [st|] eqn:Hst;
    [destruct (fs_fopen (w_env w) path) as [f|] eqn:Hf|].
  - destruct w as [e fl dr fr rs q nx lg]. unfold cannot_reply in Hc.
    red_world in Hc. red_world in Hst. red_world in Hf.
    unfold on_file_request, Libc.stat, Libc.fopen, Libc.fclose,
      Libc.with_file, MHD_create_response_from_callback, create_response,
      MHD_queue_response, MHD_destroy_response, with_resp.
    destruct (mhd_alloc e) eqn:Ha.
    + destruct Hc as [|[q0 Hq]]; [done|]. run.
      unfold call_crfc, on_file_close, Libc.fclose, Libc.with_file. run.
      eexists. split; [done|]. split; [leftover|].
      right. exists nx. left. red_world. by rewrite <- app_assoc.
    + run. eexists. split; [done|]. split; [leftover|].
      right. exists nx. left. red_world. by rewrite <- app_assoc.
  - rewrite on_file_request_not_found by auto.
    destruct (queue_page_404_fails conn w Hc) as (w' & Hrun & Hn & Hl).
    exists w'. split; [done|]. split; [done|]. by left.
  - rewrite on_file_request_not_found by auto.
    destruct (queue_page_404_fails conn w Hc) as (w' & Hrun & Hn & Hl).
    exists w'. split; [done|]. split; [done|]. by left.
Qed.

Lemma on_dir_request_fails (conn : nat) (path : string) (w : world) :
  cannot_reply conn w →
  ((C.strlen path =? 0) || negb (last_is_slash path) = true →
   C.strlen path + 5 <= PATH_MAX (w_env w)) →
  ∃ w', on_dir_request conn path w = Some (MHD_NO, w')
        ∧ nothing_left w w' ∧ opened_and_closed w w'.
Proof.
  intros Hc Hfit. destruct w as [e fl dr fr rs q nx lg].
  unfold cannot_reply in Hc. red_world in Hc. red_world in Hfit.
  unfold on_dir_request, enter_frame, leave_frame, on_dir_request_body.
  destruct ((C.strlen path =? 0) || negb (last_is_slash path)) eqn:Hs.
  - pose proof (strlen_redirect_target path) as Hlen.
    unfold MHD_create_response_from_buffer, create_response,
      MHD_add_response_header, MHD_queue_response, MHD_destroy_response,
      with_resp.
    specialize (Hfit eq_refl).
    unfold_M. unfold C.sprintf. rewrite Hlen.
    destruct (Z.leb_spec (C.strlen path + 4 + 1) (PATH_MAX e)); [|lia].
    destruct (mhd_alloc e) eqn:Ha.
    + destruct Hc as [|[q0 Hq]]; [done|].
      destruct (header_ok MHD_HTTP_HEADER_LOCATION _); run;
        (eexists; split; [done|]; split; [leftover|]; by left).
    + run. eexists. split; [done|]. split; [leftover|]. by left.
  - unfold Libc.opendir, Libc.closedir, Libc.with_dir, store_sm,
      queue_page_404, MHD_create_response_from_buffer,
      MHD_create_response_from_callback,
      create_response, MHD_queue_response, MHD_destroy_response, with_resp.
    destruct (fs_opendir e path) as [es|] eqn:Hd;
      destruct (mhd_alloc e) eqn:Ha.
    + destruct Hc as [|[q0 Hq]]; [done|]. run.
      unfold call_crfc, on_dir_close, load_sm, Libc.closedir, Libc.with_dir.
      run. cbn [dir]. run.
      eexists. split; [done|]. split; [leftover|].
      right. exists (S nx). right. red_world. by rewrite <- app_assoc.
    + run. eexists. split; [done|]. split; [leftover|].
      right. exists (S nx). right. red_world. by rewrite <- app_assoc.
    + destruct Hc as [|[q0 Hq]]; [done|]. run.
      eexists. split; [done|]. split; [leftover|]. by left.
    + run. eexists. split; [done|]. split; [leftover|]. by left.
Qed.

(** X5: when [fs_on_request] cannot queue a reply, because libmicrohttpd
    yields no response object or because the connection has a reply
    already, it returns [MHD_NO] and leaves nothing behind: the replies
    queued are as before, no response object, stream, directory or
    local has been added, and what it added to the log of libc calls is
    nothing, or one open followed by the close of the same handle.  (The
    redirect target must fit the [PATH_MAX] bytes of the local buffer,
    which [sprintf] fills before anything else.) *)
Theorem fs_on_request_failure_exits (conn : nat) (c1 c2 c3 : ascii)
    (rest : string) (w : world) :
  cannot_reply conn w →
  C.strlen rest + 5 <= PATH_MAX (w_env w) →
  ∃ w', fs_on_request conn (String c1 (String c2 (String c3 rest))) w
        = Some (MHD_NO, w')
        ∧ nothing_left w w' ∧ opened_and_closed w w'.
Proof.
  intros Hc Hfit. rewrite fs_on_request_unfold.
  destruct rest as [|c rest].
  - apply on_dir_request_fails; [done|]. intros Hs.
    by vm_compute in Hs.
  - destruct (fs_stat (w_env w) (String c rest)) as [st|].
    + destruct (st_isreg st).
      * by apply on_file_request_fails.
      * by apply on_dir_request_fails.
    + destruct (queue_page_404_fails conn w Hc) as (w' & Hrun & Hn & Hl).
      exists w'. split; [done|]. split; [done|]. by left.
Qed.

Lemma fs_on_request_failure_exits_witness :
  ∃ w', fs_on_request 0 "/fs/tmp/x/" (initial demo_env_no_memory)
        = Some (MHD_NO, w')
        ∧ nothing_left (initial demo_env_no_memory) w'
        ∧ opened_and_closed (initial demo_env_no_memory) w'.
Proof.
  apply (fs_on_request_failure_exits 0 "/" "f" "s" "/tmp/x/"
           (initial demo_env_no_memory)).
  - left. reflexivity.
  - vm_compute. discriminate.
Defined.

(** *** The directory that does not open *)

Lemma on_dir_request_unopened_spec (conn : nat) (path : string)
    (w : world) :
  (C.strlen path =? 0) || negb (last_is_slash path) = false →
  fs_opendir (w_env w) path = None →
  mhd_alloc (w_env w) = true →
  w_queued w !! conn = None →
  on_dir_request conn path w =
    Some (MHD_YES,
          set_frames (delete (w_fresh w))
            (set_queued <[conn := (MHD_HTTP_NOT_FOUND, S (w_fresh w))]>
               (set_resps <[S (w_fresh w) := page_404_response]>
                  (set_frames <[w_fresh w :=
                     {| path := EmptyString; dir := NULL; state := 0 |}]>
                     (bump_fresh (bump_fresh w)))))).
Proof.
  intros Hs Hd Ha Hq. destruct w as [e fl dr fr rs q nx lg].
  red_world in Hd. red_world in Ha. red_world in Hq.
  unfold on_dir_request, enter_frame, leave_frame, on_dir_request_body.
  rewrite Hs.
  unfold Libc.opendir, queue_page_404, MHD_create_response_from_buffer,
    create_response, MHD_queue_response, MHD_destroy_response, with_resp.
  run. done.
Qed.

(** X4: a directory request whose path ends in a separator but whose
    directory [opendir] cannot open is answered, when libmicrohttpd
    yields a response object and the connection has no reply yet, with
    status 404 and the not-found page; no directory or stream is open
    afterwards and no libc open or close call was logged. *)
Theorem on_dir_request_open_fails (conn : nat) (dirname : string)
    (w : world) :
  let path := dirname +:+ "/" in
  fs_opendir (w_env w) path = None →
  mhd_alloc (w_env w) = true →
  w_queued w !! conn = None →
  ∃ w', on_dir_request conn path w = Some (MHD_YES, w')
        ∧ queued conn w' = Some (MHD_HTTP_NOT_FOUND, page_404_response)
        ∧ w_dirs w' = w_dirs w ∧ w_files w' = w_files w
        ∧ w_log w' = w_log w.
Proof.
  intros path Hd Ha Hq.
  rewrite (on_dir_request_unopened_spec conn path w
             (slash_path dirname) Hd Ha Hq).
  destruct w as [e fl dr fr rs q nx lg].
  eexists. split; [done|]. unfold queued. red_world.
  by rewrite !lookup_insert_eq.
Qed.

Lemma on_dir_request_open_fails_witness :
  ∃ w', on_dir_request 0 "/root/" (initial demo_env) = Some (MHD_YES, w')
        ∧ queued 0 w' = Some (MHD_HTTP_NOT_FOUND, page_404_response)
        ∧ w_dirs w' = w_dirs (initial demo_env)
        ∧ w_files w' = w_files (initial demo_env)
        ∧ w_log w' = w_log (initial demo_env).
Proof.
  apply (on_dir_request_open_fails 0 "/root" (initial demo_env));
    reflexivity.
Defined.

(** *** Every request that can be answered is answered *)

Lemma replied_weaken (conn : nat) (l l' : list Z) (w' : world) :
  (∀ st, st ∈ l → st ∈ l') → replied conn l w' → replied conn l' w'.
Proof. intros Hl (st & r & Hq & Hr & Hin). exists st, r. auto. Qed.

Lemma queue_page_404_answers (conn : nat) (w : world) :
  mhd_alloc (w_env w) = true → w_queued w !! conn = None →
  ∃ w', queue_page_404 conn w = Some (MHD_YES, w')
        ∧ replied conn [MHD_HTTP_NOT_FOUND] w'.
Proof.
  intros Ha Hq.
  destruct (queue_page_404_queues conn w Ha Hq) as (w' & Hrun & Hqd & _).
  exists w'. split; [done|]. eexists _, _. split; [done|].
  split; [done|]. among.
Qed.

Lemma on_file_request_answers (conn : nat) (path : string) (w : world) :
  mhd_alloc (w_env w) = true → w_queued w !! conn = None →
  ∃ w', on_file_request conn path w = Some (MHD_YES, w')
        ∧ replied conn [MHD_HTTP_OK; MHD_HTTP_NOT_FOUND] w'.
Proof.
  intros Ha Hq.
  destruct (fs_stat (w_env w) path) as [st|] eqn:Hst;
    [destruct (fs_fopen (w_env w) path) as [f|] eqn:Hf|].
  - rewrite (on_file_request_found conn path w st f Hst Hf Ha Hq).
    destruct w as [e fl dr fr rs q nx lg].
    eexists. split; [done|]. eexists _, _. unfold queued. red_world.
    rewrite !lookup_insert_eq. split; [done|]. split; [done|]. among.
  - rewrite on_file_request_not_found by auto.
    destruct (queue_page_404_answers conn w Ha Hq) as (w' & Hrun & Hrep).
    exists w'. split; [done|]. revert Hrep. apply replied_weaken. among.
  - rewrite on_file_request_not_found by auto.
    destruct (queue_page_404_answers conn w Ha Hq) as (w' & Hrun & Hrep).
    exists w'. split; [done|]. revert Hrep. apply replied_weaken. among.
Qed.

Lemma on_dir_request_slash_answers (conn : nat) (path : string) (w : world) :
  (C.strlen path =? 0) || negb (last_is_slash path) = false →
  mhd_alloc (w_env w) = true → w_queued w !! conn = None →
  ∃ w', on_dir_request conn path w = Some (MHD_YES, w')
        ∧ replied conn [MHD_HTTP_OK; MHD_HTTP_NOT_FOUND] w'.
Proof.
  intros Hs Ha Hq. destruct (fs_opendir (w_env w) path) as [es|] eqn:Hd.
  - rewrite (on_dir_request_listing_spec conn path w es Hs Hd Ha Hq).
    destruct w as [e fl dr fr rs q nx lg].
    eexists. split; [done|]. eexists _, _. unfold queued. red_world.
    rewrite !lookup_insert_eq. split; [done|]. split; [done|]. among.
  - rewrite (on_dir_request_unopened_spec conn path w Hs Hd Ha Hq).
    destruct w as [e fl dr fr rs q nx lg].
    eexists. split; [done|]. eexists _, _. unfold queued. red_world.
    rewrite !lookup_insert_eq. split; [done|]. split; [done|]. among.
Qed.

Lemma on_dir_request_answers (conn : nat) (path : string) (w : world) :
  ((C.strlen path =? 0) || negb (last_is_slash path) = true →
   C.strlen path + 5 <= PATH_MAX (w_env w)) →
  mhd_alloc (w_env w) = true → w_queued w !! conn = None →
  ∃ w', on_dir_request conn path w = Some (MHD_YES, w')
        ∧ replied conn [MHD_HTTP_OK; MHD_HTTP_MOVED_PERMANENTLY;
                        MHD_HTTP_NOT_FOUND] w'.
Proof.
  intros Hfit Ha Hq.
  destruct ((C.strlen path =? 0) || negb (last_is_slash path)) eqn:Hs.
  - rewrite (on_dir_request_redirect_spec conn path w Hs (Hfit eq_refl) Ha Hq).
    destruct w as [e fl dr fr rs q nx lg].
    eexists. split; [done|]. eexists _, _. unfold queued. red_world.
    rewrite !lookup_insert_eq. split; [done|]. split; [done|]. among.
  - destruct (on_dir_request_slash_answers conn path w Hs Ha Hq)
      as (w' & Hrun & Hrep).
    exists w'. split; [done|]. revert Hrep. apply replied_weaken. among.
Qed.

(** X6: when libmicrohttpd yields a response object and the connection
    has no reply yet, [fs_on_request] answers every URL (whose redirect
    target would fit the local buffer): it returns [MHD_YES] and leaves
    one reply queued on the connection, with status 200, 301 or 404, to
    which the connection alone holds a reference, the handler having
    dropped its own. *)
Theorem fs_on_request_answers (conn : nat) (c1 c2 c3 : ascii)
    (rest : string) (w : world) :
  mhd_alloc (w_env w) = true →
  w_queued w !! conn = None →
  C.strlen rest + 5 <= PATH_MAX (w_env w) →
  ∃ w', fs_on_request conn (String c1 (String c2 (String c3 rest))) w
        = Some (MHD_YES, w')
        ∧ replied conn [MHD_HTTP_OK; MHD_HTTP_MOVED_PERMANENTLY;
                        MHD_HTTP_NOT_FOUND] w'.
Proof.
  intros Ha Hq Hfit. rewrite fs_on_request_unfold.
  destruct rest as [|c rest].
  - apply on_dir_request_answers; [|done..]. intros Hs. by vm_compute in Hs.
  - destruct (fs_stat (w_env w) (String c rest)) as [st|].
    + destruct (st_isreg st).
      * destruct (on_file_request_answers conn (String c rest) w Ha Hq)
          as (w' & Hrun & Hrep).
        exists w'. split; [done|]. revert Hrep. apply replied_weaken. among.
      * by apply on_dir_request_answers.
    + destruct (queue_page_404_answers conn w Ha Hq) as (w' & Hrun & Hrep).
      exists w'. split; [done|]. revert Hrep. apply replied_weaken. among.
Qed.

Lemma fs_on_request_answers_witness :
  ∃ w', fs_on_request 0 "/fs/tmp/x" (initial demo_env) = Some (MHD_YES, w')
        ∧ replied 0 [MHD_HTTP_OK; MHD_HTTP_MOVED_PERMANENTLY;
                     MHD_HTTP_NOT_FOUND] w'.
Proof.
  apply (fs_on_request_answers 0 "/" "f" "s" "/tmp/x" (initial demo_env)).
  - reflexivity.
  - reflexivity.
  - vm_compute. discriminate.
Defined.

(** *** A path that ends in a separator is not redirected *)

Lemma fs_on_request_slash (conn : nat) (q : string) (w : world) :
  w_queued w !! conn = None →
  ∃ ret w', fs_on_request conn ("/fs" +:+ q +:+ "/") w = Some (ret, w')
            ∧ ∀ st r, queued conn w' = Some (st, r) →
                      st = MHD_HTTP_OK ∨ st = MHD_HTTP_NOT_FOUND.
Proof.
  intros Hq.
  change ("/fs" +:+ q +:+ "/")
    with (String "/" (String "f" (String "s" (q +:+ "/")))).
  destruct (mhd_alloc (w_env w)) eqn:Ha.
  - assert (∃ w', fs_on_request conn
                    (String "/" (String "f" (String "s" (q +:+ "/")))) w
                  = Some (MHD_YES, w')
                  ∧ replied conn [MHD_HTTP_OK; MHD_HTTP_NOT_FOUND] w')
      as (w' & Hrun & st' & r' & Hqd & _ & Hin).
    { rewrite fs_on_request_unfold.
      pose proof (slash_path q) as Hs.
      destruct (q +:+ "/") as [|c rest] eqn:E; [by destruct q|].
      destruct (fs_stat (w_env w) (String c rest)) as [st|].
      - destruct (st_isreg st).
        + by apply on_file_request_answers.
        + by apply on_dir_request_slash_answers.
      - destruct (queue_page_404_answers conn w Ha Hq) as (w' & Hrun & Hrep).
        exists w'. split; [done|]. revert Hrep. apply replied_weaken.
        among. }
    exists MHD_YES, w'. split; [done|]. intros st r. rewrite Hqd.
    intros [= <- <-]. revert Hin. among.
  - assert (∃ w', fs_on_request conn
                    (String "/" (String "f" (String "s" (q +:+ "/")))) w
                  = Some (MHD_NO, w') ∧ nothing_left w w')
      as (w' & Hrun & Hn & _).
    { rewrite fs_on_request_unfold.
      pose proof (slash_path q) as Hs.
      assert (Hc : cannot_reply conn w) by by left.
      destruct (q +:+ "/") as [|c rest] eqn:E; [by destruct q|].
      destruct (fs_stat (w_env w) (String c rest)) as [st|].
      - destruct (st_isreg st).
        + destruct (on_file_request_fails conn (String c rest) w Hc)
            as (w' & ? & ? & ?). by exists w'.
        + destruct (on_dir_request_fails conn (String c rest) w Hc)
            as (w' & ? & ? & ?); [by rewrite Hs|]. by exists w'.
      - destruct (queue_page_404_fails conn w Hc) as (w' & ? & ? & ?).
        by exists w'. }
    exists MHD_NO, w'. split; [done|]. intros st r. unfold queued.
    by rewrite Hn, Hq.
Qed.

(** X7: a redirect is followed once.  The target that [on_dir_request]
    puts in the Location header for [path], requested in turn, is never
    answered with a second redirect: on a connection with no reply yet,
    [fs_on_request] on that target is defined and what it queues, if
    anything, has status 200 or 404. *)
Theorem redirect_is_followed_once (conn : nat) (path loc : string)
    (w : world) :
  r_headers (redirect_response path) = [(MHD_HTTP_HEADER_LOCATION, loc)] →
  w_queued w !! conn = None →
  ∃ ret w', fs_on_request conn loc w = Some (ret, w')
            ∧ ∀ st r, queued conn w' = Some (st, r) →
                      st = MHD_HTTP_OK ∨ st = MHD_HTTP_NOT_FOUND.
Proof.
  intros [= <-] Hq. by apply fs_on_request_slash.
Qed.

Lemma redirect_is_followed_once_witness :
  ∃ ret w', fs_on_request 0 "/fs/tmp/x/" (initial demo_env) = Some (ret, w')
            ∧ ∀ st r, queued 0 w' = Some (st, r) →
                      st = MHD_HTTP_OK ∨ st = MHD_HTTP_NOT_FOUND.
Proof.
  apply (redirect_is_followed_once 0 "/tmp/x" "/fs/tmp/x/" (initial demo_env));
    reflexivity.
Defined.

(** *** Calls of the directory reader that offer too little room *)

Lemma pull_dir_no_room (cls : ptr) (cap : Z) (caps : list Z) (pos : Z)
    (sent : list ascii) (w : world) :
  0 <= cap < 512 →
  pull Fn_on_dir_read cls MHD_SIZE_UNKNOWN (cap :: caps) pos sent w
  = pull Fn_on_dir_read cls MHD_SIZE_UNKNOWN caps pos sent w.
Proof.
  intros Hcap. rewrite pull_unknown_step. cbn [call_crc].
  rewrite on_dir_read_no_room by lia.
  change (0 =? MHD_CONTENT_READER_END_OF_STREAM) with false. cbn iota.
  rewrite Z.ltb_irrefl. destruct (Z.ltb_spec cap 0); [lia|]. cbn [orb].
  by rewrite Z.add_0_r, app_nil_r.
Qed.

(** X8: calls of the directory reader that offer less than 512 bytes are
    as good as not made.  Whatever the closure and the world, pulling a
    listing with a given run of buffer sizes ends the same way, with the
    same body and the same world, as pulling it with only those sizes of
    the run that are at least 512. *)
Theorem undersized_calls_skipped (cls : ptr) (caps : list Z) (pos : Z)
    (sent : list ascii) (w : world) :
  Forall (λ cap, 0 <= cap) caps →
  pull Fn_on_dir_read cls MHD_SIZE_UNKNOWN caps pos sent w
  = pull Fn_on_dir_read cls MHD_SIZE_UNKNOWN
      (filter (λ cap, 512 <= cap) caps) pos sent w.
Proof.
  intros Hcaps. revert pos sent w.
  induction Hcaps as [|cap caps Hcap Hcaps IH]; intros pos sent w; [done|].
  rewrite filter_cons. destruct (decide (512 <= cap)) as [Hbig|Hsmall].
  - rewrite !pull_unknown_step.
    destruct (call_crc Fn_on_dir_read cls pos cap w) as [[[n buf] w1]|];
      [|done].
    destruct (n =? MHD_CONTENT_READER_END_OF_STREAM); [done|].
    destruct ((n <? 0) || (cap <? n)); [done|]. apply IH.
  - rewrite pull_dir_no_room by lia. apply IH.
Qed.

Lemma undersized_calls_skipped_witness :
  pull Fn_on_dir_read (SmPtr 0) MHD_SIZE_UNKNOWN
    [100; 1024; 0; 1024; 511; 1024] 0 []
    (demo_stream 0 "/tmp/x/" demo_entries)
  = pull Fn_on_dir_read (SmPtr 0) MHD_SIZE_UNKNOWN
      (filter (λ cap, 512 <= cap) [100; 1024; 0; 1024; 511; 1024]) 0 []
      (demo_stream 0 "/tmp/x/" demo_entries).
Proof.
  apply (undersized_calls_skipped (SmPtr 0) [100; 1024; 0; 1024; 511; 1024]
           0 [] (demo_stream 0 "/tmp/x/" demo_entries)).
  repeat constructor; lia.
Defined.

(** *** A file that is not what [stat] said *)

Lemma readable_le (f : FILE) : (Libc.readable f <= length (f_data f))%nat.
Proof. unfold Libc.readable. destruct (f_fault f); lia. Qed.

Lemma deliverable_le (f : FILE) : (deliverable f <= length (f_data f))%nat.
Proof.
  unfold deliverable. pose proof (readable_le f). destruct (f_seekable f); lia.
Qed.

Lemma deliverable_same (f g : FILE) :
  same_file f g → deliverable f = deliverable g.
Proof.
  intros (Hd & Hf & Hs). unfold deliverable, Libc.readable.
  by rewrite Hd, Hf, Hs.
Qed.

Lemma pull_file_prefix (id : nat) (f0 : FILE) (N : Z) :
  0 <= N <= C.SSIZE_MAX →
  ∀ (caps : list Z) (w : world) (f : FILE) (pos : Z),
    w_files w !! id = Some f → same_file f f0 →
    0 <= pos <= N `min` Z.of_nat (deliverable f0) →
    Forall (λ cap, 1 <= cap) caps →
    N `min` Z.of_nat (deliverable f0) - pos < Z.of_nat (length caps) →
    ∃ f', pull Fn_on_file_read (FilePtr id) N caps pos
            (take (Z.to_nat pos) (f_data f0)) w
          = Some ((if N <=? Z.of_nat (deliverable f0)
                   then Completed else Failed,
                   take (Z.to_nat (N `min` Z.of_nat (deliverable f0)))
                     (f_data f0)),
                  set_files <[id := f']> w).
Proof.
  intros HN.
  assert (Hk : N ≠ MHD_SIZE_UNKNOWN).
  { unfold MHD_SIZE_UNKNOWN, C.UINT64_MAX, C.SSIZE_MAX in *. lia. }
  set (R := Z.of_nat (deliverable f0)).
  induction caps as [|cap caps IH]; intros w f pos Hf Hsame Hpos Hcaps Hlen.
  { cbn [length] in Hlen. lia. }
  destruct (Z.eq_dec pos N) as [->|Hne].
  { exists f. rewrite pull_known_done by done.
    rewrite set_files_insert_id by done.
    destruct (Z.leb_spec N R); [|lia]. by rewrite Z.min_l by lia. }
  apply Forall_cons in Hcaps as [Hcap Hcaps].
  pose proof (deliverable_same f f0 Hsame) as HR.
  destruct Hsame as (Hdata & Hfault & Hseek).
  set (max := cap `min` (N - pos)).
  assert (Hmax : 1 <= max <= N - pos) by (unfold max; lia).
  rewrite pull_known_step by done. cbn [call_crc]. fold max.
  rewrite (on_file_read_spec w id f pos max Hf).
  unfold C.to_long. rewrite to_signed_small
    by (unfold C.SSIZE_MAX in *; lia).
  unfold Libc.seek_set.
  destruct (f_seekable f) eqn:Hsk; cbn [andb].
  - destruct (Z.leb_spec 0 pos); [|lia].
    set (f1 := Build_FILE _ _ _ _ _).
    assert (HR1 : Libc.readable f1 = deliverable f0).
    { rewrite <- HR. unfold deliverable. by rewrite Hsk. }
    unfold Libc.read. rewrite HR1. cbn [f_pos f_data f_fault f_seekable f1].
    cbv zeta. cbn [fst snd f_err].
    set (n := (Z.to_nat max `min` (deliverable f0 - Z.to_nat pos))%nat).
    destruct (Z.eq_dec pos R) as [HposR|HposR].
    + assert (n = 0%nat) as -> by (unfold n, R in *; lia).
      change (Z.of_nat 0 =? 0) with true. cbv iota.
      destruct (Z.leb_spec N R); [lia|].
      rewrite Z.min_r by lia. rewrite <- HposR.
      match goal with
      | |- context [set_files <[id := ?f2]> w] => set (f2' := f2)
      end.
      exists f2'. by destruct (f_err f1 || _).
    + assert (Hn : (1 <= n)%nat) by (unfold n, R in *; lia).
      assert (Hn' : Z.of_nat n <= max ∧ Z.of_nat n <= R - pos)
        by (unfold n, R in *; lia).
      destruct (Z.eqb_spec (Z.of_nat n) 0); [lia|].
      unfold C.to_ssize_t. rewrite to_signed_small
        by (unfold C.SSIZE_MAX in *; lia).
      destruct (Z.eqb_spec (Z.of_nat n) MHD_CONTENT_READER_END_OF_STREAM)
        as [E|_]; [unfold MHD_CONTENT_READER_END_OF_STREAM in E; lia|].
      destruct (Z.ltb_spec (Z.of_nat n) 0); [lia|].
      destruct (Z.ltb_spec max (Z.of_nat n)); [lia|]. cbn [orb].
      rewrite Nat2Z.id, take_take, Nat.min_id, Hdata, take_take_drop.
      replace (Z.to_nat pos + n)%nat with (Z.to_nat (pos + Z.of_nat n))
        by lia.
      match goal with
      | |- context [set_files <[id := ?f2]> w] => set (f2' := f2)
      end.
      destruct (IH (set_files <[id := f2']> w) f2' (pos + Z.of_nat n))
        as [f' Hf'].
      * rewrite files_set_files. apply lookup_insert_eq.
      * by repeat split.
      * fold R. lia.
      * done.
      * cbn [length] in Hlen. fold R in Hlen |- *. lia.
      * exists f'. rewrite Hf'. by rewrite set_files_insert_insert.
  - assert (R = 0) as HR0.
    { unfold R. rewrite <- HR. unfold deliverable. by rewrite Hsk. }
    exists f. rewrite set_files_insert_id by done.
    change (MHD_CONTENT_READER_END_WITH_ERROR
            =? MHD_CONTENT_READER_END_OF_STREAM) with false. cbv iota.
    change (MHD_CONTENT_READER_END_WITH_ERROR <? 0) with true. cbn [orb].
    destruct (Z.leb_spec N R); [lia|].
    rewrite Z.min_r by lia. assert (pos = 0) as -> by lia. by rewrite HR0.
Qed.

Lemma http_send_file_prefix (w : world) (conn rid id : nat) (status N bs : Z)
    (r : MHD_Response) (f : FILE) (caps : list Z) :
  w_queued w !! conn = Some (status, rid) →
  w_resps w !! rid = Some r →
  r_content r = FromCallback N bs Fn_on_file_read (FilePtr id)
                  Fn_on_file_close →
  r_refs r = 1%nat →
  w_files w !! id = Some f →
  0 <= N <= C.SSIZE_MAX →
  Forall (λ cap, 1 <= cap) caps →
  N `min` Z.of_nat (deliverable f) < Z.of_nat (length caps) →
  ∃ w', http_send conn caps w
        = Some (Some {| rp_status := status; rp_headers := r_headers r;
                        rp_length := N;
                        rp_outcome := if N <=? Z.of_nat (deliverable f)
                                      then Completed else Failed;
                        rp_body :=
                          take (Z.to_nat (N `min` Z.of_nat (deliverable f)))
                            (f_data f) |}, w')
        ∧ w_log w' = w_log w ++ [Ev_fclose id].
Proof.
  intros Hq Hr Hc Hrefs Hf HN Hcaps Hlen.
  destruct (pull_file_prefix id f N HN caps w f 0 Hf) as [f' Hpull];
    [done|pose proof (deliverable_le f); lia|done|lia|].
  change (take (Z.to_nat 0) (f_data f)) with (@nil ascii) in Hpull.
  unfold http_send, with_resp, MHD_destroy_response.
  unfold mbind, M_bind at 1. unfold get_world at 1. rewrite Hq.
  unfold mbind, M_bind at 1. unfold get_world at 1. rewrite Hr, Hc.
  unfold mbind, M_bind at 1. unfold mbind, M_bind at 1. rewrite Hpull.
  destruct w as [e fl dr fr rs q nx lg]. red_world in Hr.
  rewrite decide_False by done.
  unfold with_resp. unfold_M. rewrite Hr, Hrefs. red_world. rewrite Hc.
  unfold call_crfc, on_file_close, Libc.fclose, Libc.with_file.
  rewrite decide_False by done.
  unfold_M. rewrite lookup_insert_eq. red_world.
  eexists. split; done.
Qed.

(** X9: the body of a file reply is a prefix of the file, whatever the
    file has become since [stat].  With [N] the size [stat] reported and
    [R] the offset up to which the stream can be read (the end of the
    file, or where reading fails; 0 for a stream that cannot seek), the
    reply declares [N] bytes and, sent with room for at least one byte
    per call, carries exactly the first [min N R] bytes of the file: it
    completes when [N <= R] (a file that grew is cut at [N]) and the
    stream fails when [N > R] (a file that shrank, a read error); the
    stream is closed in either case. *)
Theorem file_reply_is_prefix (conn : nat) (path : string) (w : world)
    (caps : list Z) (st : stat_t) (f : FILE) :
  fs_stat (w_env w) path = Some st →
  fs_fopen (w_env w) path = Some f →
  mhd_alloc (w_env w) = true →
  w_queued w !! conn = None →
  0 <= st_size st <= C.SSIZE_MAX →
  Forall (λ cap, 1 <= cap) caps →
  st_size st `min` Z.of_nat (deliverable f) < Z.of_nat (length caps) →
  ∃ w', then_send (on_file_request conn path) conn caps w
        = Some ((MHD_YES,
                 Some {| rp_status := MHD_HTTP_OK; rp_headers := [];
                         rp_length := st_size st;
                         rp_outcome :=
                           if st_size st <=? Z.of_nat (deliverable f)
                           then Completed else Failed;
                         rp_body :=
                           take (Z.to_nat (st_size st
                                           `min` Z.of_nat (deliverable f)))
                             (f_data f) |}), w')
        ∧ w_log w' = w_log w ++ [Ev_fopen (w_fresh w); Ev_fclose (w_fresh w)].
Proof.
  intros Hst Hf Ha Hq Hsize Hcaps Hlen.
  unfold then_send. unfold mbind, M_bind at 1.
  rewrite (on_file_request_found conn path w st f Hst Hf Ha Hq).
  destruct w as [e fl dr fr rs q nx lg]. red_world.
  set (w1 := World _ _ _ _ _ _ _ _).
  assert (Hmod : st_size st `mod` 2 ^ 64 = st_size st).
  { apply Z.mod_small. unfold C.SSIZE_MAX in Hsize. lia. }
  destruct (http_send_file_prefix w1 conn (S nx) nx MHD_HTTP_OK
              (st_size st) (32 * PAGE_SIZE e)
              (file_response e st nx) (opened f) caps)
    as (w' & Hsend & Hlog); try done.
  - unfold w1. red_world. apply lookup_insert_eq.
  - unfold w1. red_world. apply lookup_insert_eq.
  - unfold file_response. cbn [r_content]. by rewrite Hmod.
  - unfold w1. red_world. apply lookup_insert_eq.
  - exists w'. unfold mbind, M_bind at 1. rewrite Hsend.
    split; [done|]. rewrite Hlog. unfold w1. red_world.
    by rewrite <- app_assoc.
Qed.

Lemma file_reply_is_prefix_witness :
  ∃ w', then_send (on_file_request 0 "/tmp/x/a.txt") 0 (replicate 6 4)
          (initial demo_env_cut)
        = Some ((MHD_YES,
                 Some {| rp_status := MHD_HTTP_OK; rp_headers := [];
                         rp_length := 12; rp_outcome := Failed;
                         rp_body := C.bytes "hello" |}), w')
        ∧ w_log w' = [Ev_fopen 0; Ev_fclose 0].
Proof.
  apply (file_reply_is_prefix 0 "/tmp/x/a.txt" (initial demo_env_cut)
           (replicate 6 4) {| st_isreg := true; st_size := 12 |}
           {| f_data := C.bytes "hello"; f_seekable := true;
              f_fault := None; f_pos := 0; f_err := false |}).
  - reflexivity.
  - reflexivity.
  - reflexivity.
  - reflexivity.
  - vm_compute. split; discriminate.
  - apply Forall_replicate. lia.
  - vm_compute. reflexivity.
Defined.

(** X10: the file reader reads at the offset it is given.  On a stream
    that can seek and reads without fault, a call with an offset [pos]
    inside the file and room [max > 0] returns [min max (size - pos)]
    and stores exactly the bytes of the file from [pos] on, as many,
    wherever the stream stood before and whatever its error indicator;
    the file behind the stream is the same afterwards. *)
Theorem on_file_read_at (w : world) (id : nat) (f : FILE) (pos max : Z) :
  w_files w !! id = Some f →
  f_seekable f = true → f_fault f = None →
  0 <= pos < Z.of_nat (length (f_data f)) →
  0 < max <= C.SSIZE_MAX →
  Z.of_nat (length (f_data f)) <= C.SSIZE_MAX →
  ∃ f',
    on_file_read (FilePtr id) pos max w
    = Some ((max `min` (Z.of_nat (length (f_data f)) - pos),
             take (Z.to_nat max) (drop (Z.to_nat pos) (f_data f))),
            set_files <[id := f']> w)
    ∧ same_file f' f.
Proof.
  intros Hf Hseek Hfault Hpos Hmax Hlen.
  rewrite (on_file_read_spec w id f pos max Hf).
  unfold C.to_long. rewrite to_signed_small by lia.
  unfold Libc.seek_set. rewrite Hseek.
  destruct (Z.leb_spec 0 pos); [|lia]. cbn [andb].
  unfold Libc.read, Libc.readable.
  cbn [f_pos f_data f_fault f_seekable f_err fst snd]. rewrite Hfault.
  cbv zeta. cbn [fst snd f_err].
  set (n := (Z.to_nat max `min` (length (f_data f) - Z.to_nat pos))%nat).
  assert (Hn : Z.of_nat n = max `min` (Z.of_nat (length (f_data f)) - pos))
    by (unfold n; lia).
  destruct (Z.eqb_spec (Z.of_nat n) 0); [lia|].
  unfold C.to_ssize_t. rewrite to_signed_small by lia.
  match goal with
  | |- context [set_files <[id := ?f2]> w] => exists f2
  end.
  split; [|by repeat split].
  f_equal. f_equal. rewrite Hn. f_equal.
  unfold n. destruct (Nat.min_spec (Z.to_nat max)
                        (length (f_data f) - Z.to_nat pos))
    as [[_ ->]|[Hle ->]]; [done|].
  rewrite !take_ge; [done|rewrite length_drop; lia|by rewrite length_drop].
Qed.

Lemma on_file_read_at_witness :
  ∃ f',
    on_file_read (FilePtr 0) 7 3 demo_open_file
    = Some ((3 `min` (Z.of_nat (length (f_data demo_file)) - 7),
             take (Z.to_nat 3) (drop (Z.to_nat 7) (f_data demo_file))),
            set_files <[0%nat := f']> demo_open_file)
    ∧ same_file f' demo_file.
Proof.
  apply (on_file_read_at demo_open_file 0 demo_file 7 3).
  - reflexivity.
  - reflexivity.
  - reflexivity.
  - vm_compute. split; [discriminate|reflexivity].
  - vm_compute. split; [reflexivity|discriminate].
  - vm_compute. discriminate.
Defined.

(** *** The client: paths *)

Lemma endsWith_cons (c c' : ascii) (p : string) :
  Js.endsWith (String c (String c' p)) "/" = Js.endsWith (String c' p) "/".
Proof.
  unfold Js.endsWith. cbn [String.length Nat.leb andb Nat.sub].
  by rewrite Nat.sub_0_r.
Qed.

Lemma endsWith_slash (p : string) : Js.endsWith p "/" = last_is_slash p.
Proof.
  induction p as [|c p IH]; [done|]. destruct p as [|c' p].
  - change (last_is_slash (String c EmptyString)) with (Ascii.eqb c "/").
    unfold Js.endsWith. cbn [String.length Nat.leb andb Nat.sub].
    cbn [String.substring String.eqb]. by destruct (Ascii.eqb c "/").
  - by rewrite endsWith_cons, last_is_slash_cons.
Qed.

Lemma with_separator_slash (p : string) :
  ∃ q, ApiClient.with_separator p = q +:+ "/".
Proof.
  unfold ApiClient.with_separator. rewrite endsWith_slash.
  destruct (last_is_slash p) eqn:E; cbn [negb].
  - by apply last_is_slash_inv.
  - by exists p.
Qed.

Lemma startsWith_slash (p : string) :
  Js.startsWith p "/" = true → ∃ q, p = String "/" q.
Proof.
  unfold Js.startsWith. destruct p as [|c p]; [done|].
  cbn [String.prefix].
  destruct (ascii_dec "/" c) as [<-|]; [|done]. by exists p.
Qed.

(** X15: the listing request of the client is never redirected.  The
    target [fsListDir] asks for is [/fs] and the path, with a separator
    appended unless the path ends in one; handed to [fs_on_request] as
    it stands, on a connection with no reply yet, it is defined and what
    it queues, if anything, has status 200 or 404, never 301. *)
Theorem listing_request_not_redirected (conn : nat) (p : string) (w : world) :
  w_queued w !! conn = None →
  ∃ ret w',
    fs_on_request conn ("/fs" +:+ ApiClient.with_separator p) w
    = Some (ret, w')
    ∧ ∀ st r, queued conn w' = Some (st, r) →
              st = MHD_HTTP_OK ∨ st = MHD_HTTP_NOT_FOUND.
Proof.
  intros Hq. destruct (with_separator_slash p) as [q ->].
  by apply fs_on_request_slash.
Qed.

Lemma listing_request_not_redirected_witness :
  ∃ ret w',
    fs_on_request 0 ("/fs" +:+ ApiClient.with_separator "/tmp/x")
      (initial demo_env)
    = Some (ret, w')
    ∧ ∀ st r, queued 0 w' = Some (st, r) →
              st = MHD_HTTP_OK ∨ st = MHD_HTTP_NOT_FOUND.
Proof.
  apply (listing_request_not_redirected 0 "/tmp/x" (initial demo_env)).
  reflexivity.
Defined.

(** X16: a directory asked for as a file is redirected.  When the path
    passes the guard of [fsGetFileStream] and [fsGetFileText] (it begins
    with a separator and does not end in one), either fetches [/fs] and
    the path; if the path is a directory (what [stat] reports is no
    regular file), [fs_on_request] on that target answers, when it can
    queue a reply and the target fits the local buffer, with status 301,
    not with the file's bytes and not with a listing; the reply bears
    Location, the same target with a separator appended, when the path
    holds no CR or LF, and no header when it does (libmicrohttpd refuses
    the header, and the handler does not look at the result). *)
Theorem directory_fetched_as_file (conn : nat) (p : string) (w : world)
    (st : stat_t) (b : ApiClient.browser) :
  Js.endsWith p "/" || negb (Js.startsWith p "/") = false →
  fs_stat (w_env w) p = Some st → st_isreg st = false →
  C.strlen p + 5 <= PATH_MAX (w_env w) →
  mhd_alloc (w_env w) = true →
  w_queued w !! conn = None →
  ApiClient.fsGetFileStream b p
  = (response ← ApiClient.fetch b (ApiClient.baseURL b +:+ "/fs" +:+ p);
     if negb (ApiClient.ok response) then mret None
     else mret (ApiClient.body response))
  ∧ ApiClient.fsGetFileText b p
    = (response ← ApiClient.fetch b (ApiClient.baseURL b +:+ "/fs" +:+ p);
       if negb (ApiClient.ok response) then mret None
       else t ← ApiClient.text response; mret (Some t))
  ∧ ∃ w', fs_on_request conn ("/fs" +:+ p) w = Some (MHD_YES, w')
          ∧ queued conn w'
            = Some (MHD_HTTP_MOVED_PERMANENTLY, redirect_reply p).
Proof.
  intros Hguard Hst Hreg Hfit Ha Hq. split.
  { unfold ApiClient.fsGetFileStream. by rewrite Hguard. }
  split.
  { unfold ApiClient.fsGetFileText. by rewrite Hguard. }
  apply orb_false_iff in Hguard as [Hends Hstarts].
  apply negb_false_iff, startsWith_slash in Hstarts as [q ->].
  rewrite endsWith_slash in Hends.
  change ("/fs" +:+ String "/" q)
    with (String "/" (String "f" (String "s" (String "/" q)))).
  rewrite fs_on_request_unfold, Hst, Hreg.
  rewrite (on_dir_request_redirect_spec conn (String "/" q) w); try done.
  - destruct w as [e fl dr fr rs q0 nx lg].
    eexists. split; [done|]. unfold queued. red_world.
    by rewrite !lookup_insert_eq.
  - rewrite Hends. apply orb_true_r.
Qed.

Lemma directory_fetched_as_file_witness :
  ApiClient.fsGetFileStream demo_browser "/tmp/x"
  = (response ← ApiClient.fetch demo_browser
                  (ApiClient.baseURL demo_browser +:+ "/fs" +:+ "/tmp/x");
     if negb (ApiClient.ok response) then mret None
     else mret (ApiClient.body response))
  ∧ ApiClient.fsGetFileText demo_browser "/tmp/x"
    = (response ← ApiClient.fetch demo_browser
                    (ApiClient.baseURL demo_browser +:+ "/fs" +:+ "/tmp/x");
       if negb (ApiClient.ok response) then mret None
       else t ← ApiClient.text response; mret (Some t))
  ∧ ∃ w', fs_on_request 0 ("/fs" +:+ "/tmp/x") (initial demo_env)
          = Some (MHD_YES, w')
          ∧ queued 0 w'
            = Some (MHD_HTTP_MOVED_PERMANENTLY, redirect_response "/tmp/x").
Proof.
  apply (directory_fetched_as_file 0 "/tmp/x" (initial demo_env)
           {| st_isreg := false; st_size := 512 |} demo_browser).
  - reflexivity.
  - reflexivity.
  - reflexivity.
  - vm_compute. discriminate.
  - reflexivity.
  - reflexivity.
Defined.

(** *** The client: the arguments of [launchApp] *)

Lemma escape_app (a b : string) :
  ApiClient.escape (a +:+ b) = ApiClient.escape a +:+ ApiClient.escape b.
Proof.
  unfold ApiClient.escape. induction a as [|c a IH]; [done|].
  change (String c a +:+ b) with (String c (a +:+ b)). cbn [Js.replaceAll].
  rewrite IH. by destruct (Ascii.eqb c " ").
Qed.

Lemma escape_space (s : string) :
  ApiClient.escape (String " " s)
  = String "092" (String " " (ApiClient.escape s)).
Proof. done. Qed.

Lemma escape_other (c : ascii) (s : string) :
  c ≠ " "%char →
  ApiClient.escape (String c s) = String c (ApiClient.escape s).
Proof.
  intros Hc. unfold ApiClient.escape. cbn [Js.replaceAll].
  by destruct (Ascii.eqb_spec c " ").
Qed.

(** What [escape] yields never begins with a blank. *)
Lemma escape_head (s r : string) : ApiClient.escape s ≠ String " " r.
Proof.
  destruct s as [|c s]; [done|].
  destruct (decide (c = " "%char)) as [->|Hc].
  - by rewrite escape_space.
  - rewrite escape_other by done. by intros [= ->].
Qed.

Lemma escape_inj (s1 s2 : string) :
  ApiClient.escape s1 = ApiClient.escape s2 → s1 = s2.
Proof.
  revert s2. induction s1 as [|a s1 IH]; intros [|b s2].
  - done.
  - destruct (decide (b = " "%char)) as [->|Hb];
      [by rewrite escape_space|by rewrite escape_other].
  - destruct (decide (a = " "%char)) as [->|Ha];
      [by rewrite escape_space|by rewrite escape_other].
  - destruct (decide (a = " "%char)) as [->|Ha];
      destruct (decide (b = " "%char)) as [->|Hb];
      rewrite ?escape_space, ?(escape_other a), ?(escape_other b) by done.
    + intros [= E]. by rewrite (IH s2 E).
    + intros [= <- E]. symmetry in E. by destruct (escape_head _ _ E).
    + intros [= -> E]. by destruct (escape_head _ _ E).
    + intros [= -> E]. by rewrite (IH s2 E).
Qed.

Lemma join_cons (sep x y : string) (l : list string) :
  Js.join sep (x :: y :: l) = x +:+ sep +:+ Js.join sep (y :: l).
Proof. done. Qed.

Lemma join_cons_ne (sep x : string) (l : list string) :
  l ≠ [] → Js.join sep (x :: l) = x +:+ sep +:+ Js.join sep l.
Proof. by destruct l. Qed.

Lemma string_app_assoc (a b c : string) : (a +:+ b) +:+ c = a +:+ b +:+ c.
Proof.
  induction a as [|x a IH]; [done|].
  change (String x ((a +:+ b) +:+ c) = String x (a +:+ b +:+ c)).
  by rewrite IH.
Qed.

Lemma join_escape_collision (l1 l2 : list string) (a c : string) :
  Js.join " " (map ApiClient.escape
                 (l1 ++ [a +:+ ApiClient.backslash; c] ++ l2))
  = Js.join " " (map ApiClient.escape (l1 ++ [a +:+ " " +:+ c] ++ l2)).
Proof.
  induction l1 as [|x l1 IH].
  - cbn [app map]. rewrite join_cons, !escape_app.
    change (ApiClient.escape ApiClient.backslash) with ApiClient.backslash.
    change (ApiClient.escape " ") with (ApiClient.backslash +:+ " ").
    destruct l2 as [|y l2].
    + cbn [map]. unfold Js.join at 1 2. cbn [String.concat].
      by rewrite !string_app_assoc.
    + cbn [map]. rewrite !join_cons. by rewrite !string_app_assoc.
  - change ((x :: l1) ++ ?l) with (x :: (l1 ++ l)). cbn [map].
    rewrite !join_cons_ne by (by destruct l1). by rewrite IH.
Qed.

Lemma launch_params_example :
  ApiClient.launch_params "/data/app.elf"
    (ApiClient.args_array ["-o"; "my file"])
  = [("path", "/data/app.elf");
     ("args", "-o my" +:+ ApiClient.backslash +:+ " file")].
Proof. reflexivity. Qed.


(** X12: the arguments of an array can run into one another:
    backslashes are not escaped, so an argument that ends in a
    backslash, followed by another argument, yields the very request
    that the single argument made of the two joined by a blank yields,
    whatever stands before and after them. *)
Theorem launch_array_args_collide (b : ApiClient.browser) (path : string)
    (l1 l2 : list string) (a c : string) :
  ApiClient.launchApp b path
    (ApiClient.args_array (l1 ++ [a +:+ ApiClient.backslash; c] ++ l2))
  = ApiClient.launchApp b path
      (ApiClient.args_array (l1 ++ [a +:+ " " +:+ c] ++ l2)).
Proof.
  unfold ApiClient.launchApp, ApiClient.launch_params.
  by rewrite join_escape_collision.
Qed.

(** *** The client: the listing *)

Lemma includes_ignored (n : string) :
  Js.includes ApiClient.ignoredFileNames n = false ↔ n ≠ "." ∧ n ≠ "..".
Proof.
  unfold Js.includes, ApiClient.ignoredFileNames. cbn [existsb].
  destruct (String.eqb_spec n "."), (String.eqb_spec n ".."); cbn;
    intuition congruence.
Qed.

Lemma List_filter_listed (l : list ApiClient.entry) :
  List.filter
    (λ entry, negb (Js.includes ApiClient.ignoredFileNames
                      (ApiClient.entry_name entry))) l
  = filter listed l.
Proof.
  induction l as [|e l IH]; [done|]. cbn [List.filter]. rewrite filter_cons.
  rewrite IH.
  destruct (Js.includes _ (ApiClient.entry_name e)) eqn:E; cbn [negb].
  - rewrite decide_False; [done|]. intros H%includes_ignored. congruence.
  - rewrite decide_True; [done|]. by apply includes_ignored.
Qed.

Lemma insert_sorted_perm {A} (cmp : A → A → Z) (x : A) (l : list A) :
  Js.insert_sorted cmp x l ≡ₚ x :: l.
Proof.
  induction l as [|y l IH]; [done|]. cbn [Js.insert_sorted].
  destruct (cmp x y <=? 0); [done|]. by rewrite IH, Permutation_swap.
Qed.

Lemma sort_perm {A} (cmp : A → A → Z) (l : list A) : Js.sort cmp l ≡ₚ l.
Proof.
  induction l as [|x l IH]; [done|]. unfold Js.sort in *. cbn [foldr].
  by rewrite insert_sorted_perm, IH.
Qed.

Section sorting.
Context {A : Type} (cmp : A → A → Z).
Hypothesis cmp_total : ∀ x y, cmp x y <= 0 ∨ cmp y x <= 0.
Hypothesis cmp_trans : ∀ x y z, cmp x y <= 0 → cmp y z <= 0 → cmp x z <= 0.

Lemma insert_sorted_sorted (x : A) (l : list A) :
  StronglySorted (λ x y, cmp x y <= 0) l →
  StronglySorted (λ x y, cmp x y <= 0) (Js.insert_sorted cmp x l).
Proof.
  induction l as [|y l IH]; intros Hl; cbn [Js.insert_sorted].
  - by repeat constructor.
  - apply StronglySorted_cons in Hl as [Hy Hl].
    destruct (Z.leb_spec (cmp x y) 0) as [Hxy|Hxy].
    + apply StronglySorted_cons. split.
      * constructor; [done|].
        eapply Forall_impl; [exact Hy|]. intros z Hz. by eapply cmp_trans.
      * by apply StronglySorted_cons.
    + apply StronglySorted_cons. split; [|by apply IH].
      rewrite insert_sorted_perm. constructor; [|done].
      destruct (cmp_total x y); lia.
Qed.

Lemma sort_sorted (l : list A) :
  StronglySorted (λ x y, cmp x y <= 0) (Js.sort cmp l).
Proof.
  induction l as [|x l IH]; [constructor|]. by apply insert_sorted_sorted.
Qed.
End sorting.

Lemma filter_keeps_sorted {A} (R : relation A) (P : A → Prop)
    `{∀ x, Decision (P x)} (l : list A) :
  StronglySorted R l → StronglySorted R (filter P l).
Proof.
  induction 1 as [|x l Hl IH Hx]; [constructor|]. rewrite filter_cons.
  destruct (decide (P x)); [|done]. constructor; [done|].
  apply Forall_forall. intros y [_ Hy]%list_elem_of_filter.
  by apply (proj1 (Forall_forall _ _) Hx).
Qed.

Section collation.
Context (lc : string → string → Z) (Hlc : strict_order lc).

Lemma lc_total a b : lc a b <= 0 ∨ lc b a <= 0.
Proof.
  destruct (Z_le_gt_dec (lc a b) 0) as [|H]; [by left|].
  right. pose proof (proj2 (ord_opp lc Hlc b a)). lia.
Qed.

Lemma lc_le_trans a b c : lc a b <= 0 → lc b c <= 0 → lc a c <= 0.
Proof.
  intros H1 H2.
  destruct (Z.eq_dec (lc a b) 0) as [E|E];
    [by rewrite (ord_eq lc Hlc a b E)|].
  destruct (Z.eq_dec (lc b c) 0) as [E'|E'];
    [by rewrite <- (ord_eq lc Hlc b c E')|].
  pose proof (ord_trans lc Hlc a b c). lia.
Qed.

Lemma lc_lt_ne a b : a ≠ b → lc a b <= 0 → lc a b < 0.
Proof.
  intros Hne Hle. destruct (Z.eq_dec (lc a b) 0) as [E|E]; [|lia].
  by destruct (Hne (ord_eq lc Hlc a b E)).
Qed.
End collation.

Section by_mode_then_name.
Context (b : ApiClient.browser).
Hypothesis Hlc : strict_order (ApiClient.localeCompare b).

Lemma by_mode_then_name_total x y :
  ApiClient.by_mode_then_name b x y <= 0
  ∨ ApiClient.by_mode_then_name b y x <= 0.
Proof.
  unfold ApiClient.by_mode_then_name.
  rewrite (String.eqb_sym (ApiClient.entry_mode y)).
  destruct (String.eqb _ _); by apply lc_total.
Qed.

Lemma by_mode_then_name_trans x y z :
  ApiClient.by_mode_then_name b x y <= 0 →
  ApiClient.by_mode_then_name b y z <= 0 →
  ApiClient.by_mode_then_name b x z <= 0.
Proof.
  unfold ApiClient.by_mode_then_name.
  destruct (String.eqb_spec (ApiClient.entry_mode x) (ApiClient.entry_mode y))
    as [Exy|Nxy];
  destruct (String.eqb_spec (ApiClient.entry_mode y) (ApiClient.entry_mode z))
    as [Eyz|Nyz];
  destruct (String.eqb_spec (ApiClient.entry_mode x) (ApiClient.entry_mode z))
    as [Exz|Nxz]; try congruence; intros H1 H2.
  - by eapply lc_le_trans.
  - apply (lc_lt_ne _ Hlc) in H1; [|done].
    apply (lc_lt_ne _ Hlc) in H2; [|done].
    rewrite <- Exz in H2. pose proof (proj1 (ord_opp _ Hlc _ _) H1). lia.
  - by eapply lc_le_trans.
Qed.

Lemma by_mode_then_name_ordered x y :
  ApiClient.by_mode_then_name b x y <= 0 →
  mode_then_name (ApiClient.localeCompare b) (of_entry x) (of_entry y).
Proof.
  unfold ApiClient.by_mode_then_name, mode_then_name, of_entry.
  cbn [ApiClient.mode ApiClient.name].
  destruct (String.eqb_spec (ApiClient.entry_mode x) (ApiClient.entry_mode y))
    as [E|N]; intros H.
  - by right.
  - left. by apply lc_lt_ne.
Qed.
End by_mode_then_name.

Lemma byte_order_strict : strict_order byte_order.
Proof.
  split; unfold byte_order.
  - intros a b. destruct (String.compare a b) eqn:E; try done.
    intros _. by apply String.compare_eq_iff.
  - intros a b. rewrite (String.compare_antisym a b).
    destruct (String.compare b a); cbn [CompOpp]; lia.
  - intros a b c.
    destruct (String.compare a b) eqn:E1; try lia.
    destruct (String.compare b c) eqn:E2; try lia. intros _ _.
    apply OrderedTypeEx.String_as_OT.cmp_lt in E1, E2.
    pose proof (OrderedTypeEx.String_as_OT.lt_trans _ _ _ E1 E2) as E3.
    apply OrderedTypeEx.String_as_OT.cmp_lt in E3.
    unfold OrderedTypeEx.String_as_OT.cmp in E3. by rewrite E3.
Qed.

Lemma fsListDir_run (b : ApiClient.browser) (p : string)
    (response : ApiClient.Response) (data : list ApiClient.entry) :
  ApiClient.fetch b (ApiClient.baseURL b +:+ "/fs"
                     +:+ ApiClient.with_separator p +:+ "?fmt=json")
  = Js.Fulfilled response →
  ApiClient.ok response = true →
  ApiClient.json response = Js.Fulfilled data →
  ApiClient.fsListDir b p
  = Js.Fulfilled (Some (of_entry <$>
      filter listed (Js.sort (ApiClient.by_mode_then_name b) data))).
Proof.
  intros Hfetch Hok Hjson. unfold ApiClient.fsListDir.
  rewrite Hfetch. cbn [mbind Js.promise_bind]. rewrite Hok. cbn [negb].
  rewrite Hjson. cbn [mbind Js.promise_bind mret Js.promise_ret].
  by rewrite List_filter_listed.
Qed.

Lemma fsListDir_on_demo :
  ApiClient.fsListDir demo_browser "/tmp/x"
  = Js.Fulfilled (Some
      [ {| ApiClient.name := "a.txt"; ApiClient.mode := "-" |};
        {| ApiClient.name := "b.txt"; ApiClient.mode := "-" |};
        {| ApiClient.name := "sub"; ApiClient.mode := "d" |} ]).
Proof. vm_compute. reflexivity. Qed.

(** X13: what [fsListDir] returns.  When the listing request is
    answered with an ok response whose body parses to the array [data],
    the result is a list of [DirectoryListing]s that holds the entries
    of [data] other than [.] and [..], each as often as [data] does and
    no other; on every element of it [isDir] is the test [mode === 'd']
    and [isFile] the test [mode === '-']. *)
Theorem fsListDir_lists (b : ApiClient.browser) (p : string)
    (response : ApiClient.Response) (data : list ApiClient.entry) :
  ApiClient.fetch b (ApiClient.baseURL b +:+ "/fs"
                     +:+ ApiClient.with_separator p +:+ "?fmt=json")
  = Js.Fulfilled response →
  ApiClient.ok response = true →
  ApiClient.json response = Js.Fulfilled data →
  ∃ ds, ApiClient.fsListDir b p = Js.Fulfilled (Some ds)
        ∧ ds ≡ₚ of_entry <$> filter listed data
        ∧ Forall (λ d, ApiClient.isDir d = String.eqb (ApiClient.mode d) "d"
                       ∧ ApiClient.isFile d
                         = String.eqb (ApiClient.mode d) "-") ds.
Proof.
  intros Hfetch Hok Hjson.
  rewrite (fsListDir_run b p response data Hfetch Hok Hjson).
  eexists. split; [done|]. split.
  - by rewrite sort_perm.
  - apply Forall_fmap, Forall_forall. intros e [He _]%list_elem_of_filter.
    apply includes_ignored in He.
    unfold ApiClient.isDir, ApiClient.isFile, of_entry, compose.
    cbn [ApiClient.mode ApiClient.name]. rewrite He. cbn [negb].
    by rewrite !andb_true_r.
Qed.

Lemma fsListDir_lists_witness :
  ∃ ds, ApiClient.fsListDir demo_browser "/tmp/x" = Js.Fulfilled (Some ds)
        ∧ ds ≡ₚ of_entry <$> filter listed demo_listing
        ∧ Forall (λ d, ApiClient.isDir d = String.eqb (ApiClient.mode d) "d"
                       ∧ ApiClient.isFile d
                         = String.eqb (ApiClient.mode d) "-") ds.
Proof.
  apply (fsListDir_lists demo_browser "/tmp/x" demo_response demo_listing).
  - reflexivity.
  - reflexivity.
  - reflexivity.
Defined.

(** X14: the result of [fsListDir] is sorted by mode, then by name,
    provided [localeCompare] orders the strings (zero on equal strings
    only, of opposite signs on exchanged arguments, transitive): of two
    elements the earlier has the smaller mode, or the same mode and a
    name that is not greater. *)
Theorem fsListDir_sorts (b : ApiClient.browser) (p : string)
    (response : ApiClient.Response) (data : list ApiClient.entry) :
  strict_order (ApiClient.localeCompare b) →
  ApiClient.fetch b (ApiClient.baseURL b +:+ "/fs"
                     +:+ ApiClient.with_separator p +:+ "?fmt=json")
  = Js.Fulfilled response →
  ApiClient.ok response = true →
  ApiClient.json response = Js.Fulfilled data →
  ∃ ds, ApiClient.fsListDir b p = Js.Fulfilled (Some ds)
        ∧ StronglySorted (mode_then_name (ApiClient.localeCompare b)) ds.
Proof.
  intros Hlc Hfetch Hok Hjson.
  rewrite (fsListDir_run b p response data Hfetch Hok Hjson).
  eexists. split; [done|].
  apply (StronglySorted_fmap of_entry
           (λ x y, ApiClient.by_mode_then_name b x y <= 0)).
  - intros x y. by apply by_mode_then_name_ordered.
  - apply filter_keeps_sorted, sort_sorted.
    + by apply by_mode_then_name_total.
    + by apply by_mode_then_name_trans.
Qed.

Lemma fsListDir_sorts_witness :
  ∃ ds, ApiClient.fsListDir demo_browser "/tmp/x" = Js.Fulfilled (Some ds)
        ∧ StronglySorted
            (mode_then_name (ApiClient.localeCompare demo_browser)) ds.
Proof.
  apply (fsListDir_sorts demo_browser "/tmp/x" demo_response demo_listing).
  - apply byte_order_strict.
  - reflexivity.
  - reflexivity.
  - reflexivity.
Defined.

(** *** The reply and the state of the server *)

Lemma pull_file_determined (N : Z) (caps : list Z) :
  ∀ (f : FILE) (pos : Z) (sent : list ascii),
    ∃ ob, ∀ (w : world) (id : nat),
      w_files w !! id = Some f →
      ∃ f', pull Fn_on_file_read (FilePtr id) N caps pos sent w
            = Some (ob, set_files <[id := f']> w).
Proof.
  induction caps as [|cap caps IH]; intros f pos sent.
  - exists (if negb (N =? MHD_SIZE_UNKNOWN) && (pos =? N)
            then Completed else Interrupted, sent).
    intros w id Hf. exists f.
    rewrite set_files_insert_id by done. cbn [pull].
    by destruct (negb (N =? MHD_SIZE_UNKNOWN) && (pos =? N)).
  - cbn [pull].
    destruct (negb (N =? MHD_SIZE_UNKNOWN) && (pos =? N)) eqn:Hdone.
    { exists (Completed, sent). intros w id Hf. exists f.
      by rewrite set_files_insert_id. }
    set (max := if negb (N =? MHD_SIZE_UNKNOWN) then cap `min` (N - pos)
                else cap).
    destruct (Libc.seek_set f (C.to_long pos)) as [f1|] eqn:Hseek.
    + set (r := Libc.read f1 max).
      set (n := if r.1.1 =? 0
                then if f_err r.2 then MHD_CONTENT_READER_END_WITH_ERROR
                     else MHD_CONTENT_READER_END_OF_STREAM
                else C.to_ssize_t r.1.1).
      destruct (IH r.2 (pos + n) (sent ++ take (Z.to_nat n) r.1.2))
        as [ob Hob].
      exists (if n =? MHD_CONTENT_READER_END_OF_STREAM
              then (if negb (N =? MHD_SIZE_UNKNOWN) then Failed
                    else Completed, sent)
              else if (n <? 0) || (max <? n) then (Failed, sent) else ob).
      intros w id Hf. unfold mbind, M_bind at 1. cbn [call_crc].
      rewrite (on_file_read_spec w id f pos max Hf), Hseek.
      cbv zeta. fold r. fold n.
      assert (Hf2 : w_files (set_files <[id := r.2]> w) !! id = Some r.2)
        by (rewrite files_set_files; apply lookup_insert_eq).
      clearbody n r max. cbv beta iota.
      destruct (n =? MHD_CONTENT_READER_END_OF_STREAM).
      { eexists. reflexivity. }
      destruct ((n <? 0) || (max <? n)).
      { eexists. reflexivity. }
      destruct (Hob _ id Hf2) as [f' Hrec].
      exists f'. rewrite Hrec. by rewrite set_files_insert_insert.
    + exists (Failed, sent). intros w id Hf. exists f.
      unfold mbind, M_bind at 1. cbn [call_crc].
      rewrite (on_file_read_spec w id f pos max Hf), Hseek.
      rewrite set_files_insert_id by done. reflexivity.
Qed.

Ltac settle :=
  eexists; split; [reflexivity|]; split; [done|]; red_world;
  try apply lookup_delete_eq; try done.

Lemma serves_ext (conn : nat) (m m' : M (Z * option reply)) (w : world) v :
  m w = m' w → serves conn m w v → serves conn m' w v.
Proof. intros E. destruct v; cbn [serves]; by rewrite E. Qed.

Lemma then_send_ext (h h' : M Z) (conn : nat) (caps : list Z) (w : world) :
  h w = h' w → then_send h conn caps w = then_send h' conn caps w.
Proof. intros E. unfold then_send, mbind, M_bind. by rewrite E. Qed.

Lemma queue_page_404_served (e : env) (caps : list Z) :
  ∃ v, ∀ conn w, w_env w = e → w_queued w !! conn = None →
    serves conn (then_send (queue_page_404 conn) conn caps) w v.
Proof.
  destruct (mhd_alloc e) eqn:Ha.
  - eexists (Some _). intros conn w He Hq. cbn [serves].
    destruct w as [e0 fl dr fr rs q nx lg]. red_world in He. subst e0.
    red_world in Hq.
    unfold then_send, queue_page_404, http_send,
      MHD_create_response_from_buffer, create_response,
      MHD_queue_response, MHD_destroy_response, with_resp.
    run. settle.
  - eexists (Some _). intros conn w He Hq. cbn [serves].
    destruct w as [e0 fl dr fr rs q nx lg]. red_world in He. subst e0.
    red_world in Hq.
    unfold then_send, queue_page_404, http_send,
      MHD_create_response_from_buffer, create_response,
      MHD_queue_response, MHD_destroy_response, with_resp.
    run. settle.
Qed.

Lemma on_file_request_served (e : env) (path : string) (caps : list Z) :
  ∃ v, ∀ conn w, w_env w = e → w_queued w !! conn = None →
    serves conn (then_send (on_file_request conn path) conn caps) w v.
Proof.
  destruct (fs_stat e path) as [st|] eqn:Hst;
    [destruct (fs_fopen e path) as [f|] eqn:Hf|].
  - destruct (mhd_alloc e) eqn:Ha.
    + destruct (pull_file_determined (st_size st `mod` 2 ^ 64) caps
                  (opened f) 0 []) as [[o body] Hpull].
      eexists (Some _). intros conn w He Hq. cbn [serves].
      destruct w as [e0 fl dr fr rs q nx lg]. red_world in He. subst e0.
      red_world in Hq.
      unfold then_send. unfold mbind, M_bind at 1.
      rewrite (on_file_request_found conn path _ st f) by done.
      red_world. unfold http_send, MHD_destroy_response, with_resp.
      run. unfold file_response at 1. run.
      match goal with
      | |- context [pull _ _ _ _ _ _ ?w1] =>
          destruct (Hpull w1 nx) as [f' ->];
            [red_world; apply lookup_insert_eq|]
      end.
      run. unfold file_response. run.
      unfold call_crfc, on_file_close, Libc.fclose, Libc.with_file. run.
      settle.
    + eexists (Some _). intros conn w He Hq. cbn [serves].
      destruct w as [e0 fl dr fr rs q nx lg]. red_world in He. subst e0.
      red_world in Hq.
      unfold then_send. unfold mbind, M_bind at 1.
      rewrite (on_file_request_no_memory conn path _ st f) by done.
      red_world. unfold mbind, M_bind at 1.
      rewrite http_send_nothing by done. settle.
  - destruct (queue_page_404_served e caps) as [v Hv]. exists v.
    intros conn w He Hq. specialize (Hv conn w He Hq).
    revert Hv. apply serves_ext, then_send_ext. symmetry.
    apply on_file_request_not_found. rewrite He. auto.
  - destruct (queue_page_404_served e caps) as [v Hv]. exists v.
    intros conn w He Hq. specialize (Hv conn w He Hq).
    revert Hv. apply serves_ext, then_send_ext. symmetry.
    apply on_file_request_not_found. rewrite He. auto.
Qed.

Lemma on_dir_request_served (e : env) (path : string) (caps : list Z) :
  ∃ v, ∀ conn w, w_env w = e → w_queued w !! conn = None →
    serves conn (then_send (on_dir_request conn path) conn caps) w v.
Proof.
  destruct ((C.strlen path =? 0) || negb (last_is_slash path)) eqn:Hs.
  - assert (Hlen : C.strlen ("/fs" +:+ path +:+ "/") = C.strlen path + 4).
    { rewrite !strlen_app. unfold C.strlen at 1 3. cbn [String.length]. lia. }
    destruct (Z.leb_spec (C.strlen path + 4 + 1) (PATH_MAX e)) as [Hfit|Hfit];
      [destruct (mhd_alloc e) eqn:Ha|].
    + eexists (Some _). intros conn w He Hq. cbn [serves].
      destruct w as [e0 fl dr fr rs q nx lg]. red_world in He. subst e0.
      red_world in Hq.
      unfold then_send. unfold mbind, M_bind at 1.
      rewrite (on_dir_request_redirect_spec conn path) by (done || red_world; lia).
      red_world. unfold http_send, MHD_destroy_response, with_resp.
      run. unfold redirect_reply. run. settle.
    + eexists (Some _). intros conn w He Hq. cbn [serves].
      destruct w as [e0 fl dr fr rs q nx lg]. red_world in He. subst e0.
      red_world in Hq.
      unfold then_send, on_dir_request, enter_frame, leave_frame,
        on_dir_request_body, http_send.
      rewrite Hs.
      unfold MHD_create_response_from_buffer, create_response.
      unfold_M. unfold C.sprintf. rewrite Hlen.
      destruct (Z.leb_spec (C.strlen path + 4 + 1) (PATH_MAX e)); [|lia].
      run. settle.
    + exists None. intros conn w He Hq. cbn [serves].
      destruct w as [e0 fl dr fr rs q nx lg]. red_world in He. subst e0.
      unfold then_send, on_dir_request, enter_frame, leave_frame,
        on_dir_request_body.
      rewrite Hs. unfold_M. unfold C.sprintf. rewrite Hlen.
      destruct (Z.leb_spec (C.strlen path + 4 + 1) (PATH_MAX e)); [lia|].
      done.
  - destruct (fs_opendir e path) as [es|] eqn:Hd;
      destruct (mhd_alloc e) eqn:Ha.
    + exists None. intros conn w He Hq. cbn [serves].
      destruct w as [e0 fl dr fr rs q nx lg]. red_world in He. subst e0.
      red_world in Hq.
      unfold then_send. unfold mbind, M_bind at 1.
      rewrite (on_dir_request_listing_spec conn path _ es) by done.
      red_world. unfold mbind, M_bind at 1.
      rewrite (http_send_dangling _ conn (S (S nx)) nx MHD_HTTP_OK
                 (32 * PAGE_SIZE e) (dir_response e nx) caps); try done.
      * red_world. apply lookup_insert_eq.
      * red_world. apply lookup_insert_eq.
      * red_world. apply lookup_delete_eq.
    + eexists (Some _). intros conn w He Hq. cbn [serves].
      destruct w as [e0 fl dr fr rs q nx lg]. red_world in He. subst e0.
      red_world in Hq.
      unfold then_send, on_dir_request, enter_frame, leave_frame,
        on_dir_request_body, http_send.
      rewrite Hs.
      unfold Libc.opendir, Libc.closedir, Libc.with_dir, store_sm,
        MHD_create_response_from_callback, create_response.
      run. settle.
    + eexists (Some _). intros conn w He Hq. cbn [serves].
      destruct w as [e0 fl dr fr rs q nx lg]. red_world in He. subst e0.
      red_world in Hq.
      unfold then_send. unfold mbind, M_bind at 1.
      rewrite (on_dir_request_unopened_spec conn path) by done.
      red_world. unfold http_send, MHD_destroy_response, with_resp.
      run. unfold page_404_response. run. settle.
    + eexists (Some _). intros conn w He Hq. cbn [serves].
      destruct w as [e0 fl dr fr rs q nx lg]. red_world in He. subst e0.
      red_world in Hq.
      unfold then_send, on_dir_request, enter_frame, leave_frame,
        on_dir_request_body, http_send.
      rewrite Hs.
      unfold Libc.opendir, queue_page_404, MHD_create_response_from_buffer,
        create_response.
      run. settle.
Qed.

Lemma serve_outcome (e : env) (url : string) (caps : list Z) :
  ∃ v, ∀ conn w, w_env w = e → w_queued w !! conn = None →
    serves conn (serve conn url caps) w v.
Proof.
  destruct url as [|c1 [|c2 [|c3 rest]]];
    try (exists None; intros conn w _ _; reflexivity).
  unfold serve.
  destruct rest as [|c rest].
  - destruct (on_dir_request_served e "/" caps) as [v Hv]. exists v.
    intros conn w He Hq. specialize (Hv conn w He Hq). revert Hv.
    apply serves_ext, then_send_ext. by rewrite fs_on_request_unfold.
  - destruct (fs_stat e (String c rest)) as [st|] eqn:Hst.
    + destruct (st_isreg st) eqn:Hreg.
      * destruct (on_file_request_served e (String c rest) caps) as [v Hv].
        exists v. intros conn w He Hq. specialize (Hv conn w He Hq).
        revert Hv. apply serves_ext, then_send_ext.
        by rewrite fs_on_request_unfold, He, Hst, Hreg.
      * destruct (on_dir_request_served e (String c rest) caps) as [v Hv].
        exists v. intros conn w He Hq. specialize (Hv conn w He Hq).
        revert Hv. apply serves_ext, then_send_ext.
        by rewrite fs_on_request_unfold, He, Hst, Hreg.
    + destruct (queue_page_404_served e caps) as [v Hv].
      exists v. intros conn w He Hq. specialize (Hv conn w He Hq).
      revert Hv. apply serves_ext, then_send_ext.
      by rewrite fs_on_request_unfold, He, Hst.
Qed.



(** X18: serving is repeatable.  When a request on a connection with
    no reply yet has been served (handler, transmission, close), the
    same request served again in the world the first left behind
    returns the same value and sends the same reply. *)
Theorem serve_is_repeatable (conn : nat) (url : string) (caps : list Z)
    (w w' : world) (out : Z * option reply) :
  w_queued w !! conn = None →
  serve conn url caps w = Some (out, w') →
  ∃ w'', serve conn url caps w' = Some (out, w'').
Proof.
  intros Hq Hrun.
  destruct (serve_outcome (w_env w) url caps) as [v Hv].
  pose proof (Hv conn w eq_refl Hq) as H1.
  destruct v as [out'|]; cbn [serves] in *; [|congruence].
  destruct H1 as (w1 & Hrun1 & He & Hq').
  rewrite Hrun in Hrun1. injection Hrun1 as -> ->.
  destruct (Hv conn w1 He Hq') as (w'' & Hrun2 & _). by exists w''.
Qed.

Lemma serve_is_repeatable_witness :
  ∃ w'', serve 0 "/fs/tmp/x/a.txt" [4; 4; 4]
           (World demo_env ∅ ∅ ∅ ∅ ∅ 2%nat [Ev_fopen 0; Ev_fclose 0])
         = Some ((MHD_YES,
                  Some {| rp_status := MHD_HTTP_OK; rp_headers := [];
                          rp_length := 12; rp_outcome := Completed;
                          rp_body := C.bytes "hello, world" |}), w'').
Proof.
  apply (serve_is_repeatable 0 "/fs/tmp/x/a.txt" [4; 4; 4]
           (initial demo_env)).
  - reflexivity.
  - vm_compute. reflexivity.
Defined.

(** *** The decorator when queuing is refused *)

(** X19: the decorator adds the header before it tries to queue.  On
    a connection that has a reply already it returns [MHD_NO], and the
    response object bears one more Access-Control-Allow-Origin header
    all the same, though nothing was queued and no reference taken;
    with a null response it returns [MHD_NO] and changes nothing. *)
Theorem websrv_queue_response_refused (w : world) (conn id : nat)
    (status : Z) (r : MHD_Response) (earlier : Z * nat) :
  w_resps w !! id = Some r →
  w_queued w !! conn = Some earlier →
  websrv_queue_response conn status (RespPtr id) w
  = Some (MHD_NO,
          set_resps <[id :=
            {| r_content := r_content r;
               r_headers := r_headers r ++
                 [(MHD_HTTP_HEADER_ACCESS_CONTROL_ALLOW_ORIGIN, "*")];
               r_refs := r_refs r |}]> w)
  ∧ websrv_queue_response conn status NULL w = Some (MHD_NO, w).
Proof.
  intros Hr Hq. split; [|done].
  destruct w as [e fl dr fr rs q nx lg]. red_world in Hr. red_world in Hq.
  unfold websrv_queue_response, MHD_add_response_header, MHD_queue_response,
    with_resp.
  change (header_ok MHD_HTTP_HEADER_ACCESS_CONTROL_ALLOW_ORIGIN "*")
    with true. cbn [negb].
  rewrite !decide_False by done. unfold_M. rewrite Hr. red_world.
  rewrite lookup_insert_eq. red_world. by rewrite Hq.
Qed.

Lemma websrv_queue_response_refused_witness :
  websrv_queue_response 0 MHD_HTTP_MOVED_PERMANENTLY (RespPtr 6) demo_busy
  = Some (MHD_NO,
          set_resps <[6%nat :=
            {| r_content := r_content (redirect_response "/tmp/x");
               r_headers := r_headers (redirect_response "/tmp/x") ++
                 [(MHD_HTTP_HEADER_ACCESS_CONTROL_ALLOW_ORIGIN, "*")];
               r_refs := r_refs (redirect_response "/tmp/x") |}]> demo_busy)
  ∧ websrv_queue_response 0 MHD_HTTP_MOVED_PERMANENTLY NULL demo_busy
    = Some (MHD_NO, demo_busy).
Proof.
  apply (websrv_queue_response_refused demo_busy 0 6
           MHD_HTTP_MOVED_PERMANENTLY (redirect_response "/tmp/x")
           (MHD_HTTP_NOT_FOUND, 5%nat)).
  - vm_compute. reflexivity.
  - vm_compute. reflexivity.
Defined.

(** *** The client: arguments that are told apart *)




Lemma escape_nil (s : string) : ApiClient.escape s = EmptyString → s = EmptyString.
Proof. intros H. apply escape_inj. by rewrite H. Qed.






